(** * Sequoia.py: the Pixhawk -> Raspberry Pi -> Parrot Sequoia trigger controller

    A shallow embedding of [class PixhawkSequoiaTrigger] (src/Sequoia.py).

    Conventions of the embedding.
    - Python [int]s are [Z].  A Python [float] is a [Q]: the rational a
      double stands for.  Clock readings and delays are compared and
      subtracted as the rationals they are; the success rate of
      [get_statistics] is computed as the interpreter computes it, with
      each operation rounded to the nearest double ([Py.binary64]).
    - A method that mutates [self] becomes a function returning the new
      controller together with the list of effects it issued, in program
      order: log records, GPIO writes and thread starts.
    - What the operating system answers (the clock, the gphoto2 process,
      [os.path.getsize], opening a file) is an explicit argument.
    - Logging, [GPIO.output] and [Thread.start] are taken to return
      normally.
    - A file is its path and its text: [json.dump] is modelled by the
      characters it writes. *)

From Stdlib Require Import ZArith QArith Qminmax String Ascii List Bool Lia Lqa.
From Stdlib Require Import DecimalString DecimalZ DecimalPos Qround Qabs Qpower.
From Stdlib Require SpecFloat.
Import ListNotations.

Local Open Scope string_scope.
Local Open Scope list_scope.
Local Open Scope Z_scope.

(** ** Python helpers *)

Module Py.

(** [x < y] on floats, as a boolean. *)
Definition Qltb (x y : Q) : bool := negb (Qle_bool y x).

(** Truth value of [self.status_led_pin]: [None] and [0] are false. *)
Definition truthy (pin : option Z) : bool :=
  match pin with
  | Some p => negb (p =? 0)
  | None => false
  end.

(** [str(n)] for an [int]. *)
Definition str (n : Z) : string := NilZero.string_of_int (Z.to_int n).

Fixpoint zeros (k : nat) : string :=
  match k with
  | O => EmptyString
  | S k' => String "0" (zeros k')
  end.

(** [format(n, '05d')]: sign first, then zeros up to a total width of 5. *)
Definition format_05d (n : Z) : string :=
  if n <? 0 then
    let d := str (- n) in
    String "-" (zeros (4 - String.length d) ++ d)%string
  else
    let d := str n in
    (zeros (5 - String.length d) ++ d)%string.

Definition startswith_slash (b : string) : bool :=
  match b with
  | String c _ => Ascii.eqb c "/"
  | EmptyString => false
  end.

Fixpoint endswith_slash (a : string) : bool :=
  match a with
  | EmptyString => false
  | String c EmptyString => Ascii.eqb c "/"
  | String _ rest => endswith_slash rest
  end.

(** [os.path.join(a, b)] of posixpath. *)
Definition os_path_join (a b : string) : string :=
  if startswith_slash b then b
  else if (String.length a =? 0)%nat || endswith_slash a then (a ++ b)%string
  else (a ++ "/" ++ b)%string.

(** Values stored in the statistics dictionary. *)
Inductive value : Type :=
| Int (n : Z)
| Float (x : Q)
| Str (s : string).

(** A [dict] with string keys, in insertion order. *)
Definition dict : Type := list (string * value).

Fixpoint get (d : dict) (k : string) : option value :=
  match d with
  | [] => None
  | (k', v) :: rest => if String.eqb k k' then Some v else get rest k
  end.

(** [d[k] = v]: an existing key keeps its position. *)
Fixpoint set (d : dict) (k : string) (v : value) : dict :=
  match d with
  | [] => [(k, v)]
  | (k', v') :: rest =>
      if String.eqb k k' then (k', v) :: rest else (k', v') :: set rest k v
  end.

(** [{**d, k1: v1, ...}]. *)
Definition update (d : dict) (items : list (string * value)) : dict :=
  fold_left (fun acc kv => set acc (fst kv) (snd kv)) items d.

(** [datetime]: the instant, and what [isoformat()] prints for it. *)
Record datetime : Type := { posix : Q; isoformat : string }.

(** [(a - b).total_seconds()]. *)
Definition total_seconds (a b : datetime) : Q := (posix a - posix b)%Q.

(** *** Double precision

    A finite double is the rational it stands for.  [binary64 x] is the
    double nearest to [x], ties going to the even significand: 53 bits
    above 2^-1022, multiples of 2^-1074 below.  Overflow is left out: past
    the largest double Python has [inf] or [OverflowError] and the model a
    rational; the quotient of two counters of a running controller lies
    between 0 and 1, far from it. *)
Definition pow2 (e : Z) : Q := (2 ^ e)%Q.

(** The [l] with 2^l <= x < 2^(l+1), for [x] > 0. *)
Definition ilog2 (x : Q) : Z :=
  let l := Z.log2 (Qnum x) - Z.log2 (Z.pos (Qden x)) in
  if Qle_bool (pow2 l) x then l else l - 1.

Definition round_half_even (x : Q) : Z :=
  let f := Qfloor x in
  match (x - inject_Z f ?= 1 # 2)%Q with
  | Lt => f
  | Gt => f + 1
  | Eq => if Z.even f then f else f + 1
  end.

(** The exponent of the last bit of the doubles around [x]. *)
Definition ulp_exponent (x : Q) : Z := Z.max (ilog2 (Qabs x) - 52) (-1074).

Definition binary64 (x : Q) : Q :=
  if Qeq_bool x 0 then 0%Q
  else
    let e := ulp_exponent x in
    (inject_Z (round_half_even (x / pow2 e)) * pow2 e)%Q.

(** Half the gap between 1 and the next double. *)
Definition unit_roundoff : Q := pow2 (-53).

(** [b] is a double: a multiple of the last bit at its own magnitude. *)
Definition representable (b : Q) : Prop :=
  exists m : Z, (b == inject_Z m * pow2 (ulp_exponent b))%Q.

(** [a / b] on two [int]s, [b] not 0: the quotient, rounded once. *)
Definition int_truediv (a b : Z) : Q := binary64 (inject_Z a / inject_Z b).

(** [x * y] on two [float]s. *)
Definition float_mul (x y : Q) : Q := binary64 (x * y).

End Py.

(** ** The controller *)

(** [self.stats]: a dictionary with four fixed keys. *)
Record stats_t : Type := {
  total_triggers : Z;
  successful_captures : Z;
  failed_captures : Z;
  session_start : string
}.

(** The instance attributes of [PixhawkSequoiaTrigger]. *)
Record controller : Type := {
  trigger_pin : Z;
  status_led_pin : option Z;
  capture_count : Z;
  last_trigger_time : Q;
  is_capturing : bool;
  session_start_time : Py.datetime;
  photo_directory : string;
  debounce_time : Q;
  capture_timeout : Z;
  stats : stats_t
}.

Definition set_stats (st : stats_t) (s : controller) : controller :=
  {| trigger_pin := trigger_pin s; status_led_pin := status_led_pin s;
     capture_count := capture_count s;
     last_trigger_time := last_trigger_time s;
     is_capturing := is_capturing s;
     session_start_time := session_start_time s;
     photo_directory := photo_directory s;
     debounce_time := debounce_time s;
     capture_timeout := capture_timeout s;
     stats := st |}.

Definition set_last_trigger_time (t : Q) (s : controller) : controller :=
  {| trigger_pin := trigger_pin s; status_led_pin := status_led_pin s;
     capture_count := capture_count s;
     last_trigger_time := t;
     is_capturing := is_capturing s;
     session_start_time := session_start_time s;
     photo_directory := photo_directory s;
     debounce_time := debounce_time s;
     capture_timeout := capture_timeout s;
     stats := stats s |}.

Definition set_is_capturing (b : bool) (s : controller) : controller :=
  {| trigger_pin := trigger_pin s; status_led_pin := status_led_pin s;
     capture_count := capture_count s;
     last_trigger_time := last_trigger_time s;
     is_capturing := b;
     session_start_time := session_start_time s;
     photo_directory := photo_directory s;
     debounce_time := debounce_time s;
     capture_timeout := capture_timeout s;
     stats := stats s |}.

Definition set_capture_count (n : Z) (s : controller) : controller :=
  {| trigger_pin := trigger_pin s; status_led_pin := status_led_pin s;
     capture_count := n;
     last_trigger_time := last_trigger_time s;
     is_capturing := is_capturing s;
     session_start_time := session_start_time s;
     photo_directory := photo_directory s;
     debounce_time := debounce_time s;
     capture_timeout := capture_timeout s;
     stats := stats s |}.

(** [self.stats['total_triggers'] += 1] and its two siblings. *)
Definition incr_total_triggers (s : controller) : controller :=
  set_stats {| total_triggers := total_triggers (stats s) + 1;
               successful_captures := successful_captures (stats s);
               failed_captures := failed_captures (stats s);
               session_start := session_start (stats s) |} s.

Definition incr_successful_captures (s : controller) : controller :=
  set_stats {| total_triggers := total_triggers (stats s);
               successful_captures := successful_captures (stats s) + 1;
               failed_captures := failed_captures (stats s);
               session_start := session_start (stats s) |} s.

Definition incr_failed_captures (s : controller) : controller :=
  set_stats {| total_triggers := total_triggers (stats s);
               successful_captures := successful_captures (stats s);
               failed_captures := failed_captures (stats s) + 1;
               session_start := session_start (stats s) |} s.

(** The attribute assignments of [__init__] (lines 55-75).  The three
    set-up calls that follow write no attribute. *)
Definition init (trigger_pin : Z) (status_led_pin : option Z)
  (now : Py.datetime) : controller :=
  {| trigger_pin := trigger_pin;
     status_led_pin := status_led_pin;
     capture_count := 0;
     last_trigger_time := 0%Q;
     is_capturing := false;
     session_start_time := now;
     photo_directory := "/home/pi/aerial_photos";
     debounce_time := (1 # 10)%Q;
     capture_timeout := 30;
     stats := {| total_triggers := 0;
                 successful_captures := 0;
                 failed_captures := 0;
                 session_start := Py.isoformat now |} |}.

(** ** Effects *)

Inductive gpio_level : Type := LOW | HIGH.

Inductive log_level : Type := INFO | WARNING | ERROR.

(** One constructor per logging call of the two methods and of
    [save_statistics], named after its message. *)
Inductive log_record : Type :=
| TriggerIgnorado (n : Z)
| TriggerDetectado (n : Z) (channel : Z)
| EjecutandoCaptura (n : Z) (filename : string)
| CapturaExitosa (n : Z) (filename : string) (size_mb : option Q)
                 (capture_time : Q)
| CapturaFallo (n : Z) (capture_time : Q)
| ErrorGphoto2 (stderr : string)
| CapturaTimeout (n : Z) (timeout : Z)
| ErrorInesperado (n : Z) (e : string)
| ErrorGuardando (e : string).

Inductive effect : Type :=
| Log (lvl : log_level) (r : log_record)
| GpioOutput (channel : option Z) (level : gpio_level)
| StartBlink (times : Z) (delay : Q)
| StartCapture (trigger_number : Z).

(** [set_status_led] (lines 233-236). *)
Definition set_status_led (s : controller) (state : bool) : list effect :=
  if Py.truthy (status_led_pin s)
  then [GpioOutput (status_led_pin s) (if state then HIGH else LOW)]
  else [].

(** [blink_status_led] (lines 238-252): returns at once when there is no
    pin, otherwise starts the daemon thread that blinks. *)
Definition blink_status_led (s : controller) (times : Z) (delay : Q)
  : list effect :=
  if negb (Py.truthy (status_led_pin s)) then []
  else [StartBlink times delay].

(** ** The edge callback *)

(** [pixhawk_trigger_callback] (lines 143-169); [clock] is what
    [time.time()] returns on line 145. *)
Definition pixhawk_trigger_callback (s : controller) (clock : Q) (channel : Z)
  : controller * list effect :=
  let current_time := clock in
  if Py.Qltb (current_time - last_trigger_time s) (debounce_time s) then
    (s, [])
  else
    let s := set_last_trigger_time current_time s in
    let s := incr_total_triggers s in
    if is_capturing s then
      (s, [Log WARNING (TriggerIgnorado (total_triggers (stats s)))])
    else
      (s, [Log INFO (TriggerDetectado (total_triggers (stats s)) channel)]
          ++ set_status_led s true
          ++ [StartCapture (total_triggers (stats s))]).

(** ** The capture worker *)

(** The two exception classes the handlers of [execute_capture] tell apart:
    [subprocess.TimeoutExpired], and any other [Exception]. *)
Inductive exception : Type :=
| TimeoutExpired
| OtherException (e : string).

(** What [subprocess.run] does: it returns a completed process, or raises. *)
Inductive run_result : Type :=
| Completed (returncode : Z) (stderr : string)
| Raises (e : exception).

(** What the world answers during the [try] block of one attempt. *)
Record attempt : Type := {
  strftime : string;                          (* timestamp.strftime(...) *)
  subprocess_run : list string -> Z -> run_result;  (* argv, timeout *)
  end_clock : Q;                              (* time.time(), line 192 *)
  os_path_getsize : string -> option Z        (* None: it raises *)
}.


(** Lines 173-174: the first two statements of the worker; [clock] is
    [time.time()]. *)
Definition execute_capture_enter (s : controller) (clock : Q)
  : controller * Q :=
  (set_is_capturing true s, clock).

(** Lines 178-180. *)
Definition capture_filename (trigger_number : Z) (w : attempt) : string :=
  ("aerial_" ++ strftime w ++ "_T" ++ Py.format_05d trigger_number
     ++ ".jpg")%string.

Definition capture_filepath (s : controller) (trigger_number : Z)
  (w : attempt) : string :=
  Py.os_path_join (photo_directory s) (capture_filename trigger_number w).

(** Lines 185-190: the command line, run under [self.capture_timeout]. *)
Definition run_gphoto2 (s : controller) (trigger_number : Z) (w : attempt)
  : run_result :=
  subprocess_run w
    ["gphoto2"; "--capture-image-and-download";
     "--filename"; capture_filepath s trigger_number w; "--force-overwrite"]
    (capture_timeout s).

(** The [try] block (lines 176-217).  The third component is the exception
    that leaves the block, if any. *)
Definition capture_try (s : controller) (trigger_number : Z) (start_time : Q)
  (w : attempt) : controller * list effect * option exception :=
  let filename := capture_filename trigger_number w in
  let filepath := capture_filepath s trigger_number w in
  let announced := [Log INFO (EjecutandoCaptura trigger_number filename)] in
  match run_gphoto2 s trigger_number w with
  | Raises e => (s, announced, Some e)
  | Completed returncode stderr =>
      let capture_time := (end_clock w - start_time)%Q in
      if returncode =? 0 then
        let s := set_capture_count (capture_count s + 1) s in
        let s := incr_successful_captures s in
        let file_size :=
          match os_path_getsize w filepath with
          | Some bytes => Some (inject_Z bytes / 1024 / 1024)%Q
          | None => None
          end in
        (s,
         announced
           ++ [Log INFO (CapturaExitosa trigger_number filename file_size
                           capture_time)]
           ++ blink_status_led s 1 (1 # 10),
         None)
      else
        let s := incr_failed_captures s in
        (s,
         announced
           ++ [Log ERROR (CapturaFallo trigger_number capture_time);
               Log ERROR (ErrorGphoto2 stderr)]
           ++ blink_status_led s 3 (1 # 10),
         None)
  end.

(** The two [except] clauses (lines 219-227). *)
Definition capture_except (s : controller) (trigger_number : Z)
  (e : exception) : controller * list effect :=
  match e with
  | TimeoutExpired =>
      let s := incr_failed_captures s in
      (s, [Log ERROR (CapturaTimeout trigger_number (capture_timeout s))]
          ++ blink_status_led s 5 (1 # 10))
  | OtherException msg =>
      let s := incr_failed_captures s in
      (s, [Log ERROR (ErrorInesperado trigger_number msg)]
          ++ blink_status_led s 3 (1 # 10))
  end.

(** The [finally] clause (lines 229-231). *)
Definition capture_finally (s : controller) : controller * list effect :=
  let s := set_is_capturing false s in
  (s, set_status_led s false).

(** Lines 176-231: everything after the first two statements. *)
Definition execute_capture_rest (s : controller) (trigger_number : Z)
  (start_time : Q) (w : attempt) : controller * list effect :=
  let '(s, tried, raised) := capture_try s trigger_number start_time w in
  let '(s, handled) :=
    match raised with
    | Some e => capture_except s trigger_number e
    | None => (s, [])
    end in
  let '(s, cleaned) := capture_finally s in
  (s, tried ++ handled ++ cleaned).

(** [execute_capture] (lines 171-231). *)
Definition execute_capture (s : controller) (trigger_number : Z) (clock : Q)
  (w : attempt) : controller * list effect :=
  let '(s, start_time) := execute_capture_enter s clock in
  execute_capture_rest s trigger_number start_time w.

(** How an attempt ended, as its closing log record tells: "EXITOSA",
    "FALLO", "TIMEOUT" or "Error inesperado". *)
Inductive outcome : Type :=
| Success
| ProcessFailure
| Timeout
| UnexpectedError.

Definition outcome_of (e : effect) : option outcome :=
  match e with
  | Log _ (CapturaExitosa _ _ _ _) => Some Success
  | Log _ (CapturaFallo _ _) => Some ProcessFailure
  | Log _ (CapturaTimeout _ _) => Some Timeout
  | Log _ (ErrorInesperado _ _) => Some UnexpectedError
  | _ => None
  end.

Fixpoint outcomes (es : list effect) : list outcome :=
  match es with
  | [] => []
  | e :: rest =>
      match outcome_of e with
      | Some o => o :: outcomes rest
      | None => outcomes rest
      end
  end.


(** ** Statistics *)

(** The right-hand side of line 257, as a function of the two counters:
    an [int] division, which gives a [float], then a [float]
    multiplication. *)
Definition success_rate_of (successful total : Z) : Q :=
  Py.float_mul (Py.int_truediv successful (Z.max total 1)) 100.

(** The value bound to [success_rate] on line 257. *)
Definition success_rate (s : controller) : Q :=
  success_rate_of (successful_captures (stats s)) (total_triggers (stats s)).

(** The same two operations in the Standard Library's model of IEEE 754
    arithmetic ([SpecFloat], at precision 53 and largest exponent 1024),
    to compare [success_rate_of] with. *)
Definition spec_float_of_int (n : Z) : SpecFloat.spec_float :=
  SpecFloat.binary_normalize 53 1024 n 0 false.

Definition success_rate_spec_float (successful total : Z)
  : SpecFloat.spec_float :=
  SpecFloat.SFmul 53 1024
    (SpecFloat.SFdiv 53 1024 (spec_float_of_int successful)
                     (spec_float_of_int (Z.max total 1)))
    (spec_float_of_int 100).

(** The rational a finite [spec_float] stands for. *)
Definition Q_of_spec_float (f : SpecFloat.spec_float) : option Q :=
  match f with
  | SpecFloat.S754_zero _ => Some 0%Q
  | SpecFloat.S754_finite s m e =>
      Some ((if s then -1 else 1) * inject_Z (Z.pos m) * Py.pow2 e)%Q
  | _ => None
  end.

(** The pairs of counters with 0 <= successful <= total <= [n]. *)
Definition counter_pairs (n : nat) : list (Z * Z) :=
  flat_map
    (fun t => map (fun s => (Z.of_nat s, Z.of_nat t)) (seq 0 (S t)))
    (seq 0 (S n)).

(** [self.stats] as the dictionary it is. *)
Definition stats_items (st : stats_t) : Py.dict :=
  [("total_triggers", Py.Int (total_triggers st));
   ("successful_captures", Py.Int (successful_captures st));
   ("failed_captures", Py.Int (failed_captures st));
   ("session_start", Py.Str (session_start st))].

(** [get_statistics] (lines 254-264); [now] is [datetime.now()]. *)
Definition get_statistics (s : controller) (now : Py.datetime) : Py.dict :=
  let uptime := Py.total_seconds now (session_start_time s) in
  Py.update (stats_items (stats s))
    [("uptime_seconds", Py.Float uptime);
     ("success_rate_percent", Py.Float (success_rate s));
     ("current_status",
      Py.Str (if is_capturing s then "capturing" else "ready"))].

(** ** The statistics file

    [json.dump(stats, f, indent=2)] as the text it writes, character by
    character: the encoder of the [json] module with its defaults
    ([ensure_ascii], no sorting), on a dictionary of [int], [float] and
    [str] values. *)

(** The double quote and the line feed. *)
Definition quote : ascii := "034"%char.
Definition newline : ascii := "010"%char.

Definition hex_digit (n : nat) : ascii :=
  match String.get n "0123456789abcdef" with
  | Some c => c
  | None => "0"%char
  end.

(** One character of a string, escaped: the short escapes, printable ASCII
    as it is, anything else as a [\u] escape. *)
Definition escape_char (c : ascii) : string :=
  let n := nat_of_ascii c in
  if (n =? 34)%nat then String "\" (String quote EmptyString)
  else if (n =? 92)%nat then "\\"
  else if (n =? 10)%nat then "\n"
  else if (n =? 13)%nat then "\r"
  else if (n =? 9)%nat then "\t"
  else if (n =? 12)%nat then "\f"
  else if (n =? 8)%nat then "\b"
  else if ((32 <=? n) && (n <=? 126))%nat then String c EmptyString
  else
    String "\" (String "u" (String "0" (String "0"
      (String (hex_digit (n / 16))
         (String (hex_digit (n mod 16)) EmptyString))))).

Fixpoint escape (s : string) : string :=
  match s with
  | EmptyString => EmptyString
  | String c rest => (escape_char c ++ escape rest)%string
  end.

Definition encode_string (s : string) : string :=
  String quote (escape s ++ String quote EmptyString)%string.

(** *** [float.__repr__] *)

Definition pow10 (e : Z) : Q := (10 ^ e)%Q.

(** The decimal digits of a positive integer. *)
Definition digits_of (d : Z) : string :=
  NilEmpty.string_of_uint (Pos.to_uint (Z.to_pos d)).

(** The [k] with 10^(k-1) <= a < 10^k, for [a] > 0: about 0.30103 times
    the binary exponent, then put right by comparison. *)
Definition decimal_exponent (a : Q) : Z :=
  let k := Py.ilog2 a * 30103 / 100000 in
  if Qle_bool (pow10 (k + 1)) a then k + 2
  else if Qle_bool (pow10 k) a then k + 1
  else k.

(** Does the decimal d * 10^e read back as the double [a]? *)
Definition reads_back (a : Q) (d e : Z) : bool :=
  Qeq_bool (Py.binary64 (inject_Z d * pow10 e)) a.

(** The shortest decimal that reads back as [a], the nearest to [a] first:
    [n], [n+1], ... significant digits are tried in turn.  Seventeen
    always do; the search is given room for the whole decimal expansion of
    a double, with which it certainly ends. *)
Fixpoint shortest (a : Q) (fuel : nat) (n : Z) : Z * Z :=
  let e := decimal_exponent a - n in
  let x := (a / pow10 e)%Q in
  let near := Py.round_half_even x in
  match fuel with
  | O => (near, e)
  | S fuel' =>
      if reads_back a near e then (near, e)
      else if reads_back a (Qfloor x) e then (Qfloor x, e)
      else if reads_back a (Qfloor x + 1) e then (Qfloor x + 1, e)
      else shortest a fuel' (n + 1)
  end.

(** d * 10^e without the zeros at the end of [d]. *)
Fixpoint strip_zeros (fuel : nat) (d e : Z) : Z * Z :=
  match fuel with
  | O => (d, e)
  | S fuel' =>
      if d mod 10 =? 0 then strip_zeros fuel' (d / 10) (e + 1) else (d, e)
  end.

(** [s[:n]] and [s[n:]]. *)
Fixpoint take (n : nat) (s : string) : string :=
  match n, s with
  | S n', String c rest => String c (take n' rest)
  | _, _ => EmptyString
  end.

Fixpoint drop (n : nat) (s : string) : string :=
  match n, s with
  | S n', String _ rest => drop n' rest
  | _, _ => s
  end.

(** The exponent of the [e] notation: a sign and at least two digits. *)
Definition exponent_repr (e : Z) : string :=
  ((if (e <? 0)%Z then "-" else "+")
   ++ (if (Z.abs e <? 10)%Z then "0" else EmptyString)
   ++ Py.str (Z.abs e))%string.

(** The digits [ds] with the decimal point after the first [decpt] of them:
    positional from 0.0001 up to 16 digits before the point, else in [e]
    notation. *)
Definition place_point (ds : string) (decpt : Z) : string :=
  let n := Z.of_nat (String.length ds) in
  if (-4 <? decpt) && (decpt <=? 16) then
    if decpt <=? 0 then ("0." ++ Py.zeros (Z.to_nat (- decpt)) ++ ds)%string
    else if decpt <? n then
      (take (Z.to_nat decpt) ds ++ "." ++ drop (Z.to_nat decpt) ds)%string
    else (ds ++ Py.zeros (Z.to_nat (decpt - n)) ++ ".0")%string
  else
    let mantissa :=
      match ds with
      | String c (String c' rest) => String c (String "." (String c' rest))
      | _ => ds
      end in
    (mantissa ++ "e" ++ exponent_repr (decpt - 1))%string.

(** [float.__repr__]: the shortest decimal that reads back as the same
    double.  A rational of the model is written as the double nearest to
    it. *)
Definition float_repr (x : Q) : string :=
  let y := Py.binary64 x in
  if Qeq_bool y 0 then "0.0"
  else
    let '(d, e) := shortest (Qabs y) 1400 1 in
    let '(d, e) := strip_zeros 17 d e in
    let ds := digits_of d in
    let body := place_point ds (Z.of_nat (String.length ds) + e) in
    if Qle_bool 0 y then body else String "-" body.

Definition encode_value (v : Py.value) : string :=
  match v with
  | Py.Int n => Py.str n
  | Py.Float x => float_repr x
  | Py.Str s => encode_string s
  end.

(** A member: the key, a colon and a space, the value. *)
Definition encode_item (kv : string * Py.value) : string :=
  (encode_string (fst kv) ++ ": " ++ encode_value (snd kv))%string.

(** The members, each on a line of its own behind two spaces. *)
Fixpoint encode_items (items : list (string * Py.value)) : string :=
  match items with
  | [] => EmptyString
  | [kv] => encode_item kv
  | kv :: rest =>
      (encode_item kv ++ String "," (String newline "  ")
       ++ encode_items rest)%string
  end.

(** [json.dump(d, f, indent=2)]. *)
Definition json_dump (d : Py.dict) : string :=
  match d with
  | [] => "{}"
  | _ =>
      (String "{" (String newline "  ") ++ encode_items d
       ++ String newline "}")%string
  end.

(** [save_statistics] (lines 266-273).  [io_error] is the exception raised
    inside the [try] block, if any ([None] when the file opens and is
    written).  The result is the file left behind, as its path and its
    text. *)
Definition save_statistics (s : controller) (now : Py.datetime)
  (io_error : option string) : option (string * string) * list effect :=
  let stats_file := Py.os_path_join (photo_directory s) "session_stats.json" in
  match io_error with
  | None => (Some (stats_file, json_dump (get_statistics s now)), [])
  | Some e => (None, [Log ERROR (ErrorGuardando e)])
  end.

(** ** Reading the statistics file back *)

(** Modelled from the spec: the repository never reads [session_stats.json]
    back, so the reader is missing.  Reloading is [json.load], here on a
    text that holds one object of strings and numbers; this is the white
    space it skips. *)
Fixpoint skip_ws (s : string) : string :=
  match s with
  | String c rest =>
      let n := nat_of_ascii c in
      if ((n =? 32) || (n =? 9) || (n =? 10) || (n =? 13))%nat
      then skip_ws rest else s
  | EmptyString => s
  end.

(** Modelled from the spec: the missing reader, a hexadecimal digit of a
    [\u] escape. *)
Definition hex_value (c : ascii) : option nat :=
  let n := nat_of_ascii c in
  if ((48 <=? n) && (n <=? 57))%nat then Some (n - 48)%nat
  else if ((97 <=? n) && (n <=? 102))%nat then Some (n - 87)%nat
  else if ((65 <=? n) && (n <=? 70))%nat then Some (n - 55)%nat
  else None.

(** Modelled from the spec: the missing reader, the character a short
    escape stands for. *)
Definition unescape (c : ascii) : option ascii :=
  let n := nat_of_ascii c in
  if (n =? 34)%nat then Some quote
  else if (n =? 92)%nat then Some "\"%char
  else if (n =? 47)%nat then Some "/"%char
  else if (n =? 98)%nat then Some "008"%char
  else if (n =? 102)%nat then Some "012"%char
  else if (n =? 110)%nat then Some "010"%char
  else if (n =? 114)%nat then Some "013"%char
  else if (n =? 116)%nat then Some "009"%char
  else None.

(** Modelled from the spec: the missing reader, one more character in
    front of the string read. *)
Definition prepend (c : ascii) (r : option (string * string))
  : option (string * string) :=
  match r with
  | Some (s, rest) => Some (String c s, rest)
  | None => None
  end.

(** Modelled from the spec: the missing reader, a string after its opening
    quote: the characters up to the closing quote, escapes undone, and
    what follows.  Control characters must be escaped; a [\u] escape above
    255 has no character in the model. *)
Fixpoint read_string_body (s : string) : option (string * string) :=
  match s with
  | EmptyString => None
  | String c r =>
      if (nat_of_ascii c =? 34)%nat then Some (EmptyString, r)
      else if (nat_of_ascii c =? 92)%nat then
        match r with
        | String e r' =>
            if (nat_of_ascii e =? 117)%nat then
              match r' with
              | String h1 (String h2 (String h3 (String h4 r''))) =>
                  match hex_value h1, hex_value h2,
                        hex_value h3, hex_value h4 with
                  | Some 0%nat, Some 0%nat, Some a, Some b =>
                      prepend (ascii_of_nat (16 * a + b))
                              (read_string_body r'')
                  | _, _, _, _ => None
                  end
              | _ => None
              end
            else
              match unescape e with
              | Some c' => prepend c' (read_string_body r')
              | None => None
              end
        | EmptyString => None
        end
      else if (nat_of_ascii c <? 32)%nat then None
      else prepend c (read_string_body r)
  end.

(** Modelled from the spec: the missing reader, the digits 0 to 9. *)
Definition is_digit (c : ascii) : bool :=
  ((48 <=? nat_of_ascii c) && (nat_of_ascii c <=? 57))%nat.

(** Modelled from the spec: the missing reader, the digits at the head of
    [s], and the rest. *)
Fixpoint span_digits (s : string) : string * string :=
  match s with
  | String c rest =>
      if is_digit c then
        let '(ds, rest') := span_digits rest in (String c ds, rest')
      else (EmptyString, s)
  | EmptyString => (EmptyString, EmptyString)
  end.

(** Modelled from the spec: the missing reader, the parts of a number: an
    optional minus sign; 0, or digits that do not start with 0; an
    optional point and digits; an optional e or E, sign and digits. *)
Record number : Type := {
  negative : bool;
  int_part : string;
  frac_part : option string;
  exp_part : option (bool * string)
}.

(** Modelled from the spec: the missing reader, the fraction of a number,
    if there is one. *)
Definition read_frac (s : string) : option string * string :=
  match s with
  | String c rest =>
      if (nat_of_ascii c =? 46)%nat then
        match span_digits rest with
        | (EmptyString, _) => (None, s)
        | (ds, rest') => (Some ds, rest')
        end
      else (None, s)
  | EmptyString => (None, s)
  end.

(** Modelled from the spec: the missing reader, the exponent of a number,
    if there is one; [true] is for a minus sign. *)
Definition read_exp (s : string) : option (bool * string) * string :=
  match s with
  | String c rest =>
      if ((nat_of_ascii c =? 101) || (nat_of_ascii c =? 69))%nat then
        let '(minus, rest1) :=
          match rest with
          | String sg rest1 =>
              if (nat_of_ascii sg =? 45)%nat then (true, rest1)
              else if (nat_of_ascii sg =? 43)%nat then (false, rest1)
              else (false, rest)
          | EmptyString => (false, rest)
          end in
        match span_digits rest1 with
        | (EmptyString, _) => (None, s)
        | (ds, rest') => (Some (minus, ds), rest')
        end
      else (None, s)
  | EmptyString => (None, s)
  end.

(** Modelled from the spec: the missing reader, the longest number at the
    head of [s], its sign already read. *)
Definition lex_unsigned (neg : bool) (s : string) : option (number * string) :=
  match s with
  | String c rest =>
      if is_digit c then
        let '(int, rest1) :=
          if (nat_of_ascii c =? 48)%nat then (String c EmptyString, rest)
          else span_digits s in
        let '(frac, rest2) := read_frac rest1 in
        let '(exp, rest3) := read_exp rest2 in
        Some ({| negative := neg; int_part := int;
                 frac_part := frac; exp_part := exp |}, rest3)
      else None
  | EmptyString => None
  end.

(** Modelled from the spec: the missing reader, the longest number at the
    head of [s]. *)
Definition lex_number (s : string) : option (number * string) :=
  match s with
  | String c rest =>
      if (nat_of_ascii c =? 45)%nat then lex_unsigned true rest
      else lex_unsigned false s
  | EmptyString => None
  end.

(** Modelled from the spec: the missing reader, [int(ds)] for a string of
    digits [ds], read from the left; [acc] is the value so far. *)
Fixpoint horner (acc : Z) (ds : string) : Z :=
  match ds with
  | EmptyString => acc
  | String c rest =>
      horner (10 * acc + (Z.of_nat (nat_of_ascii c) - 48)) rest
  end.

(** Modelled from the spec: the missing reader, [int(ds)]. *)
Definition digits_value (ds : string) : Z := horner 0 ds.

(** Modelled from the spec: the missing reader, the digits of a number as
    one integer. *)
Definition number_digits (n : number) : Z :=
  digits_value
    (int_part n
     ++ match frac_part n with Some f => f | None => EmptyString end).

(** Modelled from the spec: the missing reader, the power of ten that goes
    with [number_digits]: the exponent written, less the length of the
    fraction. *)
Definition number_exponent (n : number) : Z :=
  match exp_part n with
  | Some (minus, ds) => if minus then - digits_value ds else digits_value ds
  | None => 0
  end
  - Z.of_nat (String.length
                (match frac_part n with Some f => f | None => EmptyString end)).

(** Modelled from the spec: the missing reader, the decimal a number with a
    fraction or an exponent denotes. *)
Definition number_decimal (n : number) : Q :=
  (inject_Z ((if negative n then -1 else 1) * number_digits n)
   * pow10 (number_exponent n))%Q.

(** Modelled from the spec: the missing reader, the value of a number: an
    [int] when it has neither fraction nor exponent, else the double
    nearest to the decimal, as [float()] gives. *)
Definition number_value (n : number) : Py.value :=
  match frac_part n, exp_part n with
  | None, None =>
      Py.Int ((if negative n then -1 else 1) * digits_value (int_part n))
  | _, _ => Py.Float (Py.binary64 (number_decimal n))
  end.

(** Modelled from the spec: the missing reader, a member's value: a string
    or a number. *)
Definition read_value (s : string) : option (Py.value * string) :=
  match s with
  | String c rest =>
      if (nat_of_ascii c =? 34)%nat then
        match read_string_body rest with
        | Some (v, rest') => Some (Py.Str v, rest')
        | None => None
        end
      else
        match lex_number s with
        | Some (n, rest') => Some (number_value n, rest')
        | None => None
        end
  | EmptyString => None
  end.

(** Modelled from the spec: the missing reader, the members of an object
    from the opening quote of a key to the closing brace; a repeated key
    keeps its last value. *)
Fixpoint read_members (fuel : nat) (s : string) (d : Py.dict)
  : option (Py.dict * string) :=
  match fuel, s with
  | S fuel', String c r =>
      if (nat_of_ascii c =? 34)%nat then
        match read_string_body r with
        | Some (k, r1) =>
            match skip_ws r1 with
            | String colon r2 =>
                if (nat_of_ascii colon =? 58)%nat then
                  match read_value (skip_ws r2) with
                  | Some (v, r3) =>
                      match skip_ws r3 with
                      | String sep r4 =>
                          if (nat_of_ascii sep =? 125)%nat
                          then Some (Py.set d k v, r4)
                          else if (nat_of_ascii sep =? 44)%nat
                          then read_members fuel' (skip_ws r4) (Py.set d k v)
                          else None
                      | EmptyString => None
                      end
                  | None => None
                  end
                else None
            | EmptyString => None
            end
        | None => None
        end
      else None
  | _, _ => None
  end.

(** Modelled from the spec: the missing reader, [json.load] on the text of
    a file that holds one object of strings and numbers. *)
Definition json_load (text : string) : option Py.dict :=
  match skip_ws text with
  | String c r =>
      if (nat_of_ascii c =? 123)%nat then
        match skip_ws r with
        | String c' r' =>
            let members :=
              if (nat_of_ascii c' =? 125)%nat then Some ([], r')
              else read_members (String.length text) (String c' r') [] in
            match members with
            | Some (d, rest) =>
                match skip_ws rest with
                | EmptyString => Some d
                | _ => None
                end
            | None => None
            end
        | EmptyString => None
        end
      else None
  | EmptyString => None
  end.

(** In the spec's words: success_rate = successful_captures /
    max(total_triggers, 1). *)
Definition spec_success_rate (successful total : Z) : Q :=
  (inject_Z successful / inject_Z (Z.max total 1))%Q.

(** Modelled from the spec: the missing reader, the counters total_triggers,
    successful_captures and failed_captures of the reloaded snapshot. *)
Definition reload_counters (text : string) : option (Z * Z * Z) :=
  match json_load text with
  | Some d =>
      match Py.get d "total_triggers",
            Py.get d "successful_captures",
            Py.get d "failed_captures" with
      | Some (Py.Int t), Some (Py.Int ok), Some (Py.Int ko) => Some (t, ok, ko)
      | _, _, _ => None
      end
  | None => None
  end.

(** Modelled from the spec: the missing reader, the success_rate_percent of
    the reloaded snapshot. *)
Definition reload_rate (text : string) : option Q :=
  match json_load text with
  | Some d =>
      match Py.get d "success_rate_percent" with
      | Some (Py.Float r) => Some r
      | _ => None
      end
  | None => None
  end.

(** *** What the proofs say of a text *)

Fixpoint all_digits (s : string) : bool :=
  match s with
  | EmptyString => true
  | String c rest => is_digit c && all_digits rest
  end.

(** What follows a member's value in the file: a comma, or the line break
    before the closing brace. *)
Inductive separated : string -> Prop :=
| separated_comma (rest : string) : separated (String "," rest)
| separated_newline (rest : string) : separated (String newline rest).

(** An integer part as the grammar has it: 0, or digits the first of which
    is not 0. *)
Definition valid_int (i : string) : Prop :=
  i = "0"
  \/ exists c rest,
       i = String c rest /\ is_digit c = true
       /\ (nat_of_ascii c =? 48)%nat = false /\ all_digits rest = true.

(** A value and what it is read back as: itself, or for a [float] a
    [float]: the double nearest to it, when it is not negative and in the
    range of doubles. *)
Definition reads_as (v v' : Py.value) : Prop :=
  match v with
  | Py.Float x =>
      exists y,
        v' = Py.Float y
        /\ ((0 <= x)%Q -> (Py.binary64 x < Py.pow2 1024)%Q ->
            (y == Py.binary64 x)%Q)
  | _ => v' = v
  end.

Definition item_reads_as (kv kv' : string * Py.value) : Prop :=
  fst kv' = fst kv /\ reads_as (snd kv) (snd kv').

(** ** Threads *)

(** A capture thread started on line 169.  [started_at] is [None] until it
    has run lines 173-174, then the [start_time] it read. *)
Record worker : Type := {
  trigger_number : Z;
  started_at : option Q
}.

(** The controller, the capture threads that have not ended, and the
    effects issued so far. *)
Record system : Type := {
  ctl : controller;
  workers : list worker;
  emitted : list effect
}.

(** What can happen next: the callback runs for an edge, a started thread
    runs its first two statements, or a thread that has done so runs the
    rest of [execute_capture] and ends.  The rest writes no attribute until
    gphoto2 has returned, so it is placed at the moment it completes. *)
Inductive event : Type :=
| Edge (clock : Q) (channel : Z)
| Enter (i : nat) (clock : Q)
| Leave (i : nat) (w : attempt).

Fixpoint threads_started (es : list effect) : list worker :=
  match es with
  | [] => []
  | StartCapture n :: rest =>
      {| trigger_number := n; started_at := None |} :: threads_started rest
  | _ :: rest => threads_started rest
  end.

Fixpoint replace_nth {A : Type} (i : nat) (x : A) (l : list A) : list A :=
  match l, i with
  | [], _ => []
  | _ :: rest, O => x :: rest
  | y :: rest, S i' => y :: replace_nth i' x rest
  end.

Fixpoint remove_nth {A : Type} (i : nat) (l : list A) : list A :=
  match l, i with
  | [], _ => []
  | _ :: rest, O => rest
  | y :: rest, S i' => y :: remove_nth i' rest
  end.

(** One event; [None] when thread [i] is not there or not at that point. *)
Definition step (y : system) (e : event) : option system :=
  match e with
  | Edge clock channel =>
      let '(c, es) := pixhawk_trigger_callback (ctl y) clock channel in
      Some {| ctl := c;
              workers := workers y ++ threads_started es;
              emitted := emitted y ++ es |}
  | Enter i clock =>
      match nth_error (workers y) i with
      | Some {| trigger_number := n; started_at := None |} =>
          let '(c, start_time) := execute_capture_enter (ctl y) clock in
          Some {| ctl := c;
                  workers :=
                    replace_nth i {| trigger_number := n;
                                     started_at := Some start_time |}
                                (workers y);
                  emitted := emitted y |}
      | _ => None
      end
  | Leave i w =>
      match nth_error (workers y) i with
      | Some {| trigger_number := n; started_at := Some start_time |} =>
          let '(c, es) := execute_capture_rest (ctl y) n start_time w in
          Some {| ctl := c;
                  workers := remove_nth i (workers y);
                  emitted := emitted y ++ es |}
      | _ => None
      end
  end.

Fixpoint run (y : system) (evs : list event) : option system :=
  match evs with
  | [] => Some y
  | e :: rest =>
      match step y e with
      | Some y' => run y' rest
      | None => None
      end
  end.

(** The system right after construction: no capture thread yet; [emitted]
    collects what the callback and the capture threads do from then on. *)
Definition boot (trigger_pin : Z) (status_led_pin : option Z)
  (now : Py.datetime) : system :=
  {| ctl := init trigger_pin status_led_pin now;
     workers := [];
     emitted := [] |}.

(** The states some sequence of events leads to.  The other methods
    ([get_statistics], [save_statistics], [print_status]) write no
    attribute. *)
Inductive reachable (y0 : system) : system -> Prop :=
| reachable_refl : reachable y0 y0
| reachable_step (y y' : system) (e : event) :
    reachable y0 y -> step y e = Some y' -> reachable y0 y'.

(** The attempts in flight: threads inside [execute_capture], past its
    first two statements. *)
Definition in_flight (y : system) : list worker :=
  filter (fun k => match started_at k with Some _ => true | None => false end)
         (workers y).

Definition is_worker_event (e : event) : bool :=
  match e with
  | Edge _ _ => false
  | Enter _ _ | Leave _ _ => true
  end.

(** The trigger numbers the callback logged, accepted or ignored. *)
Fixpoint triggers_logged (es : list effect) : list Z :=
  match es with
  | [] => []
  | Log _ (TriggerDetectado n _) :: rest => n :: triggers_logged rest
  | Log _ (TriggerIgnorado n) :: rest => n :: triggers_logged rest
  | _ :: rest => triggers_logged rest
  end.

(** ** Invariants *)

(** The counters never run ahead of the triggers: every thread that has
    not ended and every counted outcome has its own trigger. *)
Definition counters_ok (y : system) : Prop :=
  0 <= successful_captures (stats (ctl y))
  /\ 0 <= failed_captures (stats (ctl y))
  /\ successful_captures (stats (ctl y)) + failed_captures (stats (ctl y))
       + Z.of_nat (length (workers y))
     <= total_triggers (stats (ctl y)).

Definition counts_agree (y : system) : Prop :=
  capture_count (ctl y) = successful_captures (stats (ctl y)).

(** What the debounce test reads and writes, and the triggers logged. *)
Definition debounce_view (y : system) : Q * Z * Q * list Z :=
  (last_trigger_time (ctl y), total_triggers (stats (ctl y)),
   debounce_time (ctl y), triggers_logged (emitted y)).

(** ** Schedules in which a started thread runs at once *)

(** The callback for an edge and, when it started a thread, that thread's
    first two statements before anything else happens. *)
Definition prompt_edge (y : system) (clock : Q) (channel : Z)
  (enter_clock : Q) : option system :=
  match step y (Edge clock channel) with
  | Some y1 =>
      match step y1 (Enter (length (workers y)) enter_clock) with
      | Some y2 => Some y2
      | None => Some y1
      end
  | None => None
  end.

Inductive prompt_reachable (y0 : system) : system -> Prop :=
| prompt_refl : prompt_reachable y0 y0
| prompt_after_edge (y y' : system) (clock : Q) (channel : Z)
    (enter_clock : Q) :
    prompt_reachable y0 y ->
    prompt_edge y clock channel enter_clock = Some y' ->
    prompt_reachable y0 y'
| prompt_after_leave (y y' : system) (i : nat) (w : attempt) :
    prompt_reachable y0 y ->
    step y (Leave i w) = Some y' ->
    prompt_reachable y0 y'.

(** The latch is up exactly while one attempt is in flight, and there is
    never a second thread. *)
Definition single_flight (y : system) : Prop :=
  (workers y = [] /\ is_capturing (ctl y) = false)
  \/ (exists n t,
        workers y = [{| trigger_number := n; started_at := Some t |}]
        /\ is_capturing (ctl y) = true).

(** ** Sample inputs *)

Definition session_now : Py.datetime :=
  {| Py.posix := 1700000000%Q; Py.isoformat := "2023-11-14T22:13:20" |}.

(** gphoto2 exits with status 0 after two seconds; the file cannot be
    stat-ed. *)
Definition camera_ok : attempt :=
  {| strftime := "20231114_221321";
     subprocess_run := fun _ _ => Completed 0 EmptyString;
     end_clock := 1700000003%Q;
     os_path_getsize := fun _ => None |}.

(** gphoto2 does not return within the timeout. *)
Definition camera_hung : attempt :=
  {| strftime := "20231114_221321";
     subprocess_run := fun _ _ => Raises TimeoutExpired;
     end_clock := 1700000031%Q;
     os_path_getsize := fun _ => None |}.

Definition fresh : controller := init 18 (Some 24) session_now.

(** A controller in the middle of a capture, last triggered at
    1700000001. *)
Definition capturing : controller :=
  fst (execute_capture_enter
         (fst (pixhawk_trigger_callback fresh 1700000001 18)) 1700000001).

(** One trigger, captured successfully. *)
Definition one_success : list event :=
  [Edge 1700000001 18; Enter 0 1700000001; Leave 0 camera_ok].

(** Two edges 200 ms apart, both before the first thread has run its first
    statement; then both threads run it. *)
Definition late_start : list event :=
  [Edge 1700000001 18; Edge (8500000006 # 5) 18;
   Enter 0 (8500000007 # 5); Enter 1 (8500000007 # 5)].

(** Twenty-five triggers one second apart, each captured before the next:
    the first seven succeed, the other eighteen time out. *)
Definition seven_of_25 : list event :=
  flat_map
    (fun i =>
       let t := (1700000001 + inject_Z (Z.of_nat i))%Q in
       [Edge t 18; Enter 0 t;
        Leave 0 (if (i <? 7)%nat then camera_ok else camera_hung)])
    (seq 0 25).

(** Sixty seconds and a half after [session_now]. *)
Definition session_later : Py.datetime :=
  {| Py.posix := 3400000121 # 2;
     Py.isoformat := "2023-11-14T22:14:20.500000" |}.

(** Lines of text joined by line breaks; an apostrophe in a line stands
    for a double quote. *)
Fixpoint requote (s : string) : string :=
  match s with
  | EmptyString => EmptyString
  | String c rest =>
      String (if Ascii.eqb c "'" then quote else c) (requote rest)
  end.

Fixpoint join_lines (lines : list string) : string :=
  match lines with
  | [] => EmptyString
  | [l] => requote l
  | l :: rest => (requote l ++ String newline (join_lines rest))%string
  end.

(** session_stats.json as CPython's [json.dump(..., indent=2)] prints it
    for 25 triggers, 7 captures and 18 failures, 60.5 s into the session. *)
Definition seven_of_25_stats_file : string :=
  join_lines
    ["{";
     "  'total_triggers': 25,";
     "  'successful_captures': 7,";
     "  'failed_captures': 18,";
     "  'session_start': '2023-11-14T22:13:20',";
     "  'uptime_seconds': 60.5,";
     "  'success_rate_percent': 28.000000000000004,";
     "  'current_status': 'ready'";
     "}"].

(** The same after one trigger and its capture, at the start of the
    session. *)
Definition one_success_stats_file : string :=
  join_lines
    ["{";
     "  'total_triggers': 1,";
     "  'successful_captures': 1,";
     "  'failed_captures': 0,";
     "  'session_start': '2023-11-14T22:13:20',";
     "  'uptime_seconds': 0.0,";
     "  'success_rate_percent': 100.0,";
     "  'current_status': 'ready'";
     "}"].

(** The controller after one trigger and its successful capture. *)
Definition after_one_success : controller :=
  fst (execute_capture (fst (pixhawk_trigger_callback fresh 1700000001 18))
         1 1700000001 camera_ok).

(** ** Set-up, the blink thread and the status block *)

(** The calls [setup_gpio] makes on [RPi.GPIO]. *)
Inductive gpio_call : Type :=
| Setmode_BCM
| Setwarnings_False
| Setup_IN_PUD_DOWN (channel : Z)
| Setup_OUT (channel : option Z)
| Output_LOW (channel : option Z)
| Add_event_detect_RISING (channel : Z) (bouncetime : Z).

(** The log records of [setup_gpio] and [test_camera_connection].  The
    [logger.debug] record of line 133 is below the configured level (line
    42) and is not emitted. *)
Inductive setup_record : Type :=
| GpioConfigurado (pin : Z)
| ErrorConfigurandoGpio (e : string)
| ProbandoConexion
| SequoiaDetectada
| CamaraNoDetectada
| TimeoutCamara
| ErrorProbandoCamara (e : string).

Inductive setup_effect : Type :=
| Call (c : gpio_call)
| Note (lvl : log_level) (r : setup_record)
| Issue (e : effect).

(** The GPIO calls of lines 93-110, in program order; the two calls for the
    LED are made only when [self.status_led_pin] is true. *)
Definition gpio_calls (s : controller) : list gpio_call :=
  [Setmode_BCM; Setwarnings_False; Setup_IN_PUD_DOWN (trigger_pin s)]
    ++ (if Py.truthy (status_led_pin s)
        then [Setup_OUT (status_led_pin s); Output_LOW (status_led_pin s)]
        else [])
    ++ [Add_event_detect_RISING (trigger_pin s) 100].

(** Makes the calls in order until one raises: the calls that returned,
    and the exception that ended the sequence, if any.  [raises c] is the
    exception call [c] raises ([None] when it returns). *)
Fixpoint perform (raises : gpio_call -> option string)
  (calls : list gpio_call) : list setup_effect * option string :=
  match calls with
  | [] => ([], None)
  | c :: rest =>
      match raises c with
      | Some e => ([], Some e)
      | None =>
          let '(done, raised) := perform raises rest in
          (Call c :: done, raised)
      end
  end.

(** [setup_gpio] (lines 90-116). *)
Definition setup_gpio (s : controller) (raises : gpio_call -> option string)
  : list setup_effect :=
  match perform raises (gpio_calls s) with
  | (done, None) =>
      done ++ [Note INFO (GpioConfigurado (trigger_pin s))]
        ++ map Issue (blink_status_led s 3 (2 # 10))
  | (done, Some e) => done ++ [Note ERROR (ErrorConfigurandoGpio e)]
  end.

(** [needle in hay] for two [str]. *)
Fixpoint contains (needle hay : string) : bool :=
  String.prefix needle hay
  || match hay with
     | EmptyString => false
     | String _ rest => contains needle rest
     end.

(** What [subprocess.run(['gphoto2', '--auto-detect'], ...)] does. *)
Inductive detect_result : Type :=
| Detect (returncode : Z) (stdout : string)
| DetectRaises (e : exception).

(** [test_camera_connection] (lines 118-141): its return value and what it
    does. *)
Definition test_camera_connection (s : controller) (r : detect_result)
  : bool * list setup_effect :=
  let probing := [Note INFO ProbandoConexion] in
  match r with
  | Detect _ stdout =>
      if contains "Parrot" stdout || contains "Sequoia" stdout then
        (true,
         probing ++ [Note INFO SequoiaDetectada]
           ++ map Issue (blink_status_led s 2 (5 # 10)))
      else (false, probing ++ [Note WARNING CamaraNoDetectada])
  | DetectRaises TimeoutExpired => (false, probing ++ [Note ERROR TimeoutCamara])
  | DetectRaises (OtherException e) =>
      (false, probing ++ [Note ERROR (ErrorProbandoCamara e)])
  end.







(** [x // y] and [x % y] on floats, for a positive [y], and [int(x)]. *)
Definition floordiv (x y : Q) : Q := inject_Z (Qfloor (x / y)).

Definition fmod (x y : Q) : Q := (x - y * inject_Z (Qfloor (x / y)))%Q.

Definition int_of_float (x : Q) : Z :=
  if Qle_bool 0 x then Qfloor x else Qceiling x.

(** The hours, minutes and seconds [print_status] prints (line 287). *)
Definition uptime_clock (uptime_seconds : Q) : Z * Z * Z :=
  (int_of_float (floordiv uptime_seconds 3600),
   int_of_float (floordiv (fmod uptime_seconds 3600) 60),
   int_of_float (fmod uptime_seconds 60)).

(** ** Counting what was logged *)

(** The "ignorado" warnings of the callback. *)
Fixpoint ignored (es : list effect) : nat :=
  match es with
  | [] => O
  | Log _ (TriggerIgnorado _) :: rest => S (ignored rest)
  | _ :: rest => ignored rest
  end.

Definition is_success (o : outcome) : bool :=
  match o with
  | Success => true
  | _ => false
  end.

Definition successes (es : list effect) : nat :=
  length (filter is_success (outcomes es)).

Definition failures (es : list effect) : nat :=
  length (filter (fun o => negb (is_success o)) (outcomes es)).

(** Reads a field of decimal digits, leading zeros allowed. *)
Definition read_digits (field : string) : option Z :=
  option_map Z.of_uint (NilEmpty.uint_of_string field).

(** The call that configures the LED pin raises. *)
Definition led_setup_fails (c : gpio_call) : option string :=
  match c with
  | Setup_OUT _ => Some "invalid channel"
  | _ => None
  end.

(** * Properties *)

(** ** Float comparison *)

Lemma Qltb_true (x y : Q) : (x < y)%Q -> Py.Qltb x y = true.
Proof.
  intros H. unfold Py.Qltb. destruct (Qle_bool y x) eqn:E; [|reflexivity].
  apply Qle_bool_iff in E. exfalso. apply (Qlt_not_le _ _ H E).
Qed.

Lemma Qltb_false (x y : Q) : ~ (x < y)%Q -> Py.Qltb x y = false.
Proof.
  intros H. unfold Py.Qltb.
  assert (L : (y <= x)%Q) by (apply Qnot_lt_le; exact H).
  apply Qle_bool_iff in L. now rewrite L.
Qed.

(** ** The callback, branch by branch *)

Section Callback.

Variables (s : controller) (clock : Q) (channel : Z).

Lemma callback_bounced :
  (clock - last_trigger_time s < debounce_time s)%Q ->
  pixhawk_trigger_callback s clock channel = (s, []).
Proof.
  intros H. unfold pixhawk_trigger_callback. now rewrite (Qltb_true _ _ H).
Qed.

Lemma callback_busy :
  ~ (clock - last_trigger_time s < debounce_time s)%Q ->
  is_capturing s = true ->
  pixhawk_trigger_callback s clock channel
  = (incr_total_triggers (set_last_trigger_time clock s),
     [Log WARNING (TriggerIgnorado (total_triggers (stats s) + 1))]).
Proof.
  intros H B. unfold pixhawk_trigger_callback.
  rewrite (Qltb_false _ _ H). cbn. now rewrite B.
Qed.

Lemma callback_dispatch :
  ~ (clock - last_trigger_time s < debounce_time s)%Q ->
  is_capturing s = false ->
  pixhawk_trigger_callback s clock channel
  = (incr_total_triggers (set_last_trigger_time clock s),
     [Log INFO (TriggerDetectado (total_triggers (stats s) + 1) channel)]
       ++ set_status_led s true
       ++ [StartCapture (total_triggers (stats s) + 1)]).
Proof.
  intros H B. unfold pixhawk_trigger_callback.
  rewrite (Qltb_false _ _ H). cbn. now rewrite B.
Qed.

Lemma callback_keeps_latch :
  is_capturing (fst (pixhawk_trigger_callback s clock channel))
  = is_capturing s.
Proof.
  unfold pixhawk_trigger_callback.
  destruct (Py.Qltb _ _); [reflexivity|].
  cbn. destruct (is_capturing s) eqn:B; cbn; exact B.
Qed.

End Callback.

(** ** The worker, branch by branch *)



Lemma outcomes_app (es fs : list effect) :
  outcomes (es ++ fs) = outcomes es ++ outcomes fs.
Proof.
  induction es as [|e es IH]; [reflexivity|].
  cbn. destruct (outcome_of e); cbn; now rewrite IH.
Qed.

Lemma outcomes_set_status_led (s : controller) (b : bool) :
  outcomes (set_status_led s b) = [].
Proof.
  unfold set_status_led. destruct (Py.truthy _); reflexivity.
Qed.

Lemma outcomes_blink (s : controller) (times : Z) (delay : Q) :
  outcomes (blink_status_led s times delay) = [].
Proof.
  unfold blink_status_led. destruct (negb _); reflexivity.
Qed.


(** Unfolds one attempt and splits on what the process, the exit status
    and the handlers do. *)
Ltac attempt_cases :=
  cbv beta iota zeta delta
    [execute_capture execute_capture_enter execute_capture_rest
     capture_try capture_except capture_finally];
  match goal with
  | |- context [run_gphoto2 ?s ?n ?w] =>
      let rc := fresh "rc" in
      let R := fresh "R" in
      let RC := fresh "RC" in
      destruct (run_gphoto2 s n w) as [rc ?|[|?]] eqn:R;
      [destruct (rc =? 0) eqn:RC| |]
  end;
  cbv beta iota zeta delta [fst snd].

Section Attempt.

Variables (s : controller) (n : Z) (start_time : Q) (w : attempt).


Lemma rest_releases_latch :
  is_capturing (fst (execute_capture_rest s n start_time w)) = false.
Proof. attempt_cases; reflexivity. Qed.

Lemma rest_frame :
  let s' := fst (execute_capture_rest s n start_time w) in
  last_trigger_time s' = last_trigger_time s
  /\ debounce_time s' = debounce_time s
  /\ total_triggers (stats s') = total_triggers (stats s)
  /\ status_led_pin s' = status_led_pin s.
Proof. attempt_cases; repeat split. Qed.

Lemma rest_counts_once :
  let s' := fst (execute_capture_rest s n start_time w) in
  (successful_captures (stats s') = successful_captures (stats s) + 1
   /\ failed_captures (stats s') = failed_captures (stats s)
   /\ capture_count s' = capture_count s + 1)
  \/
  (successful_captures (stats s') = successful_captures (stats s)
   /\ failed_captures (stats s') = failed_captures (stats s) + 1
   /\ capture_count s' = capture_count s).
Proof. attempt_cases; [left|right|right|right]; repeat split. Qed.

Lemma rest_logs_no_trigger :
  triggers_logged (snd (execute_capture_rest s n start_time w)) = [].
Proof.
  attempt_cases;
    unfold blink_status_led, set_status_led;
    destruct (Py.truthy (status_led_pin _)); reflexivity.
Qed.

End Attempt.

(** ** The callback and the threads together *)

Lemma callback_cases (s : controller) (clock : Q) (channel : Z) :
  ((clock - last_trigger_time s < debounce_time s)%Q
   /\ pixhawk_trigger_callback s clock channel = (s, []))
  \/
  (~ (clock - last_trigger_time s < debounce_time s)%Q
   /\ is_capturing s = true
   /\ pixhawk_trigger_callback s clock channel
      = (incr_total_triggers (set_last_trigger_time clock s),
         [Log WARNING (TriggerIgnorado (total_triggers (stats s) + 1))]))
  \/
  (~ (clock - last_trigger_time s < debounce_time s)%Q
   /\ is_capturing s = false
   /\ pixhawk_trigger_callback s clock channel
      = (incr_total_triggers (set_last_trigger_time clock s),
         [Log INFO (TriggerDetectado (total_triggers (stats s) + 1) channel)]
           ++ set_status_led s true
           ++ [StartCapture (total_triggers (stats s) + 1)])).
Proof.
  destruct (Qlt_le_dec (clock - last_trigger_time s) (debounce_time s))
    as [Near|Far].
  - left. split; [exact Near|]. now apply callback_bounced.
  - apply Qle_not_lt in Far. right.
    destruct (is_capturing s) eqn:B.
    + left. repeat split; trivial. now apply callback_busy.
    + right. repeat split; trivial. now apply callback_dispatch.
Qed.

Lemma threads_started_app (es fs : list effect) :
  threads_started (es ++ fs) = threads_started es ++ threads_started fs.
Proof.
  induction es as [|e es IH]; [reflexivity|].
  destruct e; cbn; now rewrite IH.
Qed.

Lemma threads_started_set_status_led (s : controller) (b : bool) :
  threads_started (set_status_led s b) = [].
Proof.
  unfold set_status_led. destruct (Py.truthy _); reflexivity.
Qed.

Lemma triggers_logged_app (es fs : list effect) :
  triggers_logged (es ++ fs) = triggers_logged es ++ triggers_logged fs.
Proof.
  induction es as [|e es IH]; [reflexivity|].
  destruct e as [lvl r| | |]; cbn; try apply IH.
  destruct r; cbn; now rewrite IH.
Qed.

Lemma triggers_logged_set_status_led (s : controller) (b : bool) :
  triggers_logged (set_status_led s b) = [].
Proof.
  unfold set_status_led. destruct (Py.truthy _); reflexivity.
Qed.

Lemma length_replace_nth {A : Type} (i : nat) (x : A) (l : list A) :
  length (replace_nth i x l) = length l.
Proof.
  revert i. induction l as [|y l IH]; intros [|i]; cbn; auto.
Qed.

Lemma length_remove_nth {A : Type} (i : nat) (x : A) (l : list A) :
  nth_error l i = Some x -> S (length (remove_nth i l)) = length l.
Proof.
  revert i. induction l as [|y l IH]; intros [|i]; cbn; try discriminate.
  - reflexivity.
  - intros H. now rewrite (IH _ H).
Qed.

Lemma run_app (y : system) (evs evs' : list event) :
  run y (evs ++ evs')
  = match run y evs with
    | Some y' => run y' evs'
    | None => None
    end.
Proof.
  revert y. induction evs as [|e evs IH]; intros y; [reflexivity|].
  cbn. destruct (step y e); [apply IH|reflexivity].
Qed.

Lemma reachable_run (y0 y1 y : system) (evs : list event) :
  reachable y0 y1 -> run y1 evs = Some y -> reachable y0 y.
Proof.
  revert y1. induction evs as [|e evs IH]; intros y1 R H; cbn in H.
  - now inversion H; subst.
  - destruct (step y1 e) as [y2|] eqn:S; [|discriminate].
    apply (IH y2); [|exact H]. now apply (reachable_step y0 y1 y2 e).
Qed.

Lemma step_counters_ok (y y' : system) (e : event) :
  step y e = Some y' -> counters_ok y -> counters_ok y'.
Proof.
  unfold counters_ok. destruct e as [clock channel|i clock|i w]; cbn.
  - destruct (callback_cases (ctl y) clock channel)
      as [[_ E]|[(_ & _ & E)|(_ & _ & E)]];
      rewrite E; intros H; inversion H; subst; clear H; cbn;
      rewrite ?threads_started_app, ?threads_started_set_status_led,
        ?length_app; cbn;
      rewrite ?app_nil_r; intros (? & ? & ?); repeat split; lia.
  - destruct (nth_error (workers y) i) as [[m [t|]]|] eqn:N; try discriminate.
    intros H; inversion H; subst; clear H; cbn.
    now rewrite length_replace_nth.
  - destruct (nth_error (workers y) i) as [[m [t|]]|] eqn:N; try discriminate.
    destruct (execute_capture_rest (ctl y) m t w) as [c es] eqn:X.
    intros H; inversion H; subst; clear H; cbn.
    pose proof (rest_counts_once (ctl y) m t w) as C.
    pose proof (rest_frame (ctl y) m t w) as (_ & _ & T & _).
    rewrite X in C, T. cbn in C, T.
    apply length_remove_nth in N. intros (? & ? & ?).
    destruct C as [(-> & -> & _)|(-> & -> & _)]; rewrite T; lia.
Qed.

Lemma step_counts_agree (y y' : system) (e : event) :
  step y e = Some y' -> counts_agree y -> counts_agree y'.
Proof.
  unfold counts_agree. destruct e as [clock channel|i clock|i w]; cbn.
  - destruct (callback_cases (ctl y) clock channel)
      as [[_ E]|[(_ & _ & E)|(_ & _ & E)]];
      rewrite E; intros H; inversion H; subst; clear H; cbn; trivial.
  - destruct (nth_error (workers y) i) as [[m [t|]]|] eqn:N; try discriminate.
    intros H; inversion H; subst; clear H; cbn. trivial.
  - destruct (nth_error (workers y) i) as [[m [t|]]|] eqn:N; try discriminate.
    destruct (execute_capture_rest (ctl y) m t w) as [c es] eqn:X.
    intros H; inversion H; subst; clear H; cbn.
    pose proof (rest_counts_once (ctl y) m t w) as C.
    rewrite X in C. cbn in C.
    destruct C as [(-> & _ & ->)|(-> & _ & ->)]; lia.
Qed.

Lemma reachable_invariant (P : system -> Prop) (y0 : system) :
  P y0 ->
  (forall y y' e, step y e = Some y' -> P y -> P y') ->
  forall y, reachable y0 y -> P y.
Proof.
  intros Base Step y R. induction R as [|y y' e _ IH S]; [exact Base|].
  exact (Step y y' e S IH).
Qed.

(** ** What the debounce test reads and writes *)

Lemma step_edge_view (y y' : system) (clock : Q) (channel : Z) :
  step y (Edge clock channel) = Some y' ->
  debounce_view y'
  = if Py.Qltb (clock - last_trigger_time (ctl y)) (debounce_time (ctl y))
    then debounce_view y
    else (clock, total_triggers (stats (ctl y)) + 1, debounce_time (ctl y),
          triggers_logged (emitted y) ++ [total_triggers (stats (ctl y)) + 1]).
Proof.
  unfold debounce_view. cbn.
  destruct (callback_cases (ctl y) clock channel)
    as [[Near E]|[(Far & _ & E)|(Far & _ & E)]];
    rewrite E; intros H; inversion H; subst; clear H; cbn.
  - rewrite (Qltb_true _ _ Near). now rewrite app_nil_r.
  - rewrite (Qltb_false _ _ Far). now rewrite triggers_logged_app.
  - rewrite (Qltb_false _ _ Far).
    rewrite triggers_logged_app. cbn [triggers_logged].
    now rewrite triggers_logged_app, triggers_logged_set_status_led.
Qed.

Lemma step_worker_view (y y' : system) (e : event) :
  is_worker_event e = true ->
  step y e = Some y' -> debounce_view y' = debounce_view y.
Proof.
  unfold debounce_view. destruct e as [clock channel|i clock|i w]; cbn;
    [discriminate| |]; intros _.
  - destruct (nth_error (workers y) i) as [[m [t|]]|]; try discriminate.
    intros H; inversion H; subst; clear H. reflexivity.
  - destruct (nth_error (workers y) i) as [[m [t|]]|]; try discriminate.
    destruct (execute_capture_rest (ctl y) m t w) as [c es] eqn:X.
    intros H; inversion H; subst; clear H; cbn.
    pose proof (rest_frame (ctl y) m t w) as (L & D & T & _).
    pose proof (rest_logs_no_trigger (ctl y) m t w) as G.
    rewrite X in L, D, T, G. cbn in L, D, T, G.
    now rewrite L, D, T, triggers_logged_app, G, app_nil_r.
Qed.

Lemma run_workers_view (evs : list event) (y y' : system) :
  forallb is_worker_event evs = true ->
  run y evs = Some y' -> debounce_view y' = debounce_view y.
Proof.
  revert y. induction evs as [|e evs IH]; intros y W H; cbn in *.
  - now inversion H.
  - apply andb_prop in W. destruct W as [We Wevs].
    destruct (step y e) as [y1|] eqn:S; [|discriminate].
    rewrite (IH y1 Wevs H). now apply (step_worker_view y y1 e).
Qed.

(** An edge, then any worker events, as seen by the debounce test. *)
Lemma run_edge_workers_view (y y' : system) (clock : Q) (channel : Z)
  (evs : list event) :
  forallb is_worker_event evs = true ->
  run y (Edge clock channel :: evs) = Some y' ->
  debounce_view y'
  = if Py.Qltb (clock - last_trigger_time (ctl y)) (debounce_time (ctl y))
    then debounce_view y
    else (clock, total_triggers (stats (ctl y)) + 1, debounce_time (ctl y),
          triggers_logged (emitted y) ++ [total_triggers (stats (ctl y)) + 1]).
Proof.
  intros W H. change (run y (Edge clock channel :: evs))
    with (match step y (Edge clock channel) with
          | Some y1 => run y1 evs
          | None => None
          end) in H.
  destruct (step y (Edge clock channel)) as [y1|] eqn:S; [|discriminate].
  rewrite (run_workers_view evs y1 y' W H).
  exact (step_edge_view y y1 clock channel S).
Qed.

(** ** Schedules in which a started thread runs at once *)

Lemma callback_threads (s : controller) (clock : Q) (channel : Z) :
  threads_started (snd (pixhawk_trigger_callback s clock channel)) = []
  \/ (is_capturing s = false
      /\ exists n,
           threads_started (snd (pixhawk_trigger_callback s clock channel))
           = [{| trigger_number := n; started_at := None |}]).
Proof.
  destruct (callback_cases s clock channel)
    as [[_ E]|[(_ & _ & E)|(_ & B & E)]]; rewrite E; cbn [snd].
  - now left.
  - now left.
  - right. split; [exact B|]. eexists.
    rewrite threads_started_app. cbn [threads_started app].
    now rewrite threads_started_app, threads_started_set_status_led.
Qed.

Lemma prompt_edge_single_flight (y y' : system) (clock : Q) (channel : Z)
  (enter_clock : Q) :
  prompt_edge y clock channel enter_clock = Some y' ->
  single_flight y -> single_flight y'.
Proof.
  unfold prompt_edge, single_flight. cbn [step].
  pose proof (callback_keeps_latch (ctl y) clock channel) as K.
  pose proof (callback_threads (ctl y) clock channel) as T.
  destruct (pixhawk_trigger_callback (ctl y) clock channel) as [c es].
  cbn [fst snd] in K, T. cbn [ctl workers emitted].
  intros H [(W & L)|(n & t & W & L)]; rewrite W in H;
    destruct T as [T|(B & m & T)]; try congruence;
    rewrite T in H; cbn in H; inversion H; subst; clear H; cbn.
  - left. split; [reflexivity|congruence].
  - right. now exists m, enter_clock.
  - right. exists n, t. split; [reflexivity|congruence].
Qed.

Lemma leave_single_flight (y y' : system) (i : nat) (w : attempt) :
  step y (Leave i w) = Some y' -> single_flight y -> single_flight y'.
Proof.
  unfold single_flight. cbn [step].
  intros H [(W & L)|(n & t & W & L)]; rewrite W in H.
  - destruct i; discriminate.
  - destruct i as [|[|i]]; cbn in H; try discriminate.
    destruct (execute_capture_rest (ctl y) n t w) as [c es] eqn:X.
    inversion H; subst; clear H; cbn. left. split; [reflexivity|].
    pose proof (rest_releases_latch (ctl y) n t w) as F.
    now rewrite X in F.
Qed.

Lemma prompt_reachable_single_flight (y0 y : system) :
  single_flight y0 -> prompt_reachable y0 y -> single_flight y.
Proof.
  intros Base R.
  induction R as [|y y' clock channel c _ IH S|y y' i w _ IH S].
  - exact Base.
  - exact (prompt_edge_single_flight y y' clock channel c S IH).
  - exact (leave_single_flight y y' i w S IH).
Qed.

(** When every started thread runs its first statement at once, at most one
    attempt is in flight, and the latch is up exactly while one is. *)
Lemma prompt_schedule_is_single_flight (pin : Z) (led : option Z)
  (now : Py.datetime) (y : system) :
  prompt_reachable (boot pin led now) y ->
  (length (in_flight y) <= 1)%nat
  /\ workers y = in_flight y
  /\ (is_capturing (ctl y) = true <-> length (in_flight y) = 1%nat).
Proof.
  intros R.
  assert (Base : single_flight (boot pin led now)) by (left; split; reflexivity).
  destruct (prompt_reachable_single_flight _ y Base R)
    as [(W & L)|(n & t & W & L)]; unfold in_flight; rewrite W, L; cbn.
  - repeat split; auto; discriminate.
  - repeat split; auto.
Qed.

(** ** Rounding to a double *)

Lemma pow2_pos e : (0 < Py.pow2 e)%Q.
Proof. apply Qpower_0_lt. reflexivity. Qed.

Lemma pow2_add a b : (Py.pow2 (a + b) == Py.pow2 a * Py.pow2 b)%Q.
Proof. apply Qpower_plus. discriminate. Qed.

Lemma pow2_le a b : a <= b -> (Py.pow2 a <= Py.pow2 b)%Q.
Proof. intro H. apply Qpower_le_compat_l; [exact H | discriminate]. Qed.

Lemma pow2_lt a b : a < b -> (Py.pow2 a < Py.pow2 b)%Q.
Proof. intro H. apply Qpower_lt_compat_l; [exact H | reflexivity]. Qed.

Lemma pow2_lt_inv a b : (Py.pow2 a < Py.pow2 b)%Q -> a < b.
Proof. intro H. apply Qpower_lt_compat_l_inv with (q := 2%Q); [exact H | reflexivity]. Qed.

Lemma pow2_nonneg n : 0 <= n -> (Py.pow2 n == inject_Z (2 ^ n))%Q.
Proof. intro H. unfold Py.pow2. rewrite Zpower_Qpower by exact H. reflexivity. Qed.

Lemma pow2_sub a b : (Py.pow2 (a - b) == Py.pow2 a / Py.pow2 b)%Q.
Proof.
  assert (P := pow2_pos b).
  assert (E : (Py.pow2 a == Py.pow2 (a - b) * Py.pow2 b)%Q).
  { rewrite <- pow2_add. replace (a - b + b) with a by lia. reflexivity. }
  rewrite E. field. intro Z0. rewrite Z0 in P. discriminate.
Qed.

Lemma ilog2_spec x : (0 < x)%Q -> (Py.pow2 (Py.ilog2 x) <= x < Py.pow2 (Py.ilog2 x + 1))%Q.
Proof.
  intro Hx. destruct x as [p q]. unfold Py.ilog2. cbn [Qnum Qden].
  assert (Hp : 0 < p). { unfold Qlt in Hx. cbn in Hx. lia. }
  set (lp := Z.log2 p). set (lq := Z.log2 (Z.pos q)).
  assert (Lp := Z.log2_spec p Hp). assert (Lq := Z.log2_spec (Z.pos q) (Pos2Z.is_pos q)).
  fold lp in Lp. fold lq in Lq.
  assert (Nlp : 0 <= lp) by apply Z.log2_nonneg.
  assert (Nlq : 0 <= lq) by apply Z.log2_nonneg.
  assert (A : (Py.pow2 (lp - lq - 1) < p # q)%Q).
  { replace (lp - lq - 1) with (lp - (lq + 1)) by lia.
    rewrite pow2_sub, (pow2_nonneg lp), (pow2_nonneg (lq + 1)) by lia.
    apply Qlt_shift_div_r.
    - rewrite <- (Zlt_Qlt 0). lia.
    - rewrite (Qmake_Qdiv p q). unfold Qdiv. rewrite <- Qmult_assoc.
      rewrite (Qmult_comm (/ _)). rewrite Qmult_assoc.
      apply Qlt_shift_div_l; [rewrite <- (Zlt_Qlt 0); lia|].
      rewrite <- !inject_Z_mult, <- Zlt_Qlt. nia. }
  assert (B : (p # q < Py.pow2 (lp - lq + 1))%Q).
  { replace (lp - lq + 1) with (lp + 1 - lq) by lia.
    rewrite pow2_sub, (pow2_nonneg (lp + 1)), (pow2_nonneg lq) by lia.
    apply Qlt_shift_div_l.
    - rewrite <- (Zlt_Qlt 0). lia.
    - rewrite (Qmake_Qdiv p q). unfold Qdiv. rewrite <- Qmult_assoc.
      rewrite (Qmult_comm (/ _)). rewrite Qmult_assoc.
      apply Qlt_shift_div_r; [rewrite <- (Zlt_Qlt 0); lia|].
      rewrite <- !inject_Z_mult, <- Zlt_Qlt. nia. }
  destruct (Qle_bool (Py.pow2 (lp - lq)) (p # q)) eqn:E.
  - apply Qle_bool_iff in E. split; [exact E | exact B].
  - split; [apply Qlt_le_weak; exact A|].
    replace (lp - lq - 1 + 1) with (lp - lq) by lia.
    apply Qnot_le_lt. intro C. apply Qle_bool_iff in C. congruence.
Qed.

Lemma ilog2_unique x l : (Py.pow2 l <= x < Py.pow2 (l + 1))%Q -> Py.ilog2 x = l.
Proof.
  intros [L U].
  assert (Hx : (0 < x)%Q) by (eapply Qlt_le_trans; [apply pow2_pos | exact L]).
  destruct (ilog2_spec x Hx) as [L' U'].
  assert (Py.ilog2 x < l + 1) by (apply pow2_lt_inv; eapply Qle_lt_trans; eassumption).
  assert (l < Py.ilog2 x + 1) by (apply pow2_lt_inv; eapply Qle_lt_trans; eassumption).
  lia.
Qed.

Lemma ilog2_le x y : (0 < x)%Q -> (x <= y)%Q -> Py.ilog2 x <= Py.ilog2 y.
Proof.
  intros Hx Hxy.
  assert (Hy : (0 < y)%Q) by (eapply Qlt_le_trans; eassumption).
  destruct (ilog2_spec x Hx) as [L _]. destruct (ilog2_spec y Hy) as [_ U].
  assert (Py.ilog2 x < Py.ilog2 y + 1); [|lia].
  apply pow2_lt_inv. eapply Qle_lt_trans; [exact L|]. eapply Qle_lt_trans; eassumption.
Qed.

Lemma Qabs_of_pos x : (0 < x)%Q -> Qabs x = x.
Proof.
  destruct x as [p q]. unfold Qlt. cbn. intro H. rewrite Z.abs_eq by lia. reflexivity.
Qed.

Lemma round_half_even_cases x :
  (Py.round_half_even x = Qfloor x /\ (x - inject_Z (Qfloor x) <= 1 # 2)%Q) \/
  (Py.round_half_even x = Qfloor x + 1 /\ (1 # 2 <= x - inject_Z (Qfloor x))%Q).
Proof.
  unfold Py.round_half_even.
  destruct (Qcompare_spec (x - inject_Z (Qfloor x)) (1 # 2)) as [E|E|E].
  - destruct (Z.even (Qfloor x)); [left | right]; (split; [reflexivity | rewrite E; apply Qle_refl]).
  - left. split; [reflexivity | apply Qlt_le_weak; exact E].
  - right. split; [reflexivity | apply Qlt_le_weak; exact E].
Qed.

Lemma round_half_even_near x :
  (x - (1 # 2) <= inject_Z (Py.round_half_even x) <= x + (1 # 2))%Q.
Proof.
  assert (F := Qfloor_le x). assert (G := Qlt_floor x).
  destruct (round_half_even_cases x) as [[-> H]|[-> H]].
  - split; lra.
  - rewrite inject_Z_plus in *. change (inject_Z 1) with 1%Q in *. split; lra.
Qed.

Lemma round_half_even_le x n : (x <= inject_Z n)%Q -> Py.round_half_even x <= n.
Proof.
  intro H. assert (F := Qfloor_le x).
  destruct (round_half_even_cases x) as [[-> _]|[-> G]].
  - rewrite Zle_Qle. lra.
  - assert (Qfloor x < n); [|lia]. rewrite Zlt_Qlt. lra.
Qed.

Lemma round_half_even_ge x n : (inject_Z n <= x)%Q -> n <= Py.round_half_even x.
Proof.
  intro H. assert (G := Qlt_floor x). rewrite inject_Z_plus in G.
  assert (n < Qfloor x + 1).
  { rewrite Zlt_Qlt, inject_Z_plus. change (inject_Z 1) with 1%Q in *. lra. }
  destruct (round_half_even_cases x) as [[-> _]|[-> _]]; lia.
Qed.

Lemma Qeq_bool_pos x : (0 < x)%Q -> Qeq_bool x 0 = false.
Proof.
  intro H. destruct (Qeq_bool x 0) eqn:E; [|reflexivity].
  apply Qeq_bool_iff in E. rewrite E in H. discriminate.
Qed.

Lemma binary64_pos_eq x :
  (0 < x)%Q ->
  Py.binary64 x = (inject_Z (Py.round_half_even (x / Py.pow2 (Py.ulp_exponent x))) * Py.pow2 (Py.ulp_exponent x))%Q.
Proof. intro H. unfold Py.binary64. rewrite (Qeq_bool_pos x H). reflexivity. Qed.

Lemma div_pow2_mul x e : (x / Py.pow2 e * Py.pow2 e == x)%Q.
Proof. assert (P := pow2_pos e). field. intro Z0. rewrite Z0 in P. discriminate. Qed.

Lemma binary64_nonneg x : (0 <= x)%Q -> (0 <= Py.binary64 x)%Q.
Proof.
  intro H. unfold Py.binary64. destruct (Qeq_bool x 0); [apply Qle_refl|].
  cbv zeta. apply Qmult_le_0_compat; [|apply Qlt_le_weak, pow2_pos].
  rewrite <- (Zle_Qle 0). apply round_half_even_ge.
  apply Qle_shift_div_l; [apply pow2_pos|].
  change (inject_Z 0) with 0%Q. rewrite Qmult_0_l. exact H.
Qed.

Lemma ulp_exponent_le x y : (0 < x)%Q -> (x <= y)%Q -> Py.ulp_exponent x <= Py.ulp_exponent y.
Proof.
  intros Hx Hxy. unfold Py.ulp_exponent.
  assert (Hy : (0 < y)%Q) by (eapply Qlt_le_trans; eassumption).
  rewrite (Qabs_of_pos x Hx), (Qabs_of_pos y Hy).
  assert (L := ilog2_le x y Hx Hxy). lia.
Qed.

Lemma representable_scaled b e :
  Py.representable b -> e <= Py.ulp_exponent b -> exists M : Z, (b == inject_Z M * Py.pow2 e)%Q.
Proof.
  intros [m E] L. exists (m * 2 ^ (Py.ulp_exponent b - e)).
  rewrite inject_Z_mult, <- pow2_nonneg by lia.
  rewrite <- Qmult_assoc, <- pow2_add.
  replace (Py.ulp_exponent b - e + e) with (Py.ulp_exponent b) by lia. exact E.
Qed.

Lemma binary64_le x b : (0 < x)%Q -> (x <= b)%Q -> Py.representable b -> (Py.binary64 x <= b)%Q.
Proof.
  intros Hx Hxb Rb. rewrite (binary64_pos_eq x Hx).
  destruct (representable_scaled b (Py.ulp_exponent x) Rb (ulp_exponent_le x b Hx Hxb)) as [M E].
  assert (P := pow2_pos (Py.ulp_exponent x)).
  rewrite E. apply Qmult_le_compat_r; [|apply Qlt_le_weak; exact P].
  rewrite <- Zle_Qle. apply round_half_even_le.
  apply Qle_shift_div_r; [exact P|]. rewrite <- E. exact Hxb.
Qed.


Lemma ilog2_pos_ulp x :
  (0 < x)%Q -> Py.ulp_exponent x = Z.max (Py.ilog2 x - 52) (-1074).
Proof. intro H. unfold Py.ulp_exponent. rewrite (Qabs_of_pos x H). reflexivity. Qed.

Lemma binary64_ge_pow2 x k :
  -1074 <= k -> (Py.pow2 k <= x)%Q -> (Py.pow2 k <= Py.binary64 x)%Q.
Proof.
  intros Hk Hx.
  assert (X : (0 < x)%Q) by (eapply Qlt_le_trans; [apply pow2_pos | exact Hx]).
  rewrite (binary64_pos_eq x X).
  assert (P := pow2_pos (Py.ulp_exponent x)).
  destruct (ilog2_spec x X) as [L U].
  assert (K : k <= Py.ilog2 x).
  { assert (k < Py.ilog2 x + 1); [|lia]. apply pow2_lt_inv. eapply Qle_lt_trans; eassumption. }
  assert (E : Py.ulp_exponent x <= Py.ilog2 x) by (rewrite (ilog2_pos_ulp x X); lia).
  apply Qle_trans with (Py.pow2 (Py.ilog2 x)); [apply pow2_le; exact K|].
  replace (Py.ilog2 x) with (Py.ilog2 x - Py.ulp_exponent x + Py.ulp_exponent x) at 1 by lia.
  rewrite pow2_add, pow2_nonneg by lia.
  apply Qmult_le_compat_r; [|apply Qlt_le_weak; exact P].
  rewrite <- Zle_Qle. apply round_half_even_ge.
  apply Qle_shift_div_l; [exact P|].
  rewrite <- pow2_nonneg, <- pow2_add by lia.
  replace (Py.ilog2 x - Py.ulp_exponent x + Py.ulp_exponent x) with (Py.ilog2 x) by lia. exact L.
Qed.

Lemma binary64_error x :
  (Py.pow2 (-1022) <= x)%Q ->
  (x - x * Py.unit_roundoff <= Py.binary64 x
   <= x + x * Py.unit_roundoff)%Q.
Proof.
  intro Hx. unfold Py.unit_roundoff.
  assert (X : (0 < x)%Q) by (eapply Qlt_le_trans; [apply pow2_pos | exact Hx]).
  rewrite (binary64_pos_eq x X).
  destruct (ilog2_spec x X) as [L _].
  assert (K : -1022 <= Py.ilog2 x).
  { assert (-1022 < Py.ilog2 x + 1); [|lia]. apply pow2_lt_inv.
    eapply Qle_lt_trans; [exact Hx|]. apply (ilog2_spec x X). }
  assert (E : Py.ulp_exponent x = Py.ilog2 x - 52) by (rewrite (ilog2_pos_ulp x X); lia).
  set (e := Py.ulp_exponent x) in *.
  assert (P := pow2_pos e).
  assert (N := round_half_even_near (x / Py.pow2 e)).
  assert (D := div_pow2_mul x e).
  assert (H : (Py.pow2 e * (1 # 2) <= x * Py.pow2 (-53))%Q).
  { apply Qle_trans with (Py.pow2 (Py.ilog2 x) * Py.pow2 (-53))%Q.
    - rewrite <- pow2_add. replace (Py.ilog2 x + -53) with (e + -1) by lia.
      rewrite pow2_add. apply Qle_refl.
    - apply Qmult_le_compat_r; [exact L | apply Qlt_le_weak, pow2_pos]. }
  destruct N as [N1 N2].
  apply (Qmult_le_compat_r _ _ (Py.pow2 e)) in N1; [|apply Qlt_le_weak; exact P].
  apply (Qmult_le_compat_r _ _ (Py.pow2 e)) in N2; [|apply Qlt_le_weak; exact P].
  set (r := inject_Z (Py.round_half_even (x / Py.pow2 e))) in *.
  set (y := (x / Py.pow2 e)%Q) in *.
  assert (N1' : (x - Py.pow2 e * (1 # 2) <= r * Py.pow2 e)%Q).
  { rewrite <- D. eapply Qle_trans; [|exact N1]. apply Qle_lteq. right. ring. }
  assert (N2' : (r * Py.pow2 e <= x + Py.pow2 e * (1 # 2))%Q).
  { rewrite <- D at 1. eapply Qle_trans; [exact N2|]. apply Qle_lteq. right. ring. }
  split; lra.
Qed.

Lemma binary64_zero (x : Q) : (x == 0)%Q -> Py.binary64 x = 0%Q.
Proof.
  intro H. unfold Py.binary64.
  destruct (Qeq_bool x 0) eqn:E; [reflexivity|].
  apply Qeq_bool_iff in H. congruence.
Qed.

Lemma binary64_between (x b : Q) :
  (0 <= x <= b)%Q -> Py.representable b -> (0 <= Py.binary64 x <= b)%Q.
Proof.
  intros [Lo Hi] Rb. split; [apply binary64_nonneg; exact Lo|].
  destruct (Qle_lt_or_eq _ _ Lo) as [P|Z0].
  - apply binary64_le; assumption.
  - rewrite (binary64_zero x) by (symmetry; exact Z0).
    eapply Qle_trans; eassumption.
Qed.

Lemma representable_1 : Py.representable 1.
Proof. exists (2 ^ 52). vm_compute. reflexivity. Qed.

Lemma representable_100 : Py.representable 100.
Proof. exists (100 * 2 ^ 46). vm_compute. reflexivity. Qed.

(** Two roundings in a row, above the subnormal range: each is off by at
    most one part in 2^53. *)
Lemma twice_rounded_error (q : Q) :
  (Py.pow2 (-1022) <= q)%Q ->
  (q * 100 * ((1 - Py.unit_roundoff) * (1 - Py.unit_roundoff))
   <= Py.binary64 (Py.binary64 q * 100)
   <= q * 100 * ((1 + Py.unit_roundoff) * (1 + Py.unit_roundoff)))%Q.
Proof.
  intro Hq.
  assert (E1 := binary64_error q Hq).
  assert (G : (Py.pow2 (-1022) <= Py.binary64 q)%Q)
    by (apply binary64_ge_pow2; [lia | exact Hq]).
  assert (P := pow2_pos (-1022)).
  assert (E2 : (Py.pow2 (-1022) <= Py.binary64 q * 100)%Q) by lra.
  apply binary64_error in E2.
  set (r := Py.binary64 (Py.binary64 q * 100)) in *.
  set (q1 := Py.binary64 q) in *.
  change Py.unit_roundoff with (1 # 9007199254740992)%Q in *.
  split; lra.
Qed.

(** ** The claims *)



(** C2. The callback never writes [is_capturing]: when it accepts an edge
    with the latch down it starts the capture thread with the latch still
    down (the thread raises it in its first statement).  On a fresh
    controller, an edge at 1700000001 s is logged, lights the LED and starts
    thread 1, and [is_capturing] is false when the callback returns. *)
Theorem callback_dispatches_with_latch_down :
  (forall s clock channel,
      is_capturing (fst (pixhawk_trigger_callback s clock channel))
      = is_capturing s)
  /\ is_capturing (fst (pixhawk_trigger_callback fresh 1700000001 18)) = false
  /\ snd (pixhawk_trigger_callback fresh 1700000001 18)
     = [Log INFO (TriggerDetectado 1 18); GpioOutput (Some 24) HIGH;
        StartCapture 1].
Proof.
  split; [exact callback_keeps_latch|]. split; reflexivity.
Qed.

(** C3. An edge outside the debounce window that finds [is_capturing] true
    adds one to [total_triggers], logs the "ignorado" warning and nothing
    else, starts no thread, reports no outcome, and leaves [is_capturing]
    and the two capture counters as they were. *)
Theorem busy_edge_counted_not_dispatched (s : controller) (clock : Q)
  (channel : Z) :
  is_capturing s = true ->
  ~ (clock - last_trigger_time s < debounce_time s)%Q ->
  let r := pixhawk_trigger_callback s clock channel in
  total_triggers (stats (fst r)) = total_triggers (stats s) + 1
  /\ snd r = [Log WARNING (TriggerIgnorado (total_triggers (stats s) + 1))]
  /\ threads_started (snd r) = []
  /\ outcomes (snd r) = []
  /\ is_capturing (fst r) = true
  /\ successful_captures (stats (fst r)) = successful_captures (stats s)
  /\ failed_captures (stats (fst r)) = failed_captures (stats s)
  /\ capture_count (fst r) = capture_count s.
Proof.
  intros B Far r. subst r. rewrite (callback_busy s clock channel Far B).
  cbn. repeat split. exact B.
Qed.

Lemma busy_edge_counted_not_dispatched_witness :
  total_triggers
    (stats (fst (pixhawk_trigger_callback capturing 1700000002 18))) = 2
  /\ snd (pixhawk_trigger_callback capturing 1700000002 18)
     = [Log WARNING (TriggerIgnorado 2)].
Proof.
  assert (B : is_capturing capturing = true) by reflexivity.
  assert (Far : ~ (1700000002 - last_trigger_time capturing
                   < debounce_time capturing)%Q)
    by (vm_compute; discriminate).
  destruct (busy_edge_counted_not_dispatched capturing 1700000002 18 B Far)
    as (T & E & _).
  split; [exact T|exact E].
Defined.

(** The run of an edge and of the worker events after it, cut off from
    what follows. *)
Lemma run_edge_segment (y y' : system) (clock : Q) (channel : Z)
  (evs rest : list event) :
  forallb is_worker_event evs = true ->
  run y (Edge clock channel :: evs ++ rest) = Some y' ->
  exists y1,
    run y1 rest = Some y'
    /\ debounce_view y1
       = if Py.Qltb (clock - last_trigger_time (ctl y)) (debounce_time (ctl y))
         then debounce_view y
         else (clock, total_triggers (stats (ctl y)) + 1,
               debounce_time (ctl y),
               triggers_logged (emitted y)
                 ++ [total_triggers (stats (ctl y)) + 1]).
Proof.
  intros W H.
  change (Edge clock channel :: evs ++ rest)
    with ((Edge clock channel :: evs) ++ rest) in H.
  rewrite run_app in H.
  destruct (run y (Edge clock channel :: evs)) as [y1|] eqn:R; [|discriminate].
  exists y1. split; [exact H|].
  exact (run_edge_workers_view y y1 clock channel evs W R).
Qed.

(** C4. An edge that comes less than [debounce_time] after the last
    accepted one leaves [total_triggers] alone and logs nothing.  With the
    default 100 ms window and a first edge at clock reading [t0] (at least
    100 ms, as any reading of [time.time()] is), edges at [t0], [t0] + 50 ms
    and [t0] + 150 ms leave [total_triggers] at 2, the last accepted time at
    [t0] + 150 ms, and exactly triggers 1 and 2 logged, whatever the capture
    threads do in between. *)
Theorem debounce_discards_edges_in_window :
  (forall s clock channel,
      (clock - last_trigger_time s < debounce_time s)%Q ->
      total_triggers (stats (fst (pixhawk_trigger_callback s clock channel)))
      = total_triggers (stats s)
      /\ snd (pixhawk_trigger_callback s clock channel) = [])
  /\ (forall pin led now t0 channel ws1 ws2 ws3 y,
         (1 # 10 <= t0)%Q ->
         forallb is_worker_event ws1 = true ->
         forallb is_worker_event ws2 = true ->
         forallb is_worker_event ws3 = true ->
         run (boot pin led now)
             (Edge t0 channel :: ws1
                ++ Edge (t0 + (50 # 1000)) channel :: ws2
                ++ Edge (t0 + (150 # 1000)) channel :: ws3)
         = Some y ->
         total_triggers (stats (ctl y)) = 2
         /\ last_trigger_time (ctl y) = (t0 + (150 # 1000))%Q
         /\ triggers_logged (emitted y) = [1; 2]).
Proof.
  split.
  - intros s clock channel Near.
    now rewrite (callback_bounced s clock channel Near).
  - intros pin led now t0 channel ws1 ws2 ws3 y Base W1 W2 W3 H.
    apply run_edge_segment in H; [|exact W1].
    destruct H as (y1 & H & V1).
    rewrite Qltb_false in V1 by (cbn; lra).
    unfold debounce_view in V1. cbn in V1.
    injection V1 as L1 N1 D1 G1.
    apply run_edge_segment in H; [|exact W2].
    destruct H as (y2 & H & V2).
    rewrite L1, D1, Qltb_true in V2 by lra.
    unfold debounce_view in V2. rewrite L1, N1, D1, G1 in V2.
    injection V2 as L2 N2 D2 G2.
    rewrite <- (app_nil_r ws3) in H.
    apply run_edge_segment in H; [|exact W3].
    destruct H as (y3 & H & V3).
    cbn in H. injection H as <-.
    rewrite L2, D2, Qltb_false in V3 by lra.
    unfold debounce_view in V3. rewrite N2, G2 in V3.
    injection V3 as L3 N3 D3 G3.
    rewrite L3, N3, G3. repeat split.
Qed.

Lemma debounce_discards_edges_in_window_witness :
  (total_triggers
     (stats (fst (pixhawk_trigger_callback capturing (170000000105 # 100) 18)))
   = 1
   /\ snd (pixhawk_trigger_callback capturing (170000000105 # 100) 18) = [])
  /\ (exists y,
         run (boot 18 (Some 24) session_now)
             (Edge 1700000001 18 :: [Enter 0 1700000001]
                ++ Edge (1700000001 + (50 # 1000)) 18 :: []
                ++ Edge (1700000001 + (150 # 1000)) 18 :: [Leave 0 camera_ok])
         = Some y
         /\ total_triggers (stats (ctl y)) = 2
         /\ triggers_logged (emitted y) = [1; 2]).
Proof.
  destruct debounce_discards_edges_in_window as [Bounce Scenario].
  split.
  - apply Bounce. vm_compute. reflexivity.
  - eexists. split; [vm_compute; reflexivity|].
    destruct (Scenario 18 (Some 24) session_now 1700000001%Q 18
                [Enter 0 1700000001] [] [Leave 0 camera_ok] _
                ltac:(vm_compute; discriminate) eq_refl eq_refl eq_refl
                ltac:(vm_compute; reflexivity))
      as (T & _ & G).
    split; [exact T|exact G].
Defined.


(** C9. An edge inside the debounce window changes nothing: the callback
    returns the controller it was given, every attribute included, and
    issues no log record, no GPIO write and no thread; the system it runs
    in is left exactly as it was. *)
Theorem bounced_edge_changes_nothing (s : controller) (clock : Q)
  (channel : Z) :
  (clock - last_trigger_time s < debounce_time s)%Q ->
  pixhawk_trigger_callback s clock channel = (s, [])
  /\ forall y, ctl y = s -> step y (Edge clock channel) = Some y.
Proof.
  intros Near. split; [now apply callback_bounced|].
  intros [c ws es] E. cbn in E. subst c. cbn.
  rewrite (callback_bounced s clock channel Near). cbn.
  now rewrite !app_nil_r.
Qed.

Lemma bounced_edge_changes_nothing_witness :
  pixhawk_trigger_callback capturing (170000000105 # 100) 18 = (capturing, []).
Proof.
  apply (bounced_edge_changes_nothing capturing (170000000105 # 100) 18).
  vm_compute. reflexivity.
Defined.

(** ** Statistics *)

Lemma boot_counters_ok (pin : Z) (led : option Z) (now : Py.datetime) :
  counters_ok (boot pin led now).
Proof. unfold counters_ok. cbn. lia. Qed.

Lemma reachable_counters_ok (pin : Z) (led : option Z) (now : Py.datetime)
  (y : system) :
  reachable (boot pin led now) y -> counters_ok y.
Proof.
  apply reachable_invariant; [apply boot_counters_ok|].
  exact step_counters_ok.
Qed.

Lemma success_rate_of_zero (total : Z) : (success_rate_of 0 total == 0)%Q.
Proof.
  unfold success_rate_of, Py.int_truediv, Py.float_mul.
  rewrite (binary64_zero (inject_Z 0 / inject_Z (Z.max total 1)))
    by (unfold Qdiv; ring).
  reflexivity.
Qed.

Lemma success_rate_of_bounds (successful total : Z) :
  0 <= successful <= total ->
  (0 <= success_rate_of successful total <= 100)%Q.
Proof.
  intros [Lo Hi]. unfold success_rate_of, Py.float_mul, Py.int_truediv.
  assert (D : (0 < inject_Z (Z.max total 1))%Q).
  { rewrite <- (Zlt_Qlt 0). lia. }
  assert (S0 : (0 <= inject_Z successful)%Q) by now rewrite <- (Zle_Qle 0).
  assert (S1 : (inject_Z successful <= inject_Z (Z.max total 1))%Q).
  { rewrite <- Zle_Qle. lia. }
  assert (Q1 : (0 <= Py.binary64 (inject_Z successful
                                  / inject_Z (Z.max total 1)) <= 1)%Q).
  { apply binary64_between; [|exact representable_1]. split.
    - apply Qle_shift_div_l; [exact D|]. now rewrite Qmult_0_l.
    - apply Qle_shift_div_r; [exact D|]. now rewrite Qmult_1_l. }
  apply binary64_between; [|exact representable_100].
  destruct Q1 as [A B]. split; lra.
Qed.

Lemma success_rate_of_error (successful total : Z) :
  0 <= successful -> 1 <= total <= 2 ^ 1022 ->
  let exact := (inject_Z successful / inject_Z total * 100)%Q in
  (exact * ((1 - Py.unit_roundoff) * (1 - Py.unit_roundoff))
   <= Py.binary64 (Py.binary64 (inject_Z successful / inject_Z total) * 100)
   <= exact * ((1 + Py.unit_roundoff) * (1 + Py.unit_roundoff)))%Q.
Proof.
  intros S0 [T1 T2] exact. unfold exact.
  assert (D : (0 < inject_Z total)%Q) by (rewrite <- (Zlt_Qlt 0); lia).
  destruct (Z.eq_dec successful 0) as [->|NZ].
  - rewrite (binary64_zero (inject_Z 0 / inject_Z total))
      by (unfold Qdiv; ring).
    change (Py.binary64 (0 * 100)) with 0%Q.
    setoid_replace (inject_Z 0 / inject_Z total * 100)%Q with 0%Q
      by (unfold Qdiv; ring).
    rewrite !Qmult_0_l. split; apply Qle_refl.
  - apply twice_rounded_error.
    apply Qle_shift_div_l; [exact D|].
    apply Qle_trans with (Py.pow2 (-1022) * inject_Z (2 ^ 1022))%Q.
    + apply Qmult_le_compat_nonneg.
      * split; [apply Qlt_le_weak, pow2_pos | apply Qle_refl].
      * split; [rewrite <- (Zle_Qle 0); lia | rewrite <- Zle_Qle; exact T2].
    + rewrite <- pow2_nonneg, <- pow2_add by lia.
      change (Py.pow2 (-1022 + 1022)) with 1%Q.
      rewrite <- (Zle_Qle 1). lia.
Qed.

(** On every pair of counters up to 60 triggers, [success_rate_of] is bit
    for bit what [SpecFloat] computes. *)
Example success_rate_of_agrees_with_SpecFloat :
  forallb
    (fun p =>
       match Q_of_spec_float (success_rate_spec_float (fst p) (snd p)) with
       | Some q => Qeq_bool q (success_rate_of (fst p) (snd p))
       | None => false
       end)
    (counter_pairs 60)
  = true.
Proof. vm_compute. reflexivity. Qed.

(** C6, as stated, fails: after one trigger and one successful capture the
    value bound to [success_rate] is 100, not 1 / max(1, 1) = 1. *)
Lemma success_rate_is_not_a_fraction :
  ~ (success_rate after_one_success
     == inject_Z (successful_captures (stats after_one_success))
        / inject_Z (Z.max (total_triggers (stats after_one_success)) 1))%Q.
Proof. vm_compute. discriminate. Qed.

(** C6, amended. [get_statistics] reports a percentage, computed in double
    precision: the value under [success_rate_percent] is
    (successful_captures / max(total_triggers, 1)) * 100, the quotient
    rounded to the nearest double and the product rounded again.  In every
    state the controller can reach it is 0 when [total_triggers] is 0;
    otherwise it is that twice-rounded product for successful_captures /
    total_triggers, which (below 2^1022 triggers) is within a factor
    (1 - 2^-53)^2 to (1 + 2^-53)^2 of the exact percentage, and is not
    always equal to it: 7 captures of 25 triggers give 28.000000000000004. *)
Theorem success_rate_is_a_percentage (pin : Z) (led : option Z)
  (now now' : Py.datetime) (y : system) :
  reachable (boot pin led now) y ->
  let s := ctl y in
  let successful := successful_captures (stats s) in
  let total := total_triggers (stats s) in
  Py.get (get_statistics s now') "success_rate_percent"
  = Some (Py.Float (success_rate s))
  /\ success_rate s
     = Py.binary64
         (Py.binary64 (inject_Z successful / inject_Z (Z.max total 1)) * 100)
  /\ (total = 0 -> success_rate s = 0%Q)
  /\ (total <> 0 ->
      success_rate s
      = Py.binary64 (Py.binary64 (inject_Z successful / inject_Z total) * 100))
  /\ (total <> 0 -> total <= 2 ^ 1022 ->
      let exact := (inject_Z successful / inject_Z total * 100)%Q in
      (exact * ((1 - Py.unit_roundoff) * (1 - Py.unit_roundoff))
       <= success_rate s
       <= exact * ((1 + Py.unit_roundoff) * (1 + Py.unit_roundoff)))%Q).
Proof.
  intros R s successful total. apply reachable_counters_ok in R.
  destruct R as (Ok & Ko & Le). fold s in Ok, Ko, Le.
  fold successful in Ok, Le. fold total in Le.
  assert (Nz : total <> 0 ->
               success_rate s
               = Py.binary64
                   (Py.binary64 (inject_Z successful / inject_Z total) * 100)).
  { intros NZ. unfold success_rate, success_rate_of.
    fold successful. fold total.
    replace (Z.max total 1) with total by lia. reflexivity. }
  split; [reflexivity|]. split; [reflexivity|]. split; [|split].
  - intros Z0. unfold success_rate, success_rate_of.
    fold successful. fold total.
    assert (E : successful = 0) by lia.
    rewrite E, Z0. reflexivity.
  - exact Nz.
  - intros NZ Small exact. rewrite (Nz NZ).
    apply success_rate_of_error; lia.
Qed.

Lemma success_rate_is_a_percentage_witness :
  exists y,
    run (boot 18 (Some 24) session_now) seven_of_25 = Some y
    /\ total_triggers (stats (ctl y)) = 25
    /\ successful_captures (stats (ctl y)) = 7
    /\ success_rate (ctl y) = Py.binary64 (Py.binary64 (7 / 25) * 100)
    /\ (success_rate (ctl y) == 7881299347898369 # 281474976710656)%Q
    /\ ~ (success_rate (ctl y) == 28)%Q.
Proof.
  destruct (run (boot 18 (Some 24) session_now) seven_of_25) as [y|] eqn:R;
    [|vm_compute in R; discriminate].
  exists y. split; [reflexivity|].
  pose proof (reachable_run _ _ y seven_of_25
                (reachable_refl (boot 18 (Some 24) session_now)) R) as Reach.
  destruct (success_rate_is_a_percentage 18 (Some 24) session_now session_now
              y Reach) as (_ & _ & _ & Rate & _).
  vm_compute in R. injection R as <-.
  split; [reflexivity|]. split; [reflexivity|].
  split; [apply Rate; discriminate|].
  split; [vm_compute; reflexivity | vm_compute; discriminate].
Defined.

(** ** The statistics file, written and read back *)

Lemma string_length_app (a b : string) :
  String.length (a ++ b)%string = (String.length a + String.length b)%nat.
Proof. induction a as [|x a IH]; cbn; [reflexivity | now rewrite IH]. Qed.

Lemma string_app_assoc (a b c : string) :
  ((a ++ b) ++ c = a ++ (b ++ c))%string.
Proof. induction a as [|x a IH]; cbn; [reflexivity | now rewrite IH]. Qed.

Lemma pow10_pos (e : Z) : (0 < pow10 e)%Q.
Proof. apply Qpower_0_lt. reflexivity. Qed.

Lemma pow10_add (a b : Z) : (pow10 (a + b) == pow10 a * pow10 b)%Q.
Proof. apply Qpower_plus. discriminate. Qed.

Lemma pow10_nonneg (n : Z) : 0 <= n -> (pow10 n == inject_Z (10 ^ n))%Q.
Proof. intro H. unfold pow10. rewrite Zpower_Qpower by exact H. reflexivity. Qed.

Lemma div_pow10_mul (x : Q) (e : Z) : (x / pow10 e * pow10 e == x)%Q.
Proof. assert (P := pow10_pos e). field. intro Z0. rewrite Z0 in P. discriminate. Qed.

Lemma read_string_body_escape_char (c : ascii) (tail : string) :
  read_string_body (escape_char c ++ tail) = prepend c (read_string_body tail).
Proof. destruct c as [[] [] [] [] [] [] [] []]; reflexivity. Qed.

Lemma read_string_body_escape (s rest : string) :
  read_string_body (escape s ++ String quote rest) = Some (s, rest).
Proof.
  induction s as [|c s IH]; [reflexivity|].
  cbn [escape]. rewrite string_app_assoc, read_string_body_escape_char, IH.
  reflexivity.
Qed.

Lemma span_digits_app (a rest : string) :
  all_digits a = true ->
  match rest with String c _ => is_digit c | EmptyString => false end = false ->
  span_digits (a ++ rest) = (a, rest).
Proof.
  intros A R. induction a as [|c a IH]; cbn.
  - destruct rest as [|c r]; [reflexivity|]. cbn. now rewrite R.
  - cbn in A. apply andb_prop in A as [D A]. now rewrite D, IH.
Qed.

Lemma all_digits_app (a b : string) :
  all_digits a = true -> all_digits b = true -> all_digits (a ++ b) = true.
Proof.
  intros A B. induction a as [|c a IH]; cbn; [exact B|].
  cbn in A. apply andb_prop in A as [D A]. now rewrite D, IH.
Qed.

Lemma all_digits_zeros (k : nat) : all_digits (Py.zeros k) = true.
Proof. induction k; cbn; auto. Qed.

Lemma all_digits_take (j : nat) (s : string) :
  all_digits s = true -> all_digits (take j s) = true.
Proof.
  revert s. induction j as [|j IH]; intros [|c s] A; cbn; try reflexivity.
  cbn in A. apply andb_prop in A as [D A]. now rewrite D, IH.
Qed.

Lemma all_digits_drop (j : nat) (s : string) :
  all_digits s = true -> all_digits (drop j s) = true.
Proof.
  revert s. induction j as [|j IH]; intros [|c s] A; cbn; try assumption.
  cbn in A. apply andb_prop in A as [D A]. now apply IH.
Qed.

Lemma drop_nonempty (j : nat) (s : string) :
  (j < String.length s)%nat -> drop j s <> EmptyString.
Proof.
  revert s. induction j as [|j IH]; intros [|c s] L; cbn in *;
    try lia; try discriminate.
  apply IH. lia.
Qed.

Lemma all_digits_uint (u : Decimal.uint) :
  all_digits (NilEmpty.string_of_uint u) = true.
Proof. induction u; cbn; auto. Qed.

Lemma to_uint_no_leading_zero (p : positive) (u : Decimal.uint) :
  Pos.to_uint p <> Decimal.D0 u.
Proof.
  intros E.
  assert (N : Decimal.unorm (Pos.to_uint p) = Pos.to_uint p).
  { rewrite <- DecimalPos.Unsigned.to_of, DecimalPos.Unsigned.of_to.
    reflexivity. }
  rewrite E, DecimalFacts.unorm_D0 in N.
  destruct (Decimal.nzhead u) eqn:H;
    [|rewrite DecimalFacts.unorm_nzhead in N by congruence;
      exact (DecimalFacts.nzhead_nonzero _ _ N) ..].
  apply DecimalFacts.unorm_0 in H. rewrite H in N.
  injection N as <-. apply (DecimalPos.Unsigned.to_uint_nonzero p).
  exact E.
Qed.

Lemma digits_of_head (p : positive) :
  exists c rest,
    digits_of (Z.pos p) = String c rest /\ is_digit c = true
    /\ (nat_of_ascii c =? 48)%nat = false /\ all_digits rest = true.
Proof.
  unfold digits_of. cbn [Z.to_pos].
  pose proof (DecimalPos.Unsigned.to_uint_nonnil p) as NonNil.
  pose proof (to_uint_no_leading_zero p) as NonZero.
  destruct (Pos.to_uint p) as [|u|u|u|u|u|u|u|u|u|u];
    [contradiction | exfalso; exact (NonZero u eq_refl) | ..];
    eexists; eexists; (split; [reflexivity|]);
    (split; [reflexivity|]); (split; [reflexivity|]);
    apply all_digits_uint.
Qed.

Lemma all_digits_digits_of (d : Z) : all_digits (digits_of d) = true.
Proof. apply all_digits_uint. Qed.

Lemma digits_of_valid_int (p : positive) : valid_int (digits_of (Z.pos p)).
Proof. right. apply digits_of_head. Qed.

Lemma str_pos (p : positive) : Py.str (Z.pos p) = digits_of (Z.pos p).
Proof.
  unfold Py.str, digits_of.
  change (Z.to_int (Z.pos p)) with (Decimal.Pos (Pos.to_uint p)).
  change (Z.to_pos (Z.pos p)) with p.
  unfold NilZero.string_of_int, NilZero.string_of_uint.
  pose proof (DecimalPos.Unsigned.to_uint_nonnil p) as NonNil.
  destruct (Pos.to_uint p); [contradiction|reflexivity ..].
Qed.

Lemma str_neg (p : positive) :
  Py.str (Z.neg p) = String "-" (digits_of (Z.pos p)).
Proof.
  unfold Py.str, digits_of.
  change (Z.to_int (Z.neg p)) with (Decimal.Neg (Pos.to_uint p)).
  change (Z.to_pos (Z.pos p)) with p.
  unfold NilZero.string_of_int, NilZero.string_of_uint.
  pose proof (DecimalPos.Unsigned.to_uint_nonnil p) as NonNil.
  destruct (Pos.to_uint p); [contradiction|reflexivity ..].
Qed.

Lemma horner_of_uint_acc (u : Decimal.uint) (acc : positive) :
  Z.pos (Pos.of_uint_acc u acc) = horner (Z.pos acc) (NilEmpty.string_of_uint u).
Proof.
  revert acc. induction u as [|u IH|u IH|u IH|u IH|u IH|u IH|u IH|u IH|u IH|u IH];
    intros acc; cbn [Pos.of_uint_acc NilEmpty.string_of_uint horner];
    [reflexivity
    |rewrite IH; f_equal;
     match goal with
     | |- context [Z.of_nat (nat_of_ascii ?c)] =>
         let v := eval vm_compute in (Z.of_nat (nat_of_ascii c)) in
         change (Z.of_nat (nat_of_ascii c)) with v
     end; lia ..].
Qed.

Lemma horner_of_uint (u : Decimal.uint) :
  Z.of_N (Pos.of_uint u) = horner 0 (NilEmpty.string_of_uint u).
Proof.
  induction u as [|u IH|u IH|u IH|u IH|u IH|u IH|u IH|u IH|u IH|u IH];
    cbn [Pos.of_uint NilEmpty.string_of_uint horner];
    [reflexivity | exact IH | cbn [Z.of_N]; rewrite horner_of_uint_acc; reflexivity ..].
Qed.

Lemma digits_value_digits_of (p : positive) :
  digits_value (digits_of (Z.pos p)) = Z.pos p.
Proof.
  unfold digits_value, digits_of. cbn [Z.to_pos].
  rewrite <- horner_of_uint, DecimalPos.Unsigned.of_to. reflexivity.
Qed.

Lemma all_digits_str (n : Z) :
  0 <= n -> all_digits (Py.str n) = true /\ Py.str n <> EmptyString.
Proof.
  intros N. destruct n as [|p|p]; [split; [reflexivity|discriminate]| |lia].
  rewrite str_pos. split; [apply all_digits_digits_of|].
  destruct (digits_of_head p) as (c & r & -> & _). discriminate.
Qed.

(** *** Numbers *)

Lemma separated_head (rest : string) :
  separated rest ->
  exists c r, rest = String c r
              /\ (c = ","%char \/ c = newline).
Proof. intros [r|r]; eauto. Qed.

Lemma read_frac_some (f tail : string) :
  all_digits f = true -> f <> EmptyString ->
  match tail with String c _ => is_digit c | EmptyString => false end = false ->
  read_frac (String "." (f ++ tail)) = (Some f, tail).
Proof.
  intros A N T. unfold read_frac.
  change (nat_of_ascii "." =? 46)%nat with true. cbv iota.
  rewrite (span_digits_app f tail A T).
  destruct f; [contradiction|reflexivity].
Qed.

Lemma read_exp_some (minus : bool) (ds tail : string) :
  all_digits ds = true -> ds <> EmptyString ->
  match tail with String c _ => is_digit c | EmptyString => false end = false ->
  read_exp (String "e" ((if minus then "-" else "+") ++ ds ++ tail))
  = (Some (minus, ds), tail).
Proof.
  intros A N T. unfold read_exp.
  change (nat_of_ascii "e" =? 101)%nat with true. cbv iota.
  destruct minus; cbn [append orb];
    [change (nat_of_ascii "-" =? 45)%nat with true
    |change (nat_of_ascii "+" =? 45)%nat with false;
     change (nat_of_ascii "+" =? 43)%nat with true];
    cbv iota; rewrite (span_digits_app ds tail A T);
    (destruct ds; [contradiction|reflexivity]).
Qed.

Lemma lex_unsigned_int (neg : bool) (i tail : string) :
  valid_int i ->
  match tail with String c _ => is_digit c | EmptyString => false end = false ->
  lex_unsigned neg (i ++ tail)
  = let '(frac, rest2) := read_frac tail in
    let '(exp, rest3) := read_exp rest2 in
    Some ({| negative := neg; int_part := i;
             frac_part := frac; exp_part := exp |}, rest3).
Proof.
  intros [->|(c & r & -> & D & NZ & A)] T.
  - reflexivity.
  - cbn [append]. unfold lex_unsigned. rewrite D, NZ.
    change (String c (r ++ tail)) with (String c r ++ tail)%string.
    rewrite span_digits_app; [reflexivity| |exact T].
    cbn. now rewrite D, A.
Qed.

Lemma digit_is_no_sign (c : ascii) :
  is_digit c = true ->
  (nat_of_ascii c =? 34)%nat = false /\ (nat_of_ascii c =? 45)%nat = false.
Proof.
  destruct c as [[] [] [] [] [] [] [] []]; intros D;
    try discriminate D; split; reflexivity.
Qed.

Lemma read_value_unsigned (s : string) (n : number) (rest : string) :
  lex_unsigned false s = Some (n, rest) ->
  read_value s = Some (number_value n, rest).
Proof.
  intros L. destruct s as [|c t]; [discriminate|].
  assert (D : is_digit c = true).
  { unfold lex_unsigned in L. destruct (is_digit c); [reflexivity|discriminate]. }
  destruct (digit_is_no_sign c D) as [Q M].
  unfold read_value, lex_number. rewrite Q, M, L. reflexivity.
Qed.

Lemma read_value_negative (t : string) (n : number) (rest : string) :
  lex_unsigned true t = Some (n, rest) ->
  read_value (String "-" t) = Some (number_value n, rest).
Proof.
  intros L. unfold read_value, lex_number.
  change (nat_of_ascii "-" =? 34)%nat with false.
  change (nat_of_ascii "-" =? 45)%nat with true.
  cbv iota. rewrite L. reflexivity.
Qed.

Lemma separated_no_digit (rest : string) :
  separated rest ->
  match rest with String c _ => is_digit c | EmptyString => false end = false.
Proof. intros [r|r]; reflexivity. Qed.

Lemma separated_ends_number (rest : string) :
  separated rest ->
  read_frac rest = (None, rest) /\ read_exp rest = (None, rest).
Proof. intros [r|r]; split; reflexivity. Qed.

Lemma lex_unsigned_integer (neg : bool) (i rest : string) :
  valid_int i -> separated rest ->
  lex_unsigned neg (i ++ rest)
  = Some ({| negative := neg; int_part := i;
             frac_part := None; exp_part := None |}, rest).
Proof.
  intros V S. rewrite lex_unsigned_int by (auto using separated_no_digit).
  destruct (separated_ends_number rest S) as [-> ->]. reflexivity.
Qed.

Lemma read_value_int (n : Z) (rest : string) :
  separated rest ->
  read_value (Py.str n ++ rest) = Some (Py.Int n, rest).
Proof.
  intros S. destruct n as [|p|p].
  - change (Py.str 0) with "0".
    rewrite (read_value_unsigned _ _ _
               (lex_unsigned_integer false "0" rest (or_introl eq_refl) S)).
    reflexivity.
  - rewrite str_pos.
    rewrite (read_value_unsigned _ _ _
               (lex_unsigned_integer false _ rest (digits_of_valid_int p) S)).
    unfold number_value. cbn [frac_part exp_part negative int_part].
    rewrite digits_value_digits_of. reflexivity.
  - rewrite str_neg. cbn [append].
    rewrite (read_value_negative _ _ _
               (lex_unsigned_integer true _ rest (digits_of_valid_int p) S)).
    unfold number_value. cbn [frac_part exp_part negative int_part].
    rewrite digits_value_digits_of. reflexivity.
Qed.

Lemma read_value_string (s rest : string) :
  read_value (encode_string s ++ rest) = Some (Py.Str s, rest).
Proof.
  unfold encode_string. cbn [append]. unfold read_value.
  change (nat_of_ascii quote =? 34)%nat with true. cbv iota.
  rewrite string_app_assoc. cbn [append].
  rewrite read_string_body_escape. reflexivity.
Qed.

Lemma lex_unsigned_fraction (neg : bool) (i f rest : string) :
  valid_int i -> all_digits f = true -> f <> EmptyString -> separated rest ->
  lex_unsigned neg (i ++ String "." (f ++ rest))
  = Some ({| negative := neg; int_part := i;
             frac_part := Some f; exp_part := None |}, rest).
Proof.
  intros V A N S. rewrite lex_unsigned_int by (exact V || reflexivity).
  rewrite read_frac_some by (auto using separated_no_digit).
  destruct (separated_ends_number rest S) as [_ ->]. reflexivity.
Qed.

Lemma lex_unsigned_exponent (neg : bool) (i : string) (minus : bool)
  (ds rest : string) :
  valid_int i -> all_digits ds = true -> ds <> EmptyString ->
  separated rest ->
  lex_unsigned neg
    (i ++ String "e" ((if minus then "-" else "+") ++ ds ++ rest))
  = Some ({| negative := neg; int_part := i;
             frac_part := None; exp_part := Some (minus, ds) |}, rest).
Proof.
  intros V A N S. rewrite lex_unsigned_int by (exact V || reflexivity).
  change (read_frac (String "e" ((if minus then "-" else "+") ++ ds ++ rest)))
    with (@None string,
          String "e" ((if minus then "-" else "+") ++ ds ++ rest)%string).
  cbv iota beta.
  rewrite read_exp_some by (auto using separated_no_digit). reflexivity.
Qed.

Lemma lex_unsigned_fraction_exponent (neg : bool) (i f : string)
  (minus : bool) (ds rest : string) :
  valid_int i -> all_digits f = true -> f <> EmptyString ->
  all_digits ds = true -> ds <> EmptyString -> separated rest ->
  lex_unsigned neg
    (i ++ String "."
            (f ++ String "e" ((if minus then "-" else "+") ++ ds ++ rest)))
  = Some ({| negative := neg; int_part := i;
             frac_part := Some f; exp_part := Some (minus, ds) |}, rest).
Proof.
  intros V A N A' N' S. rewrite lex_unsigned_int by (exact V || reflexivity).
  rewrite read_frac_some by (assumption || reflexivity).
  rewrite read_exp_some by (auto using separated_no_digit). reflexivity.
Qed.

Lemma horner_shift (s : string) :
  forall acc : Z,
    horner acc s = acc * 10 ^ Z.of_nat (String.length s) + horner 0 s.
Proof.
  induction s as [|c s IH]; intros acc; cbn [horner String.length].
  - cbn. lia.
  - rewrite IH, (IH (10 * 0 + _)), Nat2Z.inj_succ, Z.pow_succ_r by lia. ring.
Qed.

Lemma horner_app (a b : string) (acc : Z) :
  horner acc (a ++ b) = horner (horner acc a) b.
Proof.
  revert acc. induction a as [|c a IH]; intros acc; cbn [append horner];
    [reflexivity | apply IH].
Qed.

Lemma digits_value_app (a b : string) :
  digits_value (a ++ b)
  = digits_value a * 10 ^ Z.of_nat (String.length b) + digits_value b.
Proof. unfold digits_value. now rewrite horner_app, horner_shift. Qed.

Lemma digits_value_zeros (k : nat) : digits_value (Py.zeros k) = 0.
Proof. induction k as [|k IH]; [reflexivity | exact IH]. Qed.

Lemma length_zeros (k : nat) : String.length (Py.zeros k) = k.
Proof. induction k as [|k IH]; cbn; [reflexivity | now rewrite IH]. Qed.

Lemma take_drop (j : nat) (s : string) : (take j s ++ drop j s)%string = s.
Proof.
  revert s. induction j as [|j IH]; intros [|c s]; cbn; try reflexivity.
  now rewrite IH.
Qed.

Lemma length_drop (j : nat) (s : string) :
  String.length (drop j s) = (String.length s - j)%nat.
Proof.
  revert s. induction j as [|j IH]; intros [|c s]; cbn; try reflexivity.
  apply IH.
Qed.

Lemma digits_value_str (n : Z) : 0 <= n -> digits_value (Py.str n) = n.
Proof.
  intros N. destruct n as [|p|p]; [reflexivity| |lia].
  rewrite str_pos. apply digits_value_digits_of.
Qed.

Lemma exponent_repr_digits (e : Z) :
  exists ds,
    exponent_repr e = ((if (e <? 0)%Z then "-" else "+") ++ ds)%string
    /\ all_digits ds = true /\ ds <> EmptyString
    /\ digits_value ds = Z.abs e.
Proof.
  unfold exponent_repr.
  destruct (all_digits_str (Z.abs e) (Z.abs_nonneg e)) as [A N].
  pose proof (digits_value_str (Z.abs e) (Z.abs_nonneg e)) as V.
  exists ((if (Z.abs e <? 10)%Z then "0" else EmptyString) ++ Py.str (Z.abs e))%string.
  split; [reflexivity|]. destruct (Z.abs e <? 10); cbn [append].
  - split; [cbn; exact A|]. split; [discriminate | exact V].
  - repeat split; assumption.
Qed.

(** Whatever the digits and wherever the point, what [float.__repr__]
    prints is a number of the JSON grammar with a fraction or an exponent;
    the reader takes all of it, and reads the decimal that was written. *)
Lemma lex_place_point (neg : bool) (p : positive) (decpt : Z) (rest : string) :
  separated rest ->
  exists n,
    lex_unsigned neg (place_point (digits_of (Z.pos p)) decpt ++ rest)
    = Some (n, rest)
    /\ negative n = neg
    /\ (frac_part n <> None \/ exp_part n <> None)
    /\ (inject_Z (number_digits n) * pow10 (number_exponent n)
        == inject_Z (Z.pos p)
           * pow10 (decpt - Z.of_nat (String.length (digits_of (Z.pos p)))))%Q.
Proof.
  intros Sep.
  pose proof (digits_of_valid_int p) as V.
  pose proof (all_digits_digits_of (Z.pos p)) as A.
  pose proof (digits_value_digits_of p) as Val.
  destruct (digits_of_head p) as (c & r & E & D & NZ & Ar).
  remember (digits_of (Z.pos p)) as ds eqn:Hds.
  set (L := Z.of_nat (String.length ds)).
  unfold place_point. fold L.
  destruct ((-4 <? decpt) && (decpt <=? 16)) eqn:Fixed.
  - destruct (decpt <=? 0) eqn:Small; [|destruct (decpt <? L) eqn:Inside].
    + replace (("0." ++ Py.zeros (Z.to_nat (- decpt)) ++ ds) ++ rest)%string
        with ("0" ++ String "." ((Py.zeros (Z.to_nat (- decpt)) ++ ds) ++ rest))%string
        by (cbn [append]; now rewrite !string_app_assoc).
      eexists. split; [apply lex_unsigned_fraction|].
      * now left.
      * apply all_digits_app; [apply all_digits_zeros | exact A].
      * rewrite E. destruct (Py.zeros _); discriminate.
      * exact Sep.
      * split; [reflexivity|]. split; [left; discriminate|].
        unfold number_digits, number_exponent.
        cbn [int_part frac_part exp_part].
        change (digits_value ("0" ++ Py.zeros (Z.to_nat (- decpt)) ++ ds))
          with (digits_value (Py.zeros (Z.to_nat (- decpt)) ++ ds)).
        rewrite digits_value_app, digits_value_zeros, Val.
        rewrite string_length_app, length_zeros, Nat2Z.inj_add.
        fold L. replace (0 - (Z.of_nat (Z.to_nat (- decpt)) + L))
          with (decpt - L) by lia.
        now rewrite Z.mul_0_l, Z.add_0_l.
    + replace ((take (Z.to_nat decpt) ds ++ "." ++ drop (Z.to_nat decpt) ds)
               ++ rest)%string
        with (take (Z.to_nat decpt) ds
              ++ String "." (drop (Z.to_nat decpt) ds ++ rest))%string
        by (rewrite !string_app_assoc; reflexivity).
      eexists. split; [apply lex_unsigned_fraction|].
      * right. rewrite E.
        destruct (Z.to_nat decpt) as [|j] eqn:J; [lia|].
        exists c, (take j r). cbn [take].
        repeat split; try assumption. now apply all_digits_take.
      * now apply all_digits_drop.
      * apply drop_nonempty. unfold L in Inside. lia.
      * exact Sep.
      * split; [reflexivity|]. split; [left; discriminate|].
        unfold number_digits, number_exponent.
        cbn [int_part frac_part exp_part].
        rewrite take_drop, Val, length_drop.
        replace (0 - Z.of_nat (String.length ds - Z.to_nat decpt))
          with (decpt - L) by (unfold L in *; lia).
        reflexivity.
    + replace ((ds ++ Py.zeros (Z.to_nat (decpt - L)) ++ ".0") ++ rest)%string
        with ((ds ++ Py.zeros (Z.to_nat (decpt - L)))
              ++ String "." ("0" ++ rest))%string
        by (rewrite !string_app_assoc; reflexivity).
      eexists. split; [apply lex_unsigned_fraction|].
      * right. rewrite E. cbn [append]. do 2 eexists.
        split; [reflexivity|]. split; [exact D|]. split; [exact NZ|].
        apply all_digits_app; [exact Ar | apply all_digits_zeros].
      * reflexivity.
      * discriminate.
      * exact Sep.
      * split; [reflexivity|]. split; [left; discriminate|].
        unfold number_digits, number_exponent.
        cbn [int_part frac_part exp_part].
        rewrite !digits_value_app, digits_value_zeros, Val, length_zeros.
        change (digits_value "0") with 0.
        change (Z.of_nat (String.length "0")) with 1.
        assert (K : 0 <= decpt - L) by lia.
        rewrite Z2Nat.id by exact K.
        rewrite (pow10_nonneg (decpt - L) K).
        replace ((Z.pos p * 10 ^ (decpt - L) + 0) * 10 ^ 1 + 0)
          with (Z.pos p * 10 ^ (decpt - L) * 10) by lia.
        rewrite !inject_Z_mult.
        change (pow10 (0 - 1)) with (1 # 10)%Q.
        change (inject_Z 10) with 10%Q. field.
  - destruct (exponent_repr_digits (decpt - 1)) as (es & -> & Ae & Ne & Ve).
    assert (Vc : valid_int (String c EmptyString)).
    { right. exists c, EmptyString. repeat split; assumption. }
    assert (Exp : (if decpt - 1 <? 0 then - digits_value es
                   else digits_value es) = decpt - 1).
    { rewrite Ve. destruct (decpt - 1 <? 0) eqn:Sg; lia. }
    clear Hds. subst ds. destruct r as [|c' r'].
    + replace ((String c EmptyString
                ++ "e" ++ (if (decpt - 1 <? 0)%Z then "-" else "+") ++ es)
               ++ rest)%string
        with (String c EmptyString
              ++ String "e" ((if (decpt - 1 <? 0)%Z then "-" else "+")
                             ++ es ++ rest))%string
        by (destruct (decpt - 1 <? 0); cbn [append];
            now rewrite ?string_app_assoc).
      eexists. split; [apply lex_unsigned_exponent; assumption|].
      split; [reflexivity|]. split; [right; discriminate|].
      unfold number_digits, number_exponent.
      cbn [int_part frac_part exp_part append]. rewrite Val, Exp.
      unfold L. cbn [String.length].
      replace (decpt - 1 - Z.of_nat 0) with (decpt - Z.of_nat 1) by lia.
      reflexivity.
    + replace ((String c (String "." (String c' r'))
                ++ "e" ++ (if (decpt - 1 <? 0)%Z then "-" else "+") ++ es)
               ++ rest)%string
        with (String c EmptyString
              ++ String "."
                   (String c' r'
                    ++ String "e" ((if (decpt - 1 <? 0)%Z then "-" else "+")
                                   ++ es ++ rest)))%string
        by (destruct (decpt - 1 <? 0); cbn [append];
            now rewrite ?string_app_assoc).
      eexists. split;
        [apply lex_unsigned_fraction_exponent; try assumption; discriminate|].
      split; [reflexivity|]. split; [left; discriminate|].
      unfold number_digits, number_exponent.
      cbn [int_part frac_part exp_part append]. rewrite Val, Exp.
      unfold L. cbn [String.length].
      replace (decpt - 1 - Z.of_nat (S (String.length r')))
        with (decpt - Z.of_nat (S (S (String.length r')))) by lia.
      reflexivity.
Qed.

Lemma number_value_float (n : number) :
  frac_part n <> None \/ exp_part n <> None ->
  number_value n = Py.Float (Py.binary64 (number_decimal n)).
Proof.
  unfold number_value. destruct (frac_part n), (exp_part n);
    intros [H|H]; try reflexivity; contradiction.
Qed.

Lemma read_value_float (x : Q) (rest : string) :
  separated rest ->
  exists y, read_value (float_repr x ++ rest) = Some (Py.Float y, rest).
Proof.
  intros S. unfold float_repr.
  destruct (Qeq_bool (Py.binary64 x) 0).
  - change ("0.0" ++ rest)%string with ("0" ++ String "." ("0" ++ rest))%string.
    eexists.
    rewrite (read_value_unsigned _ _ _
               (lex_unsigned_fraction false "0" "0" rest
                  (or_introl eq_refl) eq_refl ltac:(discriminate) S)).
    reflexivity.
  - destruct (shortest (Qabs (Py.binary64 x)) 1400 1) as [d0 e0].
    destruct (strip_zeros 17 d0 e0) as [d e].
    change (digits_of d) with (digits_of (Z.pos (Z.to_pos d))).
    set (decpt := Z.of_nat (String.length (digits_of (Z.pos (Z.to_pos d)))) + e).
    destruct (Qle_bool 0 (Py.binary64 x)).
    + destruct (lex_place_point false (Z.to_pos d) decpt rest S)
        as (n & L & _ & F & _).
      eexists. rewrite <- (number_value_float n F).
      now apply read_value_unsigned.
    + destruct (lex_place_point true (Z.to_pos d) decpt rest S)
        as (n & L & _ & F & _).
      eexists. rewrite <- (number_value_float n F). cbn [append].
      now apply read_value_negative.
Qed.


(** *** Doubles are fixed by rounding *)

Lemma round_half_even_int (x : Q) (m : Z) :
  (x == inject_Z m)%Q -> Py.round_half_even x = m.
Proof.
  intros H. apply Z.le_antisymm.
  - apply round_half_even_le. rewrite H. apply Qle_refl.
  - apply round_half_even_ge. rewrite H. apply Qle_refl.
Qed.

Lemma round_half_even_Qeq (x x' : Q) :
  (x == x')%Q -> Py.round_half_even x = Py.round_half_even x'.
Proof.
  intros H. unfold Py.round_half_even.
  assert (F : Qfloor x = Qfloor x') by (now apply Qfloor_comp).
  rewrite <- F.
  assert (C : (x - inject_Z (Qfloor x) ?= 1 # 2)%Q
              = (x' - inject_Z (Qfloor x) ?= 1 # 2)%Q).
  { apply Qcompare_comp; [|reflexivity].
    unfold Qminus. apply Qplus_comp; [exact H | reflexivity]. }
  now rewrite C.
Qed.

Lemma ilog2_Qeq (x x' : Q) :
  (0 < x)%Q -> (x == x')%Q -> Py.ilog2 x' = Py.ilog2 x.
Proof.
  intros P H. apply ilog2_unique. rewrite <- H. now apply ilog2_spec.
Qed.

Lemma ilog2_pow2 (j : Z) : Py.ilog2 (Py.pow2 j) = j.
Proof.
  apply ilog2_unique. split; [apply Qle_refl | apply pow2_lt; lia].
Qed.

Lemma binary64_Qeq (x x' : Q) :
  (0 < x)%Q -> (x == x')%Q -> Py.binary64 x' = Py.binary64 x.
Proof.
  intros P H.
  assert (P' : (0 < x')%Q) by now rewrite <- H.
  rewrite (binary64_pos_eq x P), (binary64_pos_eq x' P').
  rewrite (ilog2_pos_ulp x P), (ilog2_pos_ulp x' P').
  rewrite (ilog2_Qeq x x' P H).
  rewrite (round_half_even_Qeq
             (x' / Py.pow2 (Z.max (Py.ilog2 x - 52) (-1074)))
             (x / Py.pow2 (Z.max (Py.ilog2 x - 52) (-1074))))
    by (unfold Qdiv; apply Qmult_comp; [symmetry; exact H | reflexivity]).
  reflexivity.
Qed.

Lemma binary64_fixes_representable (a : Q) :
  (0 < a)%Q -> Py.representable a -> (Py.binary64 a == a)%Q.
Proof.
  intros P [m E]. rewrite (binary64_pos_eq a P).
  assert (Pe := pow2_pos (Py.ulp_exponent a)).
  rewrite (round_half_even_int _ m).
  - symmetry. exact E.
  - apply Qmult_inj_r with (Py.pow2 (Py.ulp_exponent a)).
    + intros Z0. rewrite Z0 in Pe. discriminate.
    + rewrite div_pow2_mul. exact E.
Qed.

Lemma ilog2_lt_pow2 (x : Q) (j : Z) :
  (0 < x)%Q -> (x < Py.pow2 j)%Q -> Py.ilog2 x < j.
Proof.
  intros P H. destruct (ilog2_spec x P) as [L _].
  apply pow2_lt_inv. eapply Qle_lt_trans; eassumption.
Qed.

Lemma ilog2_ge_pow2 (x : Q) (j : Z) :
  (Py.pow2 j <= x)%Q -> j <= Py.ilog2 x.
Proof.
  intros H.
  assert (P : (0 < x)%Q) by (eapply Qlt_le_trans; [apply pow2_pos | exact H]).
  destruct (ilog2_spec x P) as [_ U].
  assert (j < Py.ilog2 x + 1); [|lia].
  apply pow2_lt_inv. eapply Qle_lt_trans; eassumption.
Qed.

(** What [binary64] returns is a double. *)
Lemma binary64_representable (x : Q) :
  (0 < x)%Q -> (0 < Py.binary64 x)%Q -> Py.representable (Py.binary64 x).
Proof.
  intros P PY. unfold Py.representable.
  revert PY. rewrite (binary64_pos_eq x P), (ilog2_pos_ulp x P).
  set (l := Py.ilog2 x). set (e := Z.max (l - 52) (-1074)).
  set (r := Py.round_half_even (x / Py.pow2 e)).
  intros PY.
  assert (Pe := pow2_pos e).
  destruct (ilog2_spec x P) as [L U]. fold l in L, U.
  assert (R0 : 0 < r).
  { rewrite Zlt_Qlt. apply (Qmult_lt_r _ _ (Py.pow2 e) Pe).
    now rewrite Qmult_0_l. }
  set (y := (inject_Z r * Py.pow2 e)%Q) in *.
  assert (Scale : forall j, e <= j ->
            (Py.pow2 j == inject_Z (2 ^ (j - e)) * Py.pow2 e)%Q).
  { intros j J. rewrite <- pow2_nonneg, <- pow2_add by lia.
    now replace (j - e + e) with j by lia. }
  destruct (Z_le_gt_dec (-1074) (l - 52)) as [Normal|Sub].
  - assert (E : e = l - 52) by (unfold e; lia).
    assert (Rlo : 2 ^ 52 <= r).
    { apply round_half_even_ge. apply Qle_shift_div_l; [exact Pe|].
      replace 52 with (l - e) by lia.
      rewrite <- (Scale l) by lia. exact L. }
    assert (Rhi : r <= 2 ^ 53).
    { apply round_half_even_le. apply Qle_shift_div_r; [exact Pe|].
      replace 53 with (l + 1 - e) by lia.
      rewrite <- (Scale (l + 1)) by lia. apply Qlt_le_weak. exact U. }
    assert (Ylo : (Py.pow2 l <= y)%Q).
    { rewrite (Scale l) by lia. unfold y.
      apply Qmult_le_compat_r; [|apply Qlt_le_weak; exact Pe].
      rewrite <- Zle_Qle. replace (l - e) with 52 by lia. exact Rlo. }
    destruct (Z.eq_dec r (2 ^ 53)) as [Top|NotTop].
    + assert (Y : (y == Py.pow2 (l + 1))%Q).
      { rewrite (Scale (l + 1)) by lia. unfold y.
        replace (l + 1 - e) with 53 by lia. now rewrite Top. }
      assert (I : Py.ilog2 y = l + 1).
      { rewrite (ilog2_Qeq (Py.pow2 (l + 1)) y (pow2_pos _))
          by (symmetry; exact Y).
        apply ilog2_pow2. }
      rewrite (ilog2_pos_ulp y PY), I.
      exists (2 ^ 52). rewrite Y.
      rewrite <- pow2_nonneg, <- pow2_add by lia.
      now replace (52 + Z.max (l + 1 - 52) (-1074)) with (l + 1) by lia.
    + assert (I : Py.ilog2 y = l).
      { apply ilog2_unique. split; [exact Ylo|].
        rewrite (Scale (l + 1)) by lia. unfold y.
        apply Qmult_lt_compat_r; [exact Pe|].
        rewrite <- Zlt_Qlt. replace (l + 1 - e) with 53 by lia. lia. }
      rewrite (ilog2_pos_ulp y PY), I. fold e.
      exists r. reflexivity.
  - assert (E : e = -1074) by (unfold e; lia).
    assert (Rhi : r <= 2 ^ 52).
    { apply round_half_even_le. apply Qle_shift_div_r; [exact Pe|].
      replace 52 with (-1022 - e) by lia.
      rewrite <- (Scale (-1022)) by lia.
      apply Qle_trans with (Py.pow2 (l + 1)); [apply Qlt_le_weak; exact U|].
      apply pow2_le. lia. }
    assert (I : Py.ilog2 y <= -1022).
    { destruct (Z.eq_dec r (2 ^ 52)) as [Top|NotTop].
      - assert (Y : (y == Py.pow2 (-1022))%Q).
        { rewrite (Scale (-1022)) by lia. unfold y.
          replace (-1022 - e) with 52 by lia. now rewrite Top. }
        rewrite (ilog2_Qeq (Py.pow2 (-1022)) y (pow2_pos _))
          by (symmetry; exact Y).
        rewrite ilog2_pow2. lia.
      - assert (Py.ilog2 y < -1022); [|lia].
        apply ilog2_lt_pow2; [exact PY|].
        rewrite (Scale (-1022)) by lia. unfold y.
        apply Qmult_lt_compat_r; [exact Pe|].
        rewrite <- Zlt_Qlt. replace (-1022 - e) with 52 by lia. lia. }
    rewrite (ilog2_pos_ulp y PY).
    replace (Z.max (Py.ilog2 y - 52) (-1074)) with e by lia.
    exists r. reflexivity.
Qed.

(** *** The digits written for a double *)

(** With 1074 decimals or more, a double is written exactly. *)
Lemma exact_decimal (a : Q) (e : Z) :
  Py.representable a -> e <= -1074 ->
  exists N : Z, (a / pow10 e == inject_Z N)%Q.
Proof.
  intros [m E] Le.
  assert (Ea : -1074 <= Py.ulp_exponent a) by (unfold Py.ulp_exponent; lia).
  set (ea := Py.ulp_exponent a) in *.
  exists (m * 2 ^ (ea - e) * 5 ^ (- e)).
  assert (P := pow10_pos e).
  apply Qmult_inj_r with (pow10 e).
  { intros Z0. rewrite Z0 in P. discriminate. }
  rewrite div_pow10_mul, E.
  rewrite !inject_Z_mult, <- (pow2_nonneg (ea - e)) by lia.
  assert (T : (inject_Z (5 ^ (- e)) * pow10 e == Py.pow2 e)%Q).
  { assert (P2 := pow2_pos (- e)).
    apply Qmult_inj_r with (Py.pow2 (- e)).
    { intros Z0. rewrite Z0 in P2. discriminate. }
    rewrite <- pow2_add. replace (e + - e) with 0 by lia.
    rewrite (pow2_nonneg (- e)) by lia.
    change (Py.pow2 0) with 1%Q.
    rewrite <- Qmult_assoc, (Qmult_comm (pow10 e)), Qmult_assoc.
    rewrite <- inject_Z_mult, <- Z.pow_mul_l.
    change (5 * 2) with 10. rewrite <- pow10_nonneg by lia.
    rewrite <- pow10_add. replace (- e + e) with 0 by lia. reflexivity. }
  rewrite <- !Qmult_assoc, T, <- pow2_add.
  replace (ea - e + e) with ea by lia. reflexivity.
Qed.

Lemma reads_back_exact (a : Q) (e : Z) :
  (0 < a)%Q -> Py.representable a -> e <= -1074 ->
  reads_back a (Py.round_half_even (a / pow10 e)) e = true.
Proof.
  intros P R Le. destruct (exact_decimal a e R Le) as [N E].
  unfold reads_back. apply Qeq_bool_iff.
  rewrite (round_half_even_int _ N E).
  assert (V : (a == inject_Z N * pow10 e)%Q)
    by (rewrite <- E, div_pow10_mul; reflexivity).
  rewrite (binary64_Qeq a _ P V).
  now apply binary64_fixes_representable.
Qed.

Lemma shortest_reads_back (a : Q) :
  (0 < a)%Q -> Py.representable a ->
  forall (fuel : nat) (n : Z),
    decimal_exponent a - (n + Z.of_nat fuel) <= -1074 ->
    reads_back a (fst (shortest a fuel n)) (snd (shortest a fuel n)) = true.
Proof.
  intros P R. induction fuel as [|fuel IH]; intros n H;
    cbn [shortest]; cbv zeta.
  - cbn [fst snd]. apply reads_back_exact; [assumption..|]. lia.
  - destruct (reads_back a (Py.round_half_even
                              (a / pow10 (decimal_exponent a - n)))
                         (decimal_exponent a - n)) eqn:T1; [exact T1|].
    destruct (reads_back a (Qfloor (a / pow10 (decimal_exponent a - n)))
                         (decimal_exponent a - n)) eqn:T2; [exact T2|].
    destruct (reads_back a (Qfloor (a / pow10 (decimal_exponent a - n)) + 1)
                         (decimal_exponent a - n)) eqn:T3; [exact T3|].
    apply IH. lia.
Qed.

Lemma decimal_exponent_bound (a : Q) :
  (0 < a)%Q -> (a < Py.pow2 1024)%Q -> decimal_exponent a <= 310.
Proof.
  intros P H. pose proof (ilog2_lt_pow2 a 1024 P H) as L.
  unfold decimal_exponent.
  assert (Py.ilog2 a * 30103 / 100000 <= 308).
  { apply Z.div_le_upper_bound; lia. }
  destruct (Qle_bool _ _); [lia|]. destruct (Qle_bool _ _); lia.
Qed.

Lemma binary64_nonpos (x : Q) : (x <= 0)%Q -> (Py.binary64 x <= 0)%Q.
Proof.
  intro H. unfold Py.binary64. destruct (Qeq_bool x 0); [apply Qle_refl|].
  cbv zeta. assert (P := pow2_pos (Py.ulp_exponent x)).
  assert (R : Py.round_half_even (x / Py.pow2 (Py.ulp_exponent x)) <= 0).
  { apply round_half_even_le. apply Qle_shift_div_r; [exact P|].
    change (inject_Z 0) with 0%Q. now rewrite Qmult_0_l. }
  rewrite Zle_Qle in R. change (inject_Z 0) with 0%Q in R.
  apply Qle_trans with (0 * Py.pow2 (Py.ulp_exponent x))%Q;
    [|rewrite Qmult_0_l; apply Qle_refl].
  apply Qmult_le_compat_r; [exact R | apply Qlt_le_weak; exact P].
Qed.

Lemma reads_back_pos (a : Q) (d e : Z) :
  (0 < a)%Q -> reads_back a d e = true -> 0 < d.
Proof.
  intros P R. apply Qeq_bool_iff in R.
  destruct (Z_lt_le_dec 0 d) as [G|Le]; [exact G|exfalso].
  assert (N : (inject_Z d * pow10 e <= 0)%Q).
  { apply Qle_trans with (0 * pow10 e)%Q;
      [|rewrite Qmult_0_l; apply Qle_refl].
    apply Qmult_le_compat_r; [|apply Qlt_le_weak, pow10_pos].
    change 0%Q with (inject_Z 0). now rewrite <- Zle_Qle. }
  apply binary64_nonpos in N. rewrite R in N.
  exact (Qlt_not_le _ _ P N).
Qed.

Lemma strip_zeros_value (fuel : nat) :
  forall d e : Z,
    0 < d ->
    0 < fst (strip_zeros fuel d e)
    /\ (inject_Z (fst (strip_zeros fuel d e))
        * pow10 (snd (strip_zeros fuel d e))
        == inject_Z d * pow10 e)%Q.
Proof.
  induction fuel as [|fuel IH]; intros d e P; cbn [strip_zeros].
  - split; [exact P | reflexivity].
  - destruct (d mod 10 =? 0) eqn:M; [|split; [exact P | reflexivity]].
    apply Z.eqb_eq in M.
    assert (D : d = 10 * (d / 10)) by (apply Z_div_exact_2; lia).
    destruct (IH (d / 10) (e + 1) ltac:(lia)) as [P' V].
    split; [exact P'|]. rewrite V, pow10_add.
    rewrite D at 2. rewrite inject_Z_mult.
    change (pow10 1) with 10%Q. change (inject_Z 10) with 10%Q. ring.
Qed.

(** *** A double written, then read *)

Lemma binary64_idempotent (x : Q) :
  (0 <= x)%Q -> (Py.binary64 (Py.binary64 x) == Py.binary64 x)%Q.
Proof.
  intros X0.
  destruct (Qle_lt_or_eq _ _ (binary64_nonneg x X0)) as [Y0|Y0].
  - destruct (Qle_lt_or_eq _ _ X0) as [X|X].
    + apply binary64_fixes_representable; [exact Y0|].
      now apply binary64_representable.
    + rewrite (binary64_zero x) by (symmetry; exact X). reflexivity.
  - rewrite (binary64_zero (Py.binary64 x)) by (symmetry; exact Y0).
    exact Y0.
Qed.

(** A double that is not negative is written as a decimal that reads back
    as the same double. *)
Lemma read_value_float_back (x : Q) (rest : string) :
  separated rest -> (0 <= x)%Q -> (Py.binary64 x < Py.pow2 1024)%Q ->
  exists y,
    read_value (float_repr x ++ rest) = Some (Py.Float y, rest)
    /\ (y == Py.binary64 x)%Q.
Proof.
  intros Sep X0 Hi. unfold float_repr.
  destruct (Qeq_bool (Py.binary64 x) 0) eqn:Zr.
  - apply Qeq_bool_iff in Zr.
    change ("0.0" ++ rest)%string with ("0" ++ String "." ("0" ++ rest))%string.
    eexists. split.
    + rewrite (read_value_unsigned _ _ _
                 (lex_unsigned_fraction false "0" "0" rest
                    (or_introl eq_refl) eq_refl ltac:(discriminate) Sep)).
      reflexivity.
    + rewrite Zr. vm_compute. reflexivity.
  - assert (Y0 : (0 < Py.binary64 x)%Q).
    { destruct (Qle_lt_or_eq _ _ (binary64_nonneg x X0)) as [G|E];
        [exact G|].
      symmetry in E. apply Qeq_bool_iff in E. congruence. }
    assert (X : (0 < x)%Q).
    { destruct (Qle_lt_or_eq _ _ X0) as [G|E]; [exact G|].
      rewrite (binary64_zero x) in Y0 by (symmetry; exact E).
      discriminate. }
    pose proof (binary64_representable x X Y0) as R.
    rewrite (Qabs_of_pos _ Y0).
    set (a := Py.binary64 x) in *.
    assert (RB : reads_back a (fst (shortest a 1400 1))
                           (snd (shortest a 1400 1)) = true).
    { apply shortest_reads_back; [exact Y0 | exact R|].
      pose proof (decimal_exponent_bound a Y0 Hi).
      change (Z.of_nat 1400) with 1400. lia. }
    destruct (shortest a 1400 1) as [d0 e0]. cbn [fst snd] in RB.
    pose proof (reads_back_pos a d0 e0 Y0 RB) as D0.
    destruct (strip_zeros_value 17 d0 e0 D0) as [Dp V].
    destruct (strip_zeros 17 d0 e0) as [d e]. cbn [fst snd] in Dp, V.
    rewrite (proj2 (Qle_bool_iff 0 a) (Qlt_le_weak _ _ Y0)).
    change (digits_of d) with (digits_of (Z.pos (Z.to_pos d))).
    set (len := Z.of_nat (String.length (digits_of (Z.pos (Z.to_pos d))))).
    destruct (lex_place_point false (Z.to_pos d) (len + e) rest Sep)
      as (n & L & Ng & F & Val).
    exists (Py.binary64 (number_decimal n)). split.
    + rewrite <- (number_value_float n F). now apply read_value_unsigned.
    + assert (ND : (inject_Z d0 * pow10 e0 == number_decimal n)%Q).
      { unfold number_decimal. rewrite Ng, Z.mul_1_l, Val.
        replace (len + e
                 - Z.of_nat (String.length (digits_of (Z.pos (Z.to_pos d)))))
          with e by (unfold len; lia).
        rewrite Z2Pos.id by exact Dp. symmetry. exact V. }
      assert (P0 : (0 < inject_Z d0 * pow10 e0)%Q).
      { apply Qmult_lt_0_compat; [|apply pow10_pos].
        change 0%Q with (inject_Z 0). now rewrite <- Zlt_Qlt. }
      rewrite (binary64_Qeq _ _ P0 ND).
      apply Qeq_bool_iff. exact RB.
Qed.

(** The rate of a running controller is a double between 0 and 100. *)
Lemma success_rate_of_is_double (successful total : Z) :
  0 <= successful <= total ->
  (Py.binary64 (success_rate_of successful total)
   == success_rate_of successful total)%Q.
Proof.
  intros [Lo Hi]. unfold success_rate_of, Py.float_mul, Py.int_truediv.
  apply binary64_idempotent.
  apply Qmult_le_0_compat; [|discriminate].
  apply binary64_nonneg.
  apply Qle_shift_div_l; [rewrite <- (Zlt_Qlt 0); lia|].
  rewrite Qmult_0_l. now rewrite <- (Zle_Qle 0).
Qed.
(** *** Members *)

Lemma read_value_encode (v : Py.value) (rest : string) :
  separated rest ->
  exists v',
    read_value (encode_value v ++ rest) = Some (v', rest) /\ reads_as v v'.
Proof.
  intros S. destruct v as [n|x|s]; cbn [encode_value reads_as].
  - exists (Py.Int n). split; [now apply read_value_int | reflexivity].
  - destruct (read_value_float x rest S) as [y R].
    exists (Py.Float y). split; [exact R|]. exists y. split; [reflexivity|].
    intros X0 Hi.
    destruct (read_value_float_back x rest S X0 Hi) as (y' & R' & E).
    rewrite R in R'. now injection R' as ->.
  - exists (Py.Str s). split; [apply read_value_string | reflexivity].
Qed.

Lemma read_value_no_space (s : string) :
  read_value s <> None -> skip_ws s = s.
Proof.
  destruct s as [|c t]; [reflexivity|].
  destruct c as [[] [] [] [] [] [] [] []]; intros R;
    try reflexivity; exfalso; apply R; reflexivity.
Qed.

Lemma encode_item_app (k : string) (v : Py.value) (rest : string) :
  (encode_item (k, v) ++ rest)%string
  = String quote
      (escape k
       ++ String quote (String ":" (String " " (encode_value v ++ rest))))%string.
Proof.
  unfold encode_item, encode_string. cbn [fst snd append].
  rewrite !string_app_assoc. cbn [append]. reflexivity.
Qed.

(** One member, then what [json.load] does with what follows it. *)
Lemma read_members_item (fuel : nat) (k : string) (v v' : Py.value)
  (rest : string) (d : Py.dict) :
  read_value (encode_value v ++ rest) = Some (v', rest) ->
  read_members (S fuel) (encode_item (k, v) ++ rest) d
  = match skip_ws rest with
    | String sep r4 =>
        if (nat_of_ascii sep =? 125)%nat then Some (Py.set d k v', r4)
        else if (nat_of_ascii sep =? 44)%nat
        then read_members fuel (skip_ws r4) (Py.set d k v')
        else None
    | EmptyString => None
    end.
Proof.
  intros R. rewrite encode_item_app. cbn [read_members].
  change (nat_of_ascii quote =? 34)%nat with true. cbv iota.
  rewrite read_string_body_escape.
  change (skip_ws (String ":" (String " " (encode_value v ++ rest))))
    with (String ":" (String " " (encode_value v ++ rest))).
  change (nat_of_ascii ":" =? 58)%nat with true. cbv iota.
  change (skip_ws (String " " (encode_value v ++ rest)))
    with (skip_ws (encode_value v ++ rest)).
  rewrite read_value_no_space by (rewrite R; discriminate).
  rewrite R. reflexivity.
Qed.

Lemma encode_items_cons (kv kv2 : string * Py.value)
  (items : list (string * Py.value)) :
  encode_items (kv :: kv2 :: items)
  = (encode_item kv ++ String "," (String newline "  ")
     ++ encode_items (kv2 :: items))%string.
Proof. reflexivity. Qed.

Lemma encode_items_head (kv : string * Py.value)
  (items : list (string * Py.value)) :
  exists t, encode_items (kv :: items) = String quote t.
Proof.
  destruct items as [|kv2 items]; [|rewrite encode_items_cons];
    unfold encode_items, encode_item, encode_string; cbn [append];
    eexists; reflexivity.
Qed.

Lemma read_members_encode (items : list (string * Py.value)) :
  forall (kv : string * Py.value) (d : Py.dict) (fuel : nat) (tail : string),
    (length items < fuel)%nat ->
    exists items',
      Forall2 item_reads_as (kv :: items) items'
      /\ read_members fuel
           (encode_items (kv :: items) ++ String newline (String "}" tail)) d
         = Some (Py.update d items', tail).
Proof.
  induction items as [|kv2 items IH]; intros [k v] d fuel tail F;
    (destruct fuel as [|fuel]; [cbn in F; lia|]).
  - cbn [encode_items].
    destruct (read_value_encode v (String newline (String "}" tail))
                (separated_newline _)) as (v' & R & A).
    rewrite (read_members_item _ _ _ _ _ _ R).
    exists [(k, v')]. split; [|reflexivity].
    constructor; [split; [reflexivity | exact A] | constructor].
  - rewrite encode_items_cons, !string_app_assoc. cbn [append].
    set (next := (encode_items (kv2 :: items)
                  ++ String newline (String "}" tail))%string).
    destruct (read_value_encode v
                (String "," (String newline (String " " (String " " next))))
                (separated_comma _)) as (v' & R & A).
    rewrite (read_members_item _ _ _ _ _ _ R).
    change (skip_ws (String "," (String newline
                                   (String " " (String " " next)))))
      with (String "," (String newline (String " " (String " " next)))).
    change (nat_of_ascii "," =? 125)%nat with false.
    change (nat_of_ascii "," =? 44)%nat with true. cbv iota.
    change (skip_ws (String newline (String " " (String " " next))))
      with (skip_ws next).
    assert (W : skip_ws next = next).
    { unfold next. destruct (encode_items_head kv2 items) as [t ->].
      reflexivity. }
    rewrite W. unfold next.
    destruct (IH kv2 (Py.set d k v') fuel tail ltac:(cbn in F; lia))
      as (items' & Rel & Read).
    exists ((k, v') :: items'). split; [|exact Read].
    constructor; [split; [reflexivity | exact A] | exact Rel].
Qed.

Lemma length_encode_items (kv : string * Py.value)
  (items : list (string * Py.value)) :
  (length items < String.length (encode_items (kv :: items)))%nat.
Proof.
  revert kv. induction items as [|kv2 items IH]; intros kv.
  - destruct (encode_items_head kv []) as [t ->]. cbn. lia.
  - rewrite encode_items_cons.
    destruct (encode_item kv) as [|c s]; cbn [append String.length length];
      specialize (IH kv2);
      rewrite ?string_length_app; cbn [String.length]; lia.
Qed.

(** What [json.dump] writes, [json.load] reads: the same keys in the same
    order, every [int] and [str] as it was, every [float] as a [float]. *)
Lemma json_load_dump (d : Py.dict) :
  exists d',
    Forall2 item_reads_as d d'
    /\ json_load (json_dump d) = Some (Py.update [] d').
Proof.
  destruct d as [|kv items].
  - exists []. split; [constructor | reflexivity].
  - unfold json_dump.
    set (text := (String "{" (String newline "  ")
                  ++ encode_items (kv :: items)
                  ++ String newline "}")%string).
    destruct (read_members_encode items kv [] (String.length text)
                EmptyString) as (d' & Rel & Read).
    { unfold text. cbn [append String.length].
      rewrite string_length_app.
      pose proof (length_encode_items kv items). lia. }
    exists d'. split; [exact Rel|].
    unfold json_load.
    destruct (encode_items_head kv items) as [t Ht].
    assert (E : skip_ws text
                = String "{" (String newline (String " " (String " "
                    (String quote (t ++ String newline "}")))))).
    { unfold text. rewrite Ht. reflexivity. }
    rewrite E.
    change (nat_of_ascii "{" =? 123)%nat with true. cbv iota.
    change (skip_ws (String newline (String " " (String " "
              (String quote (t ++ String newline "}"))))))
      with (String quote (t ++ String newline "}")).
    change (nat_of_ascii quote =? 125)%nat with false. cbv iota.
    change (String quote (t ++ String newline "}"))
      with (String quote t ++ String newline "}")%string.
    rewrite <- Ht, Read. reflexivity.
Qed.

Lemma get_statistics_items (s : controller) (now : Py.datetime) :
  get_statistics s now
  = [("total_triggers", Py.Int (total_triggers (stats s)));
     ("successful_captures", Py.Int (successful_captures (stats s)));
     ("failed_captures", Py.Int (failed_captures (stats s)));
     ("session_start", Py.Str (session_start (stats s)));
     ("uptime_seconds",
      Py.Float (Py.total_seconds now (session_start_time s)));
     ("success_rate_percent", Py.Float (success_rate s));
     ("current_status",
      Py.Str (if is_capturing s then "capturing" else "ready"))].
Proof. reflexivity. Qed.

(** The file [save_statistics] writes for any controller loads back, with
    the three counters as the controller holds them; the two floats come
    back as the doubles nearest to them. *)
Lemma saved_statistics_load (s : controller) (now : Py.datetime) :
  exists d uptime rate,
    json_load (json_dump (get_statistics s now)) = Some d
    /\ d = [("total_triggers", Py.Int (total_triggers (stats s)));
            ("successful_captures", Py.Int (successful_captures (stats s)));
            ("failed_captures", Py.Int (failed_captures (stats s)));
            ("session_start", Py.Str (session_start (stats s)));
            ("uptime_seconds", Py.Float uptime);
            ("success_rate_percent", Py.Float rate);
            ("current_status",
             Py.Str (if is_capturing s then "capturing" else "ready"))]
    /\ reads_as (Py.Float (Py.total_seconds now (session_start_time s)))
                (Py.Float uptime)
    /\ reads_as (Py.Float (success_rate s)) (Py.Float rate).
Proof.
  destruct (json_load_dump (get_statistics s now)) as (d' & Rel & Load).
  rewrite get_statistics_items in Rel.
  repeat match goal with
         | H : Forall2 _ (_ :: _) _ |- _ => inversion H; subst; clear H
         | H : Forall2 _ [] _ |- _ => inversion H; subst; clear H
         end.
  repeat match goal with
         | H : item_reads_as _ ?kv |- _ =>
             destruct kv; destruct H as [? ?]; cbn [fst snd] in *
         end.
  subst.
  repeat match goal with
         | H : reads_as (Py.Int _) _ |- _ => cbn [reads_as] in H; subst
         | H : reads_as (Py.Str _) _ |- _ => cbn [reads_as] in H; subst
         end.
  repeat match goal with
         | H : reads_as (Py.Float _) ?v |- _ =>
             is_var v; let E := fresh "E" in
             pose proof H as E; cbn [reads_as] in E;
             destruct E as (? & -> & _)
         end.
  do 3 eexists. split; [exact Load|]. split; [reflexivity|].
  split; assumption.
Qed.

(** The rates CPython prints for a few pairs of counters, and the model
    with them. *)
Example success_rate_percent_as_written :
  float_repr (success_rate_of 7 25) = "28.000000000000004"
  /\ float_repr (success_rate_of 1 3) = "33.33333333333333"
  /\ float_repr (success_rate_of 2 3) = "66.66666666666666"
  /\ float_repr (success_rate_of 1 7) = "14.285714285714285"
  /\ float_repr (success_rate_of 1 1) = "100.0"
  /\ float_repr (success_rate_of 0 0) = "0.0".
Proof. vm_compute. repeat split. Qed.

(** C7, as stated, fails: after one trigger and one successful capture the
    file holds total_triggers 1 and successful_captures 1, from which the
    spec's success_rate is 1 / max(1, 1) = 1, while the
    success_rate_percent in the file is 100. *)
Lemma saved_rate_is_not_the_spec_rate :
  exists text written,
    fst (save_statistics after_one_success session_now None)
    = Some ("/home/pi/aerial_photos/session_stats.json", text)
    /\ text = one_success_stats_file
    /\ reload_counters text = Some (1, 1, 0)
    /\ reload_rate text = Some written
    /\ (written == 100)%Q
    /\ (spec_success_rate 1 1 == 1)%Q
    /\ ~ (spec_success_rate 1 1 == written)%Q.
Proof.
  eexists. eexists. split; [vm_compute; reflexivity|].
  split; [vm_compute; reflexivity|].
  split; [vm_compute; reflexivity|].
  split; [vm_compute; reflexivity|].
  split; [vm_compute; reflexivity|].
  split; [vm_compute; reflexivity|].
  vm_compute. discriminate.
Qed.

(** C7, amended. When the write goes through, the text [save_statistics]
    leaves at [photo_directory]/session_stats.json loads back as a
    dictionary with the three counters exactly as the controller holds
    them, and with the [success_rate_percent] that was written.  That
    value is not the spec's success_rate of those counters but 100 times
    it, in double precision: successful_captures / max(total_triggers, 1)
    rounded to a double, times 100, rounded again; up to 2^1022 triggers
    that is within a factor (1 - 2^-53)^2 to (1 + 2^-53)^2 of
    100 * success_rate. *)
Theorem saved_statistics_read_back (pin : Z) (led : option Z)
  (now now' : Py.datetime) (y : system) :
  reachable (boot pin led now) y ->
  let s := ctl y in
  let total := total_triggers (stats s) in
  let successful := successful_captures (stats s) in
  let failed := failed_captures (stats s) in
  exists text d written reloaded,
    fst (save_statistics s now' None)
    = Some (Py.os_path_join (photo_directory s) "session_stats.json", text)
    /\ json_load text = Some d
    /\ Py.get d "total_triggers" = Some (Py.Int total)
    /\ Py.get d "successful_captures" = Some (Py.Int successful)
    /\ Py.get d "failed_captures" = Some (Py.Int failed)
    /\ reload_counters text = Some (total, successful, failed)
    /\ Py.get (get_statistics s now') "success_rate_percent"
       = Some (Py.Float written)
    /\ reload_rate text = Some reloaded
    /\ (reloaded == written)%Q
    /\ written
       = Py.binary64 (Py.binary64 (spec_success_rate successful total) * 100)
    /\ (total <= 2 ^ 1022 ->
        (spec_success_rate successful total * 100
         * ((1 - Py.unit_roundoff) * (1 - Py.unit_roundoff))
         <= written
         <= spec_success_rate successful total * 100
            * ((1 + Py.unit_roundoff) * (1 + Py.unit_roundoff)))%Q).
Proof.
  intros R s total successful failed.
  apply reachable_counters_ok in R. destruct R as (Ok & Ko & Le).
  fold s in Ok, Ko, Le. fold successful in Ok, Le. fold total in Le.
  destruct (saved_statistics_load s now')
    as (d & uptime & rate & Load & D & _ & y' & Ry & Rate).
  injection Ry as ->.
  exists (json_dump (get_statistics s now')), d, (success_rate s), y'.
  split; [reflexivity|]. split; [exact Load|].
  assert (T : Py.get d "total_triggers" = Some (Py.Int total))
    by (rewrite D; reflexivity).
  assert (S : Py.get d "successful_captures" = Some (Py.Int successful))
    by (rewrite D; reflexivity).
  assert (F : Py.get d "failed_captures" = Some (Py.Int failed))
    by (rewrite D; reflexivity).
  split; [exact T|]. split; [exact S|]. split; [exact F|].
  split; [unfold reload_counters; rewrite Load, T, S, F; reflexivity|].
  split; [reflexivity|].
  split; [unfold reload_rate; rewrite Load, D; reflexivity|].
  assert (B : (0 <= success_rate s <= 100)%Q)
    by (apply success_rate_of_bounds; fold successful; fold total; lia).
  assert (Fix : (Py.binary64 (success_rate s) == success_rate s)%Q).
  { apply success_rate_of_is_double. fold successful. fold total. lia. }
  split.
  { rewrite <- Fix. apply Rate; [apply B|]. rewrite Fix.
    apply Qle_lt_trans with 100%Q; [apply B | reflexivity]. }
  split; [reflexivity|].
  intros Small. unfold success_rate, success_rate_of, spec_success_rate.
  fold successful. fold total.
  destruct (Z.eq_dec total 0) as [Z0|NZ].
  - assert (E : successful = 0) by lia. rewrite E, Z0.
    vm_compute. split; discriminate.
  - replace (Z.max total 1) with total by lia.
    apply success_rate_of_error; lia.
Qed.

Lemma saved_statistics_read_back_witness :
  exists y text,
    run (boot 18 (Some 24) session_now) seven_of_25 = Some y
    /\ fst (save_statistics (ctl y) session_later None)
       = Some ("/home/pi/aerial_photos/session_stats.json", text)
    /\ text = seven_of_25_stats_file
    /\ reload_counters text = Some (25, 7, 18)
    /\ Py.get (get_statistics (ctl y) session_later) "success_rate_percent"
       = Some (Py.Float
                 (Py.binary64 (Py.binary64 (spec_success_rate 7 25) * 100)))
    /\ exists reloaded,
         reload_rate text = Some reloaded
         /\ (reloaded
             == Py.binary64 (Py.binary64 (spec_success_rate 7 25) * 100))%Q
         /\ (reloaded == 7881299347898369 # 281474976710656)%Q.
Proof.
  destruct (run (boot 18 (Some 24) session_now) seven_of_25) as [y|] eqn:R;
    [|vm_compute in R; discriminate].
  pose proof (reachable_run _ _ y seven_of_25
                (reachable_refl (boot 18 (Some 24) session_now)) R) as Reach.
  destruct (saved_statistics_read_back 18 (Some 24) session_now session_later
              y Reach)
    as (text & d & written & reloaded
        & Save & _ & _ & _ & _ & Counters & Rate & Back & Same & W & _).
  exists y, text. split; [reflexivity|].
  vm_compute in R. injection R as <-.
  assert (E : text = seven_of_25_stats_file).
  { vm_compute in Save. injection Save as <-. vm_compute. reflexivity. }
  split; [rewrite Save, E; vm_compute; reflexivity|].
  split; [exact E|].
  split; [exact Counters|].
  split; [rewrite Rate, W; reflexivity|].
  exists reloaded. split; [exact Back|].
  split; [rewrite Same, W; reflexivity|].
  rewrite Same, W. vm_compute. reflexivity.
Defined.

(** ** Single flight *)

(** C8 fails on the code: with two edges 200 ms apart and the first thread
    slow to run its first statement, both are dispatched; two attempts are
    then in flight, and when the first one ends [is_capturing] is false
    while the second is still in flight. *)
Theorem late_start_overlaps_attempts :
  option_map (fun y => (is_capturing (ctl y), length (in_flight y)))
             (run (boot 18 (Some 24) session_now) late_start)
  = Some (true, 2%nat)
  /\ option_map (fun y => (is_capturing (ctl y), length (in_flight y)))
                (run (boot 18 (Some 24) session_now)
                     (late_start ++ [Leave 0 camera_ok]))
     = Some (false, 1%nat).
Proof. split; vm_compute; reflexivity. Qed.

(** C10. [capture_count] and [stats['successful_captures']] are both 0 after
    construction, the callback and [execute_capture] each keep them equal,
    and so they are equal in every state the controller can reach. *)
Theorem capture_count_is_successful_captures :
  (forall pin led now,
      capture_count (init pin led now) = 0
      /\ successful_captures (stats (init pin led now)) = 0)
  /\ (forall s clock channel,
         capture_count s = successful_captures (stats s) ->
         capture_count (fst (pixhawk_trigger_callback s clock channel))
         = successful_captures
             (stats (fst (pixhawk_trigger_callback s clock channel))))
  /\ (forall s n clock w,
         capture_count s = successful_captures (stats s) ->
         capture_count (fst (execute_capture s n clock w))
         = successful_captures (stats (fst (execute_capture s n clock w))))
  /\ (forall pin led now y,
         reachable (boot pin led now) y ->
         capture_count (ctl y) = successful_captures (stats (ctl y))).
Proof.
  split; [|split; [|split]].
  - intros pin led now. split; reflexivity.
  - intros s clock channel E.
    destruct (callback_cases s clock channel)
      as [[_ C]|[(_ & _ & C)|(_ & _ & C)]]; rewrite C; exact E.
  - intros s n clock w E.
    change (execute_capture s n clock w)
      with (execute_capture_rest (set_is_capturing true s) n clock w).
    destruct (rest_counts_once (set_is_capturing true s) n clock w)
      as [(-> & _ & ->)|(-> & _ & ->)]; cbn; lia.
  - intros pin led now.
    apply (reachable_invariant counts_agree); [reflexivity|].
    exact step_counts_agree.
Qed.

Lemma capture_count_is_successful_captures_witness :
  exists y,
    run (boot 18 (Some 24) session_now) one_success = Some y
    /\ successful_captures (stats (ctl y)) = 1
    /\ capture_count (ctl y) = successful_captures (stats (ctl y)).
Proof.
  destruct (run (boot 18 (Some 24) session_now) one_success) as [y|] eqn:R;
    [|vm_compute in R; discriminate].
  exists y. split; [reflexivity|].
  pose proof (reachable_run _ _ y one_success
                (reachable_refl (boot 18 (Some 24) session_now)) R) as Reach.
  split.
  - vm_compute in R. injection R as <-. reflexivity.
  - destruct capture_count_is_successful_captures as (_ & _ & _ & Always).
    exact (Always 18 (Some 24) session_now y Reach).
Defined.

(** * Further properties *)

(** ** What the log and the counters say of each other *)

Lemma ignored_app (es fs : list effect) :
  ignored (es ++ fs) = (ignored es + ignored fs)%nat.
Proof.
  induction es as [|e es IH]; [reflexivity|].
  destruct e as [lvl r| | |]; cbn; try apply IH.
  destruct r; cbn; now rewrite IH.
Qed.

Lemma ignored_set_status_led (s : controller) (b : bool) :
  ignored (set_status_led s b) = O.
Proof. unfold set_status_led. destruct (Py.truthy _); reflexivity. Qed.

Lemma rest_ignores_none (s : controller) (n : Z) (start_time : Q)
  (w : attempt) :
  ignored (snd (execute_capture_rest s n start_time w)) = O.
Proof.
  attempt_cases;
    unfold blink_status_led, set_status_led;
    destruct (Py.truthy (status_led_pin _)); reflexivity.
Qed.

Lemma callback_outcomes (s : controller) (clock : Q) (channel : Z) :
  outcomes (snd (pixhawk_trigger_callback s clock channel)) = [].
Proof.
  destruct (callback_cases s clock channel)
    as [[_ E]|[(_ & _ & E)|(_ & _ & E)]]; rewrite E; cbn; trivial.
  now rewrite outcomes_app, outcomes_set_status_led.
Qed.

(** One attempt closes with one outcome, the one its counter records. *)
Lemma rest_outcome (s : controller) (n : Z) (start_time : Q) (w : attempt) :
  let s' := fst (execute_capture_rest s n start_time w) in
  let es := snd (execute_capture_rest s n start_time w) in
  (successful_captures (stats s') = successful_captures (stats s) + 1
   /\ failed_captures (stats s') = failed_captures (stats s)
   /\ capture_count s' = capture_count s + 1
   /\ outcomes es = [Success])
  \/ (successful_captures (stats s') = successful_captures (stats s)
      /\ failed_captures (stats s') = failed_captures (stats s) + 1
      /\ capture_count s' = capture_count s
      /\ exists o, is_success o = false /\ outcomes es = [o]).
Proof.
  attempt_cases; [left|right|right|right]; repeat split;
    try (eexists; split; [|rewrite ?outcomes_app, ?outcomes_blink,
                             ?outcomes_set_status_led; reflexivity];
         reflexivity);
    rewrite ?outcomes_app, ?outcomes_blink, ?outcomes_set_status_led;
    reflexivity.
Qed.

(** X1. Every trigger counted is accounted for: it was ignored as busy, or
    its capture thread has not ended, or it ended as a success or as a
    failure. *)
Theorem every_trigger_accounted_for (pin : Z) (led : option Z)
  (now : Py.datetime) (y : system) :
  reachable (boot pin led now) y ->
  total_triggers (stats (ctl y))
  = successful_captures (stats (ctl y)) + failed_captures (stats (ctl y))
    + Z.of_nat (length (workers y)) + Z.of_nat (ignored (emitted y)).
Proof.
  apply (reachable_invariant
           (fun y =>
              total_triggers (stats (ctl y))
              = successful_captures (stats (ctl y))
                + failed_captures (stats (ctl y))
                + Z.of_nat (length (workers y))
                + Z.of_nat (ignored (emitted y)))); [reflexivity|].
  clear y. intros y y' [clock channel|i clock|i w]; cbn.
  - destruct (callback_cases (ctl y) clock channel)
      as [[_ E]|[(_ & _ & E)|(_ & _ & E)]];
      rewrite E; intros H; inversion H; subst; clear H; cbn;
      rewrite ?threads_started_app, ?threads_started_set_status_led,
        ?ignored_app, ?ignored_set_status_led, ?length_app; cbn;
      rewrite ?app_nil_r, ?ignored_app, ?ignored_set_status_led; cbn; lia.
  - destruct (nth_error (workers y) i) as [[m [t|]]|] eqn:N; try discriminate.
    intros H; inversion H; subst; clear H; cbn.
    now rewrite length_replace_nth.
  - destruct (nth_error (workers y) i) as [[m [t|]]|] eqn:N; try discriminate.
    destruct (execute_capture_rest (ctl y) m t w) as [c es] eqn:X.
    intros H; inversion H; subst; clear H; cbn.
    pose proof (rest_counts_once (ctl y) m t w) as C.
    pose proof (rest_frame (ctl y) m t w) as (_ & _ & T & _).
    pose proof (rest_ignores_none (ctl y) m t w) as G.
    rewrite X in C, T, G. cbn in C, T, G.
    apply length_remove_nth in N. rewrite ignored_app, G, T.
    destruct C as [(-> & -> & _)|(-> & -> & _)]; lia.
Qed.

Lemma every_trigger_accounted_for_witness :
  exists y,
    run (boot 18 (Some 24) session_now)
        (late_start ++ [Leave 0 camera_ok; Edge 1700000003 18])
    = Some y
    /\ total_triggers (stats (ctl y)) = 3
    /\ total_triggers (stats (ctl y))
       = successful_captures (stats (ctl y)) + failed_captures (stats (ctl y))
         + Z.of_nat (length (workers y)) + Z.of_nat (ignored (emitted y)).
Proof.
  destruct (run (boot 18 (Some 24) session_now)
                (late_start ++ [Leave 0 camera_ok; Edge 1700000003 18]))
    as [y|] eqn:R; [|vm_compute in R; discriminate].
  exists y. split; [reflexivity|].
  pose proof (reachable_run _ _ y _
                (reachable_refl (boot 18 (Some 24) session_now)) R) as Reach.
  split.
  - vm_compute in R. injection R as <-. reflexivity.
  - exact (every_trigger_accounted_for 18 (Some 24) session_now y Reach).
Defined.

Lemma seq_one_succ (n : Z) :
  0 <= n ->
  map Z.of_nat (seq 1 (Z.to_nat (n + 1)))
  = map Z.of_nat (seq 1 (Z.to_nat n)) ++ [n + 1].
Proof.
  intros N. replace (Z.to_nat (n + 1)) with (S (Z.to_nat n)) by lia.
  rewrite seq_S, map_app. cbn [map]. do 2 f_equal. lia.
Qed.

(** X2. The triggers the callback logs, accepted or ignored, are numbered
    1, 2, ..., [total_triggers], in that order: each counted edge is logged
    once, under the next number, and a bounced edge takes no number. *)
Theorem triggers_are_numbered_in_order (pin : Z) (led : option Z)
  (now : Py.datetime) (y : system) :
  reachable (boot pin led now) y ->
  0 <= total_triggers (stats (ctl y))
  /\ triggers_logged (emitted y)
     = map Z.of_nat (seq 1 (Z.to_nat (total_triggers (stats (ctl y))))).
Proof.
  apply (reachable_invariant
           (fun y =>
              0 <= total_triggers (stats (ctl y))
              /\ triggers_logged (emitted y)
                 = map Z.of_nat
                     (seq 1 (Z.to_nat (total_triggers (stats (ctl y)))))));
    [split; [reflexivity|reflexivity]|].
  clear y. intros y y' e S [N L].
  destruct e as [clock channel|i clock|i w].
  - pose proof (step_edge_view y y' clock channel S) as V.
    unfold debounce_view in V.
    destruct (Py.Qltb _ _); injection V as _ T _ G; rewrite T, G.
    + now split.
    + split; [lia|]. now rewrite L, seq_one_succ.
  - pose proof (step_worker_view y y' (Enter i clock) eq_refl S) as V.
    unfold debounce_view in V. injection V as _ T _ G. rewrite T, G.
    now split.
  - pose proof (step_worker_view y y' (Leave i w) eq_refl S) as V.
    unfold debounce_view in V. injection V as _ T _ G. rewrite T, G.
    now split.
Qed.

Lemma triggers_are_numbered_in_order_witness :
  exists y,
    run (boot 18 (Some 24) session_now)
        (late_start ++ [Edge (170000000125 # 100) 18; Edge 1700000003 18])
    = Some y
    /\ triggers_logged (emitted y) = [1; 2; 3].
Proof.
  destruct (run (boot 18 (Some 24) session_now)
                (late_start ++ [Edge (170000000125 # 100) 18;
                                Edge 1700000003 18]))
    as [y|] eqn:R; [|vm_compute in R; discriminate].
  exists y. split; [reflexivity|].
  pose proof (reachable_run _ _ y _
                (reachable_refl (boot 18 (Some 24) session_now)) R) as Reach.
  destruct (triggers_are_numbered_in_order 18 (Some 24) session_now y Reach)
    as [_ G].
  rewrite G. vm_compute in R. injection R as <-. reflexivity.
Defined.

Lemma successes_app (es fs : list effect) :
  successes (es ++ fs) = (successes es + successes fs)%nat.
Proof.
  unfold successes. now rewrite outcomes_app, filter_app, length_app.
Qed.

Lemma failures_app (es fs : list effect) :
  failures (es ++ fs) = (failures es + failures fs)%nat.
Proof.
  unfold failures. now rewrite outcomes_app, filter_app, length_app.
Qed.

Lemma callback_keeps_captures (s : controller) (clock : Q) (channel : Z) :
  let s' := fst (pixhawk_trigger_callback s clock channel) in
  successful_captures (stats s') = successful_captures (stats s)
  /\ failed_captures (stats s') = failed_captures (stats s)
  /\ capture_count s' = capture_count s.
Proof.
  destruct (callback_cases s clock channel)
    as [[_ E]|[(_ & _ & E)|(_ & _ & E)]]; rewrite E; repeat split.
Qed.

(** X3. The log and the counters agree: [successful_captures] (and
    [capture_count]) is the number of "EXITOSA" records logged, and
    [failed_captures] the number of "FALLO", "TIMEOUT" and "Error
    inesperado" records together. *)
Theorem counters_match_the_log (pin : Z) (led : option Z) (now : Py.datetime)
  (y : system) :
  reachable (boot pin led now) y ->
  successful_captures (stats (ctl y)) = Z.of_nat (successes (emitted y))
  /\ capture_count (ctl y) = Z.of_nat (successes (emitted y))
  /\ failed_captures (stats (ctl y)) = Z.of_nat (failures (emitted y)).
Proof.
  apply (reachable_invariant
           (fun y =>
              successful_captures (stats (ctl y))
              = Z.of_nat (successes (emitted y))
              /\ capture_count (ctl y) = Z.of_nat (successes (emitted y))
              /\ failed_captures (stats (ctl y))
                 = Z.of_nat (failures (emitted y))));
    [repeat split|].
  clear y. intros y y' [clock channel|i clock|i w]; cbn.
  - pose proof (callback_outcomes (ctl y) clock channel) as O.
    pose proof (callback_keeps_captures (ctl y) clock channel) as (S & F & K).
    destruct (pixhawk_trigger_callback (ctl y) clock channel) as [c es].
    cbn [fst snd] in O, S, F, K.
    intros H; inversion H; subst; clear H; cbn [ctl emitted].
    rewrite successes_app, failures_app. unfold successes, failures.
    rewrite O, S, F, K. cbn. now rewrite !Nat.add_0_r.
  - destruct (nth_error (workers y) i) as [[m [t|]]|] eqn:N; try discriminate.
    intros H; inversion H; subst; clear H; cbn. trivial.
  - destruct (nth_error (workers y) i) as [[m [t|]]|] eqn:N; try discriminate.
    destruct (execute_capture_rest (ctl y) m t w) as [c es] eqn:X.
    intros H; inversion H; subst; clear H; cbn [ctl emitted].
    pose proof (rest_outcome (ctl y) m t w) as C.
    rewrite X in C. cbn in C.
    rewrite successes_app, failures_app. unfold successes, failures.
    intros (S & K & F).
    destruct C as [(-> & -> & -> & ->)|(-> & -> & -> & o & B & ->)]; cbn.
    + repeat split; lia.
    + rewrite B. cbn. repeat split; lia.
Qed.

Lemma counters_match_the_log_witness :
  exists y,
    run (boot 18 (Some 24) session_now)
        (late_start ++ [Leave 0 camera_ok; Leave 0 camera_hung])
    = Some y
    /\ successes (emitted y) = 1%nat
    /\ failures (emitted y) = 1%nat
    /\ successful_captures (stats (ctl y)) = Z.of_nat (successes (emitted y))
    /\ failed_captures (stats (ctl y)) = Z.of_nat (failures (emitted y)).
Proof.
  destruct (run (boot 18 (Some 24) session_now)
                (late_start ++ [Leave 0 camera_ok; Leave 0 camera_hung]))
    as [y|] eqn:R; [|vm_compute in R; discriminate].
  exists y. split; [reflexivity|].
  pose proof (reachable_run _ _ y _
                (reachable_refl (boot 18 (Some 24) session_now)) R) as Reach.
  destruct (counters_match_the_log 18 (Some 24) session_now y Reach)
    as (S & _ & F).
  split; [|split; [|split; [exact S|exact F]]];
    vm_compute in R; injection R as <-; reflexivity.
Defined.

(** ** The latch and the threads *)

Lemma replace_nth_In {A : Type} (i : nat) (x x' : A) (l : list A) :
  nth_error l i = Some x -> In x' (replace_nth i x' l).
Proof.
  revert i. induction l as [|a l IH]; intros [|i]; cbn; try discriminate.
  - intros _. now left.
  - intros H. right. now apply (IH i).
Qed.

(** X4. The latch is never left up on its own: whenever [is_capturing] is
    true some attempt is in flight, whose [finally] clause will lower it. *)
Theorem latch_up_means_attempt_in_flight (pin : Z) (led : option Z)
  (now : Py.datetime) (y : system) :
  reachable (boot pin led now) y ->
  is_capturing (ctl y) = true -> in_flight y <> [].
Proof.
  apply (reachable_invariant
           (fun y => is_capturing (ctl y) = true -> in_flight y <> []));
    [discriminate|].
  clear y. intros y y' [clock channel|i clock|i w]; cbn [step].
  - pose proof (callback_keeps_latch (ctl y) clock channel) as K.
    destruct (pixhawk_trigger_callback (ctl y) clock channel) as [c es].
    cbn [fst] in K.
    intros H; inversion H; subst; clear H. unfold in_flight. cbn.
    intros IH B. rewrite K in B. specialize (IH B).
    rewrite filter_app. intros E. apply app_eq_nil in E. now destruct E.
  - destruct (nth_error (workers y) i) as [[m [t|]]|] eqn:N; try discriminate.
    intros H; inversion H; subst; clear H. unfold in_flight. cbn.
    intros _ _ E.
    assert (I : In {| trigger_number := m; started_at := Some clock |}
                  (filter (fun k => match started_at k with
                                    | Some _ => true
                                    | None => false
                                    end)
                     (replace_nth i {| trigger_number := m;
                                       started_at := Some clock |}
                        (workers y)))).
    { apply filter_In. split; [|reflexivity].
      now apply (replace_nth_In i _ _ _ N). }
    rewrite E in I. exact I.
  - destruct (nth_error (workers y) i) as [[m [t|]]|] eqn:N; try discriminate.
    pose proof (rest_releases_latch (ctl y) m t w) as F.
    destruct (execute_capture_rest (ctl y) m t w) as [c es].
    cbn [fst] in F.
    intros H; inversion H; subst; clear H. cbn. congruence.
Qed.

Lemma latch_up_means_attempt_in_flight_witness :
  exists y,
    run (boot 18 (Some 24) session_now) late_start = Some y
    /\ is_capturing (ctl y) = true
    /\ in_flight y <> [].
Proof.
  destruct (run (boot 18 (Some 24) session_now) late_start)
    as [y|] eqn:R; [|vm_compute in R; discriminate].
  exists y. split; [reflexivity|].
  pose proof (reachable_run _ _ y _
                (reachable_refl (boot 18 (Some 24) session_now)) R) as Reach.
  assert (B : is_capturing (ctl y) = true)
    by (vm_compute in R; injection R as <-; reflexivity).
  split; [exact B|].
  exact (latch_up_means_attempt_in_flight 18 (Some 24) session_now y Reach B).
Defined.

Lemma remove_nth_map {A B : Type} (f : A -> B) (i : nat) (l : list A) :
  map f (remove_nth i l) = remove_nth i (map f l).
Proof.
  revert i. induction l as [|a l IH]; intros [|i]; cbn; trivial.
  now rewrite IH.
Qed.

Lemma remove_nth_incl {A : Type} (i : nat) (l : list A) (x : A) :
  In x (remove_nth i l) -> In x l.
Proof.
  revert i. induction l as [|a l IH]; intros [|i]; cbn; auto.
  intros [E|I]; [now left|right; now apply (IH i)].
Qed.

Lemma remove_nth_NoDup {A : Type} (i : nat) (l : list A) :
  NoDup l -> NoDup (remove_nth i l).
Proof.
  revert i. induction l as [|a l IH]; intros [|i] N; cbn; trivial.
  - now inversion N.
  - inversion N as [|? ? Out Rest]; subst. constructor.
    + intros I. apply Out. now apply (remove_nth_incl i).
    + now apply IH.
Qed.

Lemma replace_nth_same_number (i : nat) (k k' : worker) (l : list worker) :
  nth_error l i = Some k ->
  trigger_number k' = trigger_number k ->
  map trigger_number (replace_nth i k' l) = map trigger_number l.
Proof.
  revert i. induction l as [|a l IH]; intros [|i]; cbn; try discriminate.
  - intros [= ->] E. now rewrite E.
  - intros N E. now rewrite (IH i N E).
Qed.

Lemma NoDup_snoc {A : Type} (l : list A) (x : A) :
  NoDup l -> ~ In x l -> NoDup (l ++ [x]).
Proof.
  induction l as [|a l IH]; cbn; intros N Out.
  - constructor; [easy|constructor].
  - inversion N as [|? ? Out' Rest]; subst. constructor.
    + rewrite in_app_iff. intros [I|[E|[]]]; [easy|].
      apply Out. now left.
    + apply IH; [exact Rest|]. intros I. apply Out. now right.
Qed.

(** X5. No two capture threads that have not ended carry the same trigger
    number, and each number is one the callback has counted: between 1 and
    [total_triggers]. *)
Theorem threads_carry_distinct_trigger_numbers (pin : Z) (led : option Z)
  (now : Py.datetime) (y : system) :
  reachable (boot pin led now) y ->
  NoDup (map trigger_number (workers y))
  /\ Forall (fun n => 1 <= n <= total_triggers (stats (ctl y)))
            (map trigger_number (workers y)).
Proof.
  intros R.
  enough (P : 0 <= total_triggers (stats (ctl y))
              /\ NoDup (map trigger_number (workers y))
              /\ Forall (fun n => 1 <= n <= total_triggers (stats (ctl y)))
                        (map trigger_number (workers y)))
    by exact (proj2 P).
  revert y R.
  apply (reachable_invariant
           (fun y =>
              0 <= total_triggers (stats (ctl y))
              /\ NoDup (map trigger_number (workers y))
              /\ Forall (fun n => 1 <= n <= total_triggers (stats (ctl y)))
                        (map trigger_number (workers y)))).
  - cbn. split; [reflexivity|]. split; constructor.
  - intros y y' [clock channel|i clock|i w]; cbn [step].
    + destruct (callback_cases (ctl y) clock channel)
        as [[_ E]|[(_ & _ & E)|(_ & _ & E)]]; rewrite E;
        intros H; inversion H; subst; clear H; cbn [ctl workers];
        rewrite ?threads_started_app, ?threads_started_set_status_led;
        cbn; rewrite ?app_nil_r; intros (T & N & F).
      * now repeat split.
      * split; [lia|]. split; [exact N|].
        eapply Forall_impl; [|exact F]. cbn. lia.
      * split; [lia|]. rewrite map_app. cbn. split.
        -- apply NoDup_snoc; [exact N|]. intros I.
           rewrite Forall_forall in F. specialize (F _ I). cbn in F. lia.
        -- apply Forall_app. split.
           ++ eapply Forall_impl; [|exact F]. cbn. lia.
           ++ constructor; [lia|constructor].
    + destruct (nth_error (workers y) i) as [[m [t|]]|] eqn:N;
        try discriminate.
      intros H; inversion H; subst; clear H; cbn [ctl workers].
      rewrite (replace_nth_same_number i _
                 {| trigger_number := m; started_at := Some clock |}
                 _ N eq_refl).
      intros P. exact P.
    + destruct (nth_error (workers y) i) as [[m [t|]]|] eqn:N;
        try discriminate.
      pose proof (rest_frame (ctl y) m t w) as (_ & _ & T & _).
      destruct (execute_capture_rest (ctl y) m t w) as [c es].
      cbn [fst] in T.
      intros H; inversion H; subst; clear H; cbn [ctl workers].
      rewrite T, remove_nth_map. intros (Z0 & D & F).
      split; [exact Z0|]. split; [now apply remove_nth_NoDup|].
      rewrite Forall_forall in *. intros n I.
      apply F. now apply (remove_nth_incl i).
Qed.

Lemma threads_carry_distinct_trigger_numbers_witness :
  exists y,
    run (boot 18 (Some 24) session_now) late_start = Some y
    /\ map trigger_number (workers y) = [1; 2]
    /\ NoDup (map trigger_number (workers y)).
Proof.
  destruct (run (boot 18 (Some 24) session_now) late_start)
    as [y|] eqn:R; [|vm_compute in R; discriminate].
  exists y. split; [reflexivity|].
  pose proof (reachable_run _ _ y _
                (reachable_refl (boot 18 (Some 24) session_now)) R) as Reach.
  split.
  - vm_compute in R. injection R as <-. reflexivity.
  - exact (proj1 (threads_carry_distinct_trigger_numbers
                    18 (Some 24) session_now y Reach)).
Defined.

(** ** Counters over time *)

Lemma step_counters_grow (y y' : system) (e : event) :
  step y e = Some y' ->
  total_triggers (stats (ctl y)) <= total_triggers (stats (ctl y'))
  /\ successful_captures (stats (ctl y))
     <= successful_captures (stats (ctl y'))
  /\ failed_captures (stats (ctl y)) <= failed_captures (stats (ctl y'))
  /\ capture_count (ctl y) <= capture_count (ctl y').
Proof.
  destruct e as [clock channel|i clock|i w]; cbn [step].
  - destruct (callback_cases (ctl y) clock channel)
      as [[_ E]|[(_ & _ & E)|(_ & _ & E)]]; rewrite E;
      intros H; inversion H; subst; clear H; cbn; lia.
  - destruct (nth_error (workers y) i) as [[m [t|]]|]; try discriminate.
    intros H; inversion H; subst; clear H; cbn; lia.
  - destruct (nth_error (workers y) i) as [[m [t|]]|]; try discriminate.
    pose proof (rest_counts_once (ctl y) m t w) as C.
    pose proof (rest_frame (ctl y) m t w) as (_ & _ & T & _).
    destruct (execute_capture_rest (ctl y) m t w) as [c es].
    cbn [fst] in C, T.
    intros H; inversion H; subst; clear H; cbn [ctl].
    destruct C as [(-> & -> & ->)|(-> & -> & ->)]; lia.
Qed.

(** X6. No sequence of callbacks and captures ever lowers or resets a
    counter: from any state, [total_triggers], [successful_captures],
    [failed_captures] and [capture_count] only grow. *)
Theorem counters_never_decrease (evs : list event) (y y' : system) :
  run y evs = Some y' ->
  total_triggers (stats (ctl y)) <= total_triggers (stats (ctl y'))
  /\ successful_captures (stats (ctl y))
     <= successful_captures (stats (ctl y'))
  /\ failed_captures (stats (ctl y)) <= failed_captures (stats (ctl y'))
  /\ capture_count (ctl y) <= capture_count (ctl y').
Proof.
  revert y. induction evs as [|e evs IH]; intros y H; cbn in H.
  - injection H as <-. lia.
  - destruct (step y e) as [y1|] eqn:S; [|discriminate].
    pose proof (step_counters_grow y y1 e S).
    pose proof (IH y1 H). lia.
Qed.

Lemma counters_never_decrease_witness :
  exists y,
    run (boot 18 (Some 24) session_now) one_success = Some y
    /\ 0 <= total_triggers (stats (ctl y))
    /\ 0 <= successful_captures (stats (ctl y)).
Proof.
  destruct (run (boot 18 (Some 24) session_now) one_success)
    as [y|] eqn:R; [|vm_compute in R; discriminate].
  exists y. split; [reflexivity|].
  destruct (counters_never_decrease one_success _ y R) as (T & S & _).
  split; [exact T|exact S].
Defined.

(** X7. In every state the controller can reach, the success rate
    [get_statistics] reports lies between 0 and 100 per cent. *)
Theorem success_rate_within_0_and_100 (pin : Z) (led : option Z)
  (now : Py.datetime) (y : system) :
  reachable (boot pin led now) y ->
  (0 <= success_rate (ctl y) <= 100)%Q.
Proof.
  intros R. apply reachable_counters_ok in R. destruct R as (Ok & Ko & Le).
  apply success_rate_of_bounds. lia.
Qed.

Lemma success_rate_within_0_and_100_witness :
  exists y,
    run (boot 18 (Some 24) session_now)
        (late_start ++ [Leave 0 camera_ok; Leave 0 camera_hung])
    = Some y
    /\ (success_rate (ctl y) == 50)%Q
    /\ (0 <= success_rate (ctl y) <= 100)%Q.
Proof.
  destruct (run (boot 18 (Some 24) session_now)
                (late_start ++ [Leave 0 camera_ok; Leave 0 camera_hung]))
    as [y|] eqn:R; [|vm_compute in R; discriminate].
  exists y. split; [reflexivity|].
  pose proof (reachable_run _ _ y _
                (reachable_refl (boot 18 (Some 24) session_now)) R) as Reach.
  split.
  - vm_compute in R. injection R as <-. vm_compute. reflexivity.
  - exact (success_rate_within_0_and_100 18 (Some 24) session_now y Reach).
Defined.

(** ** File names *)

Lemma string_app_inv_head (a b c : string) :
  (a ++ b)%string = (a ++ c)%string -> b = c.
Proof.
  induction a as [|x a IH]; cbn; [trivial|].
  intros [= H]. now apply IH.
Qed.

Lemma string_app_inv_tail (a b c : string) :
  (a ++ c)%string = (b ++ c)%string -> a = b.
Proof.
  revert b. induction a as [|x a IH]; intros [|z b] H; cbn in H.
  - reflexivity.
  - apply (f_equal String.length) in H. cbn in H.
    rewrite string_length_app in H. lia.
  - apply (f_equal String.length) in H. cbn in H.
    rewrite string_length_app in H. lia.
  - injection H as -> H. f_equal. now apply IH.
Qed.

Lemma read_digits_zeros (k : nat) (field : string) :
  read_digits (Py.zeros k ++ field)%string = read_digits field.
Proof.
  induction k as [|k IH]; [reflexivity|].
  rewrite <- IH. unfold read_digits. cbn.
  destruct (NilEmpty.uint_of_string (Py.zeros k ++ field)); reflexivity.
Qed.

Lemma read_digits_str (n : Z) : 0 <= n -> read_digits (Py.str n) = Some n.
Proof.
  intros N. unfold read_digits, Py.str.
  pose proof (DecimalZ.of_to n) as Back.
  destruct n as [|p|p]; [reflexivity| |lia].
  cbn in Back |- *.
  pose proof (DecimalPos.Unsigned.to_uint_nonnil p) as NonNil.
  destruct (Pos.to_uint p) eqn:U; [easy|..];
    rewrite <- U in *; clear U;
    (replace (NilZero.string_of_uint (Pos.to_uint p))
       with (NilEmpty.string_of_uint (Pos.to_uint p))
       by (destruct (Pos.to_uint p); easy));
    rewrite NilEmpty.usu; cbn; now rewrite Back.
Qed.

(** The sequence field of a file name reads back as the trigger number. *)
Lemma read_digits_format_05d (n : Z) :
  0 <= n -> read_digits (Py.format_05d n) = Some n.
Proof.
  intros N. unfold Py.format_05d.
  destruct (n <? 0) eqn:Neg; [lia|].
  rewrite read_digits_zeros. now apply read_digits_str.
Qed.

Lemma capture_filename_not_absolute (n : Z) (w : attempt) :
  Py.startswith_slash (capture_filename n w) = false.
Proof. reflexivity. Qed.

(** X8. Attempts with different trigger numbers never write to the same
    file, even when they start within the same second: the path passed to
    gphoto2 determines the (non-negative) trigger number. *)
Theorem file_path_determines_trigger_number (s : controller) (n m : Z)
  (w w' : attempt) :
  strftime w = strftime w' ->
  0 <= n -> 0 <= m ->
  capture_filepath s n w = capture_filepath s m w' ->
  n = m.
Proof.
  intros Stamp N M. unfold capture_filepath, Py.os_path_join.
  rewrite !capture_filename_not_absolute.
  intros H.
  assert (F : capture_filename n w = capture_filename m w').
  { destruct ((String.length (photo_directory s) =? 0)%nat
              || Py.endswith_slash (photo_directory s)).
    - now apply string_app_inv_head in H.
    - apply string_app_inv_head in H.
      now apply (string_app_inv_head "/") in H. }
  unfold capture_filename in F. rewrite Stamp in F.
  apply (string_app_inv_head "aerial_") in F.
  apply string_app_inv_head in F.
  apply (string_app_inv_head "_T") in F.
  apply string_app_inv_tail in F.
  apply (f_equal read_digits) in F.
  rewrite !read_digits_format_05d in F by assumption.
  now injection F.
Qed.

Lemma file_path_determines_trigger_number_witness :
  capture_filepath fresh 7 camera_ok
  = "/home/pi/aerial_photos/aerial_20231114_221321_T00007.jpg"
  /\ capture_filepath fresh 7 camera_ok <> capture_filepath fresh 8 camera_hung
  /\ (capture_filepath fresh 7 camera_ok = capture_filepath fresh 7 camera_hung
      /\ 7 = 7).
Proof.
  split; [reflexivity|]. split.
  - intros Same.
    assert (E : 7 = 8).
    { apply (file_path_determines_trigger_number
               fresh 7 8 camera_ok camera_hung);
        [reflexivity|lia|lia|exact Same]. }
    discriminate E.
  - split; [reflexivity|].
    apply (file_path_determines_trigger_number
             fresh 7 7 camera_ok camera_hung);
      [reflexivity|lia|lia|reflexivity].
Defined.

(** ** The uptime clock of the status block *)

Lemma int_of_float_integer (z : Z) : int_of_float (inject_Z z) = z.
Proof.
  unfold int_of_float. destruct (Qle_bool 0 (inject_Z z));
    [apply Qfloor_Z|apply Qceiling_Z].
Qed.

Lemma int_of_float_nonneg (x : Q) : (0 <= x)%Q -> int_of_float x = Qfloor x.
Proof.
  intros H. unfold int_of_float. apply Qle_bool_iff in H. now rewrite H.
Qed.

Lemma floor_bounds (x : Q) :
  (inject_Z (Qfloor x) <= x /\ x < inject_Z (Qfloor x) + 1)%Q.
Proof.
  split; [apply Qfloor_le|].
  pose proof (Qlt_floor x) as H. now rewrite inject_Z_plus in H.
Qed.

Lemma floor_div_bounds (x c : Q) :
  (0 < c)%Q ->
  (c * inject_Z (Qfloor (x / c)) <= x
   /\ x < c * inject_Z (Qfloor (x / c)) + c)%Q.
Proof.
  intros C. destruct (floor_bounds (x / c)) as [L U].
  assert (NZ : ~ (c == 0)%Q) by lra.
  pose proof (Qmult_div_r x c NZ) as E.
  split.
  - rewrite <- E at 2. now apply Qmult_le_l.
  - rewrite <- E at 1.
    setoid_replace (c * inject_Z (Qfloor (x / c)) + c)%Q
      with (c * (inject_Z (Qfloor (x / c)) + 1))%Q by ring.
    now apply Qmult_lt_l.
Qed.

Lemma Zlt_of_Qlt (a b : Z) : (inject_Z a < inject_Z b)%Q -> a < b.
Proof. now rewrite <- Zlt_Qlt. Qed.

(** X9. The clock [print_status] prints splits the whole seconds of uptime
    exactly: minutes and seconds lie in 0..59 and hours * 3600 + minutes *
    60 + seconds is the uptime rounded down. *)
Theorem uptime_clock_splits_whole_seconds (uptime_seconds : Q) :
  let '(hours, minutes, seconds) := uptime_clock uptime_seconds in
  0 <= minutes < 60
  /\ 0 <= seconds < 60
  /\ hours * 3600 + minutes * 60 + seconds = Qfloor uptime_seconds.
Proof.
  unfold uptime_clock, floordiv. rewrite !int_of_float_integer.
  set (u := uptime_seconds).
  destruct (floor_div_bounds u 3600 ltac:(lra)) as [A1 A2].
  destruct (floor_div_bounds (fmod u 3600) 60 ltac:(lra)) as [M1 M2].
  destruct (floor_div_bounds u 60 ltac:(lra)) as [B1 B2].
  destruct (floor_bounds (fmod u 60)) as [S1 S2].
  destruct (floor_bounds u) as [F1 F2].
  assert (R : (fmod u 3600 == u - 3600 * inject_Z (Qfloor (u / 3600)))%Q)
    by reflexivity.
  assert (T : (fmod u 60 == u - 60 * inject_Z (Qfloor (u / 60)))%Q)
    by reflexivity.
  assert (T0 : (0 <= fmod u 60)%Q) by (rewrite T; lra).
  rewrite (int_of_float_nonneg _ T0).
  set (a := Qfloor (u / 3600)) in *.
  set (m := Qfloor (fmod u 3600 / 60)) in *.
  set (b := Qfloor (u / 60)) in *.
  set (s := Qfloor (fmod u 60)) in *.
  set (f := Qfloor u) in *.
  rewrite R in M1, M2. rewrite T in S1, S2.
  assert (E1 : 60 * b + s < f + 1).
  { apply Zlt_of_Qlt. rewrite !inject_Z_plus, inject_Z_mult.
    change (inject_Z 60) with 60%Q. change (inject_Z 1) with 1%Q. lra. }
  assert (E2 : f < 60 * b + s + 1).
  { apply Zlt_of_Qlt. rewrite !inject_Z_plus, inject_Z_mult.
    change (inject_Z 60) with 60%Q. change (inject_Z 1) with 1%Q. lra. }
  assert (E3 : 60 * (60 * a + m) < 60 * b + 60).
  { apply Zlt_of_Qlt. rewrite !inject_Z_plus, !inject_Z_mult, inject_Z_plus,
      inject_Z_mult.
    change (inject_Z 60) with 60%Q. lra. }
  assert (E4 : 60 * b < 60 * (60 * a + m) + 60).
  { apply Zlt_of_Qlt. rewrite !inject_Z_plus, !inject_Z_mult, inject_Z_plus,
      inject_Z_mult.
    change (inject_Z 60) with 60%Q. lra. }
  assert (E5 : 60 * m < 3600).
  { apply Zlt_of_Qlt. rewrite inject_Z_mult.
    change (inject_Z 60) with 60%Q. change (inject_Z 3600) with 3600%Q. lra. }
  assert (E6 : 0 < 60 * m + 60).
  { apply Zlt_of_Qlt. rewrite inject_Z_plus, inject_Z_mult.
    change (inject_Z 60) with 60%Q. change (inject_Z 0) with 0%Q. lra. }
  assert (E7 : s < 60).
  { apply Zlt_of_Qlt. change (inject_Z 60) with 60%Q. lra. }
  assert (E8 : 0 < s + 1).
  { apply Zlt_of_Qlt. rewrite inject_Z_plus.
    change (inject_Z 1) with 1%Q. change (inject_Z 0) with 0%Q. lra. }
  lia.
Qed.

Example uptime_clock_of_3725_seconds_and_a_half :
  uptime_clock (7451 # 2) = (1, 2, 5).
Proof. reflexivity. Qed.

(** ** Set-up *)

(** Splits [setup_gpio] on which call, if any, is the first to raise. *)
Ltac first_raise raises :=
  repeat match goal with
         | |- context [raises ?c] =>
             let E := fresh "E" in destruct (raises c) eqn:E; cbn
         end.

Ltac no_such_member H :=
  exfalso; repeat (destruct H as [H|H]; try discriminate H); exact H.

Ltac a_call_raised H :=
  match goal with
  | E : _ ?c = Some _ |- _ =>
      rewrite (H c) in E by (cbn; tauto); discriminate E
  end.

Ltac every_call_returned H :=
  repeat (destruct H as [<-|H]; [assumption|]); destruct H.

Ltac is_member := cbn; repeat (first [left; reflexivity | right]).

Lemma setup_gpio_arms (s : controller) (raises : gpio_call -> option string) :
  In (Call (Add_event_detect_RISING (trigger_pin s) 100)) (setup_gpio s raises)
  <-> forall c, In c (gpio_calls s) -> raises c = None.
Proof.
  unfold setup_gpio, gpio_calls, blink_status_led.
  destruct (Py.truthy (status_led_pin s)) eqn:T; cbn; first_raise raises;
    (split; intros H;
     [first [no_such_member H | intros c M; every_call_returned M]
     |first [a_call_raised H | is_member]]).
Qed.

Lemma setup_gpio_reports_ready (s : controller)
  (raises : gpio_call -> option string) :
  In (Note INFO (GpioConfigurado (trigger_pin s))) (setup_gpio s raises)
  <-> forall c, In c (gpio_calls s) -> raises c = None.
Proof.
  unfold setup_gpio, gpio_calls, blink_status_led.
  destruct (Py.truthy (status_led_pin s)) eqn:T; cbn; first_raise raises;
    (split; intros H;
     [first [no_such_member H | intros c M; every_call_returned M]
     |first [a_call_raised H | is_member]]).
Qed.

Lemma setup_gpio_without_led (s : controller)
  (raises : gpio_call -> option string) :
  Py.truthy (status_led_pin s) = false ->
  forall c, In (Call c) (setup_gpio s raises) ->
            forall channel, c <> Setup_OUT channel /\ c <> Output_LOW channel.
Proof.
  unfold setup_gpio, gpio_calls, blink_status_led. intros T. rewrite T.
  cbn; first_raise raises; intros c H channel;
    repeat (destruct H as [H|H];
            [try discriminate H; injection H as <-; split; discriminate|]);
    destruct H.
Qed.

(** X10. [setup_gpio] arms the trigger interrupt exactly when every GPIO call
    it makes returns: if any call raises, the configured LED's included,
    [add_event_detect] is never reached, and the "GPIO configurado" record
    is logged in the same case only.  Without a status LED pin no call that
    configures or drives an output is made, on any channel. *)
Theorem setup_gpio_arms_iff_every_call_returns (s : controller)
  (raises : gpio_call -> option string) :
  (In (Call (Add_event_detect_RISING (trigger_pin s) 100))
      (setup_gpio s raises)
   <-> forall c, In c (gpio_calls s) -> raises c = None)
  /\ (In (Note INFO (GpioConfigurado (trigger_pin s))) (setup_gpio s raises)
      <-> forall c, In c (gpio_calls s) -> raises c = None)
  /\ (Py.truthy (status_led_pin s) = false ->
      forall c, In (Call c) (setup_gpio s raises) ->
                forall channel,
                  c <> Setup_OUT channel /\ c <> Output_LOW channel).
Proof.
  split; [apply setup_gpio_arms|].
  split; [apply setup_gpio_reports_ready|apply setup_gpio_without_led].
Qed.

Lemma setup_gpio_arms_iff_every_call_returns_witness :
  In (Call (Add_event_detect_RISING 18 100)) (setup_gpio fresh (fun _ => None))
  /\ ~ In (Call (Add_event_detect_RISING 18 100))
          (setup_gpio fresh led_setup_fails)
  /\ ~ In (Call (Output_LOW (Some 24)))
          (setup_gpio (init 18 None session_now) (fun _ => None)).
Proof.
  split; [|split].
  - apply (proj1 (setup_gpio_arms_iff_every_call_returns fresh
                    (fun _ => None))).
    reflexivity.
  - intros H.
    pose proof (proj1 (proj1 (setup_gpio_arms_iff_every_call_returns
                                fresh led_setup_fails)) H
                  (Setup_OUT (Some 24))) as F.
    assert (E : led_setup_fails (Setup_OUT (Some 24)) = None)
      by (apply F; cbn; tauto).
    discriminate E.
  - intros H.
    destruct (proj2 (proj2 (setup_gpio_arms_iff_every_call_returns
                              (init 18 None session_now) (fun _ => None)))
                eq_refl _ H (Some 24)) as [_ Off].
    now apply Off.
Defined.

Lemma prefix_iff (needle hay : string) :
  String.prefix needle hay = true
  <-> exists post, hay = (needle ++ post)%string.
Proof.
  revert hay. induction needle as [|c needle IH]; intros hay.
  - split; [intros _; now exists hay|now destruct hay].
  - destruct hay as [|d hay]; cbn.
    + split; [discriminate|intros [post H]; discriminate].
    + destruct (ascii_dec c d) as [->|Diff].
      * rewrite IH. split; intros [post H]; exists post;
          [now rewrite H|now injection H].
      * split; [discriminate|].
        intros [post H]. injection H as E _. now symmetry in E.
Qed.

(** [needle in hay] holds exactly when [hay] has [needle] somewhere. *)
Lemma contains_iff (needle hay : string) :
  contains needle hay = true
  <-> exists pre post, hay = (pre ++ needle ++ post)%string.
Proof.
  induction hay as [|d hay IH]; cbn [contains]; rewrite orb_true_iff.
  - rewrite prefix_iff. split.
    + intros [[post H]|F]; [|discriminate]. now exists EmptyString, post.
    + intros ([|c pre] & post & H); [left; now exists post|discriminate].
  - rewrite prefix_iff, IH. split.
    + intros [[post H]|(pre & post & H)].
      * now exists EmptyString, post.
      * exists (String d pre), post. cbn. now rewrite H.
    + intros ([|c pre] & post & H).
      * left. now exists post.
      * right. exists pre, post. cbn in H. now injection H.
Qed.

(** X11. [test_camera_connection] reports the camera present exactly when
    gphoto2 returns and its output has "Parrot" or "Sequoia" somewhere in
    it; the exit status is not looked at, a timeout or any other exception
    gives [False], and the two-blink signal is given in the first case
    only. *)
Theorem camera_detected_iff_named_in_output (s : controller)
  (r : detect_result) :
  (fst (test_camera_connection s r) = true
   <-> exists returncode stdout pre post,
         r = Detect returncode stdout
         /\ (stdout = (pre ++ "Parrot" ++ post)%string
             \/ stdout = (pre ++ "Sequoia" ++ post)%string))
  /\ (In (Issue (StartBlink 2 (5 # 10))) (snd (test_camera_connection s r)) ->
      fst (test_camera_connection s r) = true).
Proof.
  unfold test_camera_connection.
  destruct r as [returncode stdout|[|e]]; cbn [fst snd].
  - destruct (contains "Parrot" stdout || contains "Sequoia" stdout) eqn:C;
      cbn [fst snd].
    + split; [|trivial]. split; [intros _|trivial].
      apply orb_true_iff in C. exists returncode, stdout.
      destruct C as [C|C]; apply contains_iff in C;
        destruct C as (pre & post & C); exists pre, post; auto.
    + apply orb_false_iff in C. destruct C as [P Q]. split.
      * split; [discriminate|].
        intros (rc & out & pre & post & [= _ <-] & [H|H]).
        -- assert (T : contains "Parrot" stdout = true)
             by (apply contains_iff; now exists pre, post).
           congruence.
        -- assert (T : contains "Sequoia" stdout = true)
             by (apply contains_iff; now exists pre, post).
           congruence.
      * intros H. no_such_member H.
  - split.
    + split; [discriminate|]. intros (rc & out & pre & post & H & _).
      discriminate H.
    + intros H. no_such_member H.
  - split.
    + split; [discriminate|]. intros (rc & out & pre & post & H & _).
      discriminate H.
    + intros H. no_such_member H.
Qed.

Lemma camera_detected_iff_named_in_output_witness :
  fst (test_camera_connection fresh (Detect 1 "Parrot Sequoia usb:001,004"))
  = true
  /\ fst (test_camera_connection fresh (Detect 0 "Canon EOS usb:001,004"))
     = false.
Proof.
  split.
  - apply (proj1 (camera_detected_iff_named_in_output fresh _)).
    exists 1, "Parrot Sequoia usb:001,004", EmptyString,
      " Sequoia usb:001,004".
    split; [reflexivity|left; reflexivity].
  - reflexivity.
Defined.

(** ** The blink thread *)






(** ** The rate of triggers *)

Lemma step_rate (y y' : system) (e : event) :
  step y e = Some y' ->
  debounce_time (ctl y') = debounce_time (ctl y)
  /\ (inject_Z (total_triggers (stats (ctl y'))
                - total_triggers (stats (ctl y)))
      * debounce_time (ctl y)
      <= last_trigger_time (ctl y') - last_trigger_time (ctl y))%Q.
Proof.
  destruct e as [clock channel|i clock|i w]; intros S.
  - pose proof (step_edge_view y y' clock channel S) as V.
    unfold debounce_view in V.
    destruct (Py.Qltb _ _) eqn:B; injection V as L T D _; rewrite L, T, D.
    + split; [reflexivity|]. rewrite Z.sub_diag.
      change (inject_Z 0) with 0%Q. lra.
    + split; [reflexivity|].
      replace (total_triggers (stats (ctl y)) + 1
               - total_triggers (stats (ctl y))) with 1 by lia.
      change (inject_Z 1) with 1%Q.
      assert (Far : ~ (clock - last_trigger_time (ctl y)
                       < debounce_time (ctl y))%Q).
      { intros Near. apply Qltb_true in Near. congruence. }
      apply Qnot_lt_le in Far. lra.
  - pose proof (step_worker_view y y' (Enter i clock) eq_refl S) as V.
    unfold debounce_view in V. injection V as L T D _. rewrite L, T, D.
    split; [reflexivity|]. rewrite Z.sub_diag.
    change (inject_Z 0) with 0%Q. lra.
  - pose proof (step_worker_view y y' (Leave i w) eq_refl S) as V.
    unfold debounce_view in V. injection V as L T D _. rewrite L, T, D.
    split; [reflexivity|]. rewrite Z.sub_diag.
    change (inject_Z 0) with 0%Q. lra.
Qed.

(** X13. The software debounce bounds the trigger rate whatever the clock
    does: over any sequence of events, the triggers counted, times
    [debounce_time], fit in the advance of [last_trigger_time]; and
    [debounce_time] itself is never changed. *)
Theorem debounce_limits_the_trigger_rate (evs : list event) (y y' : system) :
  run y evs = Some y' ->
  debounce_time (ctl y') = debounce_time (ctl y)
  /\ (inject_Z (total_triggers (stats (ctl y'))
                - total_triggers (stats (ctl y)))
      * debounce_time (ctl y)
      <= last_trigger_time (ctl y') - last_trigger_time (ctl y))%Q.
Proof.
  revert y. induction evs as [|e evs IH]; intros y H; cbn in H.
  - injection H as <-. split; [reflexivity|]. rewrite Z.sub_diag.
    change (inject_Z 0) with 0%Q. lra.
  - destruct (step y e) as [y1|] eqn:S; [|discriminate].
    destruct (step_rate y y1 e S) as [D1 R1].
    destruct (IH y1 H) as [D2 R2].
    split; [congruence|]. rewrite D1 in R2.
    replace (total_triggers (stats (ctl y'))
             - total_triggers (stats (ctl y)))
      with ((total_triggers (stats (ctl y'))
             - total_triggers (stats (ctl y1)))
            + (total_triggers (stats (ctl y1))
               - total_triggers (stats (ctl y)))) by lia.
    rewrite inject_Z_plus. lra.
Qed.

Lemma debounce_limits_the_trigger_rate_witness :
  exists y,
    run (boot 18 (Some 24) session_now) late_start = Some y
    /\ total_triggers (stats (ctl y)) = 2
    /\ (inject_Z (total_triggers (stats (ctl y)) - 0) * (1 # 10)
        <= last_trigger_time (ctl y) - 0)%Q.
Proof.
  destruct (run (boot 18 (Some 24) session_now) late_start)
    as [y|] eqn:R; [|vm_compute in R; discriminate].
  exists y. split; [reflexivity|].
  destruct (debounce_limits_the_trigger_rate late_start _ y R) as [_ Rate].
  split; [|exact Rate].
  vm_compute in R. injection R as <-. reflexivity.
Defined.
